(** * CleanerMulti: a shallow embedding of [cleaner_multi.py]

    The development follows the layout of the Python module: the string and
    path helpers of the Python standard library the code relies on, the
    pattern engine behind [re], the language handlers and the import
    resolver, the file system the tool works on, the scanner with its cache,
    the dependency graph, the analyses, the snapshot store and the mutating
    commands.  Definitions come first, the properties of the specification
    afterwards.

    Modelling conventions.
    - Python [str] is [string]; comparison and sorting are by code unit,
      which for UTF-8 text coincides with Python's code point order.
    - [os.path] is POSIX ([os.sep = "/"]).
    - [dict] is [gmap], [set] is [gset]; a [KeyError] or any other exception
      is a [None] result unless the code catches it.
    - The file system is a tree of directories rooted at the working
      directory; paths are the strings the code builds, interpreted
      component by component.  Symbolic links, permissions and transient
      I/O faults are not part of the model.
    - [log] only prints and appends to the log file; it is left out.  What a
      command shows with [show_preview] is returned as part of its result.

    Where the model is exact.  Some library calls are modelled on the part
    of their domain the tool normally works on, and the properties that
    depend on them say so in their hypotheses:
    - the blanks of [str.strip], the case folding of [str.lower] and the
      classes [\s] and [\w] of the patterns are the ASCII ones
      ([ascii_text]);
    - a file holds its text as the program reads it; it is also the bytes
      on the disk when the text is ASCII without carriage returns
      ([plain_text]);
    - a path names what the kernel would find when it is relative and has
      no [..] component ([in_tree]); a path with a trailing slash behind a
      regular file is not told apart from the file, so properties about
      files are stated for normalised paths;
    - directories carry no modification time, so the properties of the
      cache are stated for cached paths that name regular files;
    - [json.dump] is modelled for strings it writes as they are
      ([json_plain]);
    - the project root is the configured [src]. *)

From Stdlib Require Import Ascii String.
From Stdlib Require OrderedTypeEx.
From stdpp Require Import gmap strings list sorting.

Local Set Warnings "-register-all,-clear-no-such-hyp".
Local Open Scope string_scope.

(* ===================================================================== *)
(** * Python string methods *)
(* ===================================================================== *)

Module PyStr.

(** [truthy s]: a string used as a condition ([if s:]). *)
Definition truthy (s : string) : bool :=
  match s with "" => false | _ => true end.

(** [s.startswith(p)] *)
Definition startswith (s p : string) : bool := String.prefix p s.

(** [s.endswith(p)]: [p] is one of the suffixes of [s]. *)
Fixpoint endswith (s p : string) : bool :=
  String.eqb s p ||
  match s with
  | "" => false
  | String _ s' => endswith s' p
  end.

(** [sub in s] *)
Fixpoint contains (s sub : string) : bool :=
  String.prefix sub s ||
  match s with
  | "" => false
  | String _ s' => contains s' sub
  end.

(** [s.split(c)] for a one-character separator: never empty. *)
Fixpoint split_on (c : ascii) (s : string) : list string :=
  match s with
  | "" => [""]
  | String a s' =>
      if Ascii.eqb a c then "" :: split_on c s'
      else match split_on c s' with
           | [] => [String a ""]
           | x :: xs => String a x :: xs
           end
  end.

(** [s.replace(c, new)] for a one-character pattern. *)
Fixpoint replace_char (c : ascii) (new : string) (s : string) : string :=
  match s with
  | "" => ""
  | String a s' =>
      if Ascii.eqb a c then new +:+ replace_char c new s'
      else String a (replace_char c new s')
  end.

(** [s.replace(old, new)] for an arbitrary pattern: leftmost,
    non-overlapping occurrences.  [fuel] bounds the number of characters
    visited; [replace] supplies the length of [s]. *)
Fixpoint replace_fuel (fuel : nat) (old new s : string) : string :=
  match fuel with
  | O => s
  | S fuel' =>
      match s with
      | "" => ""
      | String a s' =>
          if String.prefix old s
          then new +:+ replace_fuel fuel' old new
                         (String.substring (String.length old)
                            (String.length s - String.length old) s)
          else String a (replace_fuel fuel' old new s')
      end
  end.

Definition replace (old new s : string) : string :=
  match old with
  | "" => s (* never called with an empty pattern *)
  | _ => replace_fuel (String.length s) old new s
  end.

(** ASCII case folding of [s.lower()]. *)
Definition lower_ascii (a : ascii) : ascii :=
  let n := nat_of_ascii a in
  if (65 <=? n)%nat && (n <=? 90)%nat then ascii_of_nat (n + 32) else a.

Fixpoint lower (s : string) : string :=
  match s with
  | "" => ""
  | String a s' => String (lower_ascii a) (lower s')
  end.

(** The ASCII characters [str.strip()] removes. *)
Definition is_space (a : ascii) : bool :=
  let n := nat_of_ascii a in
  ((9 <=? n)%nat && (n <=? 13)%nat) || ((28 <=? n)%nat && (n <=? 32)%nat).

Fixpoint lstrip_by (p : ascii -> bool) (s : string) : string :=
  match s with
  | "" => ""
  | String a s' => if p a then lstrip_by p s' else s
  end.

Definition rstrip_by (p : ascii -> bool) (s : string) : string :=
  String.rev (lstrip_by p (String.rev s)).

Definition strip_by (p : ascii -> bool) (s : string) : string :=
  rstrip_by p (lstrip_by p s).

(** [s.strip()] *)
Definition strip (s : string) : string := strip_by is_space s.

Definition dquote : ascii := "034"%char.
Definition squote : ascii := "039"%char.

(** [s.strip(q)] where [q] holds the double and the single quote. *)
Definition strip_quotes (s : string) : string :=
  strip_by (fun a => Ascii.eqb a dquote || Ascii.eqb a squote) s.

(** [s.strip(q)] where [q] is the double quote. *)
Definition strip_dquote (s : string) : string :=
  strip_by (fun a => Ascii.eqb a dquote) s.

Definition newline : ascii := "010"%char.

(** [s.rstrip(nl)] where [nl] is the newline. *)
Definition rstrip_nl (s : string) : string :=
  rstrip_by (fun a => Ascii.eqb a newline) s.

(** [fh.readlines()]: the lines of a text, each keeping its newline. *)
Fixpoint readlines (s : string) : list string :=
  match s with
  | "" => []
  | String a s' =>
      if Ascii.eqb a newline then String a "" :: readlines s'
      else match readlines s' with
           | [] => [String a ""]
           | l :: ls => String a l :: ls
           end
  end.

(** [fh.writelines(lines)] writes the concatenation. *)
Definition writelines (ls : list string) : string := String.concat "" ls.

(** [s.splitlines()] for newline-separated text. *)
Definition splitlines (s : string) : list string :=
  map rstrip_nl (readlines s).

(** The order of Python's string comparison, and its converse. *)
Definition str_le (a b : string) : Prop := String.leb a b = true.
Definition str_ge (a b : string) : Prop := String.leb b a = true.

#[global] Instance str_le_dec : RelDecision str_le.
Proof. intros a b. unfold str_le. apply _. Defined.

#[global] Instance str_ge_dec : RelDecision str_ge.
Proof. intros a b. unfold str_ge. apply _. Defined.

(** [sorted(l)] and [sorted(l, reverse=True)] on strings. *)
Definition sorted (l : list string) : list string := merge_sort str_le l.

Definition sorted_rev (l : list string) : list string := merge_sort str_ge l.

End PyStr.

(* ===================================================================== *)
(** * [os.path] (posixpath) *)
(* ===================================================================== *)

Module PyPath.
Import PyStr.

Definition sep : string := "/".
Definition slash : ascii := "/"%char.
Definition dot : ascii := "."%char.

Definition all_chars (p : ascii -> bool) (s : string) : bool :=
  forallb p (list_ascii_of_string s).

(** [os.path.join(a, b)] *)
Definition join (a b : string) : string :=
  if startswith b "/" then b
  else if negb (truthy a) || endswith a "/" then a +:+ b
  else a +:+ "/" +:+ b.

(** The stack discipline of [normpath] on one component. *)
Definition norm_step (initial_slashes : nat) (new_comps : list string)
    (comp : string) : list string :=
  if bool_decide (comp = "") || bool_decide (comp = ".") then new_comps
  else if negb (bool_decide (comp = ".."))
          || ((initial_slashes =? 0)%nat && bool_decide (new_comps = []))
          || bool_decide (last new_comps = Some "..")
       then new_comps ++ [comp]
       else removelast new_comps.

(** [os.path.normpath(path)] *)
Definition normpath (path : string) : string :=
  if negb (truthy path) then "."
  else
    let initial_slashes :=
      if startswith path "/"
      then if startswith path "//" && negb (startswith path "///")
           then 2%nat else 1%nat
      else 0%nat in
    let comps := fold_left (norm_step initial_slashes) (split_on slash path) [] in
    let body := String.concat "/" comps in
    let res := String.concat "" (replicate initial_slashes "/") +:+ body in
    if truthy res then res else ".".

(** [os.path.basename(p)] *)
Definition basename (p : string) : string :=
  default "" (last (split_on slash p)).

(** [os.path.dirname(p)] *)
Definition dirname (p : string) : string :=
  let comps := split_on slash p in
  let head :=
    match removelast comps with
    | [] => ""
    | init => String.concat "/" init +:+ "/"
    end in
  if truthy head && negb (all_chars (Ascii.eqb slash) head)
  then rstrip_by (Ascii.eqb slash) head
  else head.

(** [os.path.splitext(p)[1]]: the extension starts at the last dot of the
    base name, unless only dots precede it. *)
Definition splitext_ext (p : string) : string :=
  let parts := split_on dot (basename p) in
  match last parts with
  | Some e =>
      let stem := String.concat "." (removelast parts) in
      if (2 <=? length parts)%nat && negb (all_chars (Ascii.eqb dot) stem)
      then "." +:+ e
      else ""
  | None => ""
  end.

End PyPath.

(* ===================================================================== *)
(** * Compiled patterns ([re]) *)
(* ===================================================================== *)

Module Re.
Import PyStr.

(** A match object: [m.group(0)], the capturing groups [m.group(1)],
    [m.group(2)], ... ([None] for a group that took no part in the match)
    and [m.lastindex]. *)
Record rmatch := Match {
  group0 : string;
  groups : list (option string);
  lastindex : option nat
}.

(** [m.group(i)] for [i >= 1]; an index past the last group is the
    [IndexError] branch of the callers, which reads as [None]. *)
Definition group (m : rmatch) (i : nat) : option string :=
  match i with
  | O => Some (group0 m)
  | S j => mjoin (groups m !! j)
  end.

(** [m.lastindex] used as a condition. *)
Definition has_lastindex (m : rmatch) : bool :=
  match lastindex m with
  | Some (S _) => true
  | _ => false
  end.

(** A compiled pattern is what the callers see of it: the sequence of
    non-overlapping matches [rx.finditer(text)] yields, left to right.
    [rx.search(text)] is the first of them. *)
Record regex := Regex { finditer : string -> list rmatch }.

Definition search (rx : regex) (text : string) : option rmatch :=
  head (finditer rx text).

(** ** A backtracking matcher for the pattern syntax the module uses *)

Inductive citem :=
  | CChar (a : ascii)
  | CWord          (* \w : letters, digits, underscore *)
  | CSpace.        (* \s *)

Inductive re :=
  | Eps
  | Lit (a : ascii)
  | CSet (negated : bool) (items : list citem)
  | AnyChar
  | Bol
  | WordB
  | Seq (r1 r2 : re)
  | Alt (r1 r2 : re)
  | Star (greedy : bool) (r : re)
  | Group (i : nat) (r : re).

Definition Plus (r : re) : re := Seq r (Star true r).
Definition Opt (r : re) : re := Alt r Eps.

Fixpoint Str (s : string) : re :=
  match s with
  | "" => Eps
  | String a s' => Seq (Lit a) (Str s')
  end.

Record flags := Flags { multiline : bool; dotall : bool }.

Definition is_word (a : ascii) : bool :=
  let n := nat_of_ascii a in
  ((48 <=? n)%nat && (n <=? 57)%nat) || ((65 <=? n)%nat && (n <=? 90)%nat)
  || ((97 <=? n)%nat && (n <=? 122)%nat) || (n =? 95)%nat.

Definition citem_match (it : citem) (a : ascii) : bool :=
  match it with
  | CChar b => Ascii.eqb a b
  | CWord => is_word a
  | CSpace => is_space a
  end.

(** The matcher's cursor: characters consumed so far, the character just
    before the cursor, the text still ahead, the captures made so far. *)
Record cursor := Cursor {
  pos : nat;
  prev : option ascii;
  rest : string;
  caps : list (nat * string);
  lastgrp : option nat
}.

Definition advance (c : cursor) : option cursor :=
  match rest c with
  | "" => None
  | String a s' => Some (Cursor (S (pos c)) (Some a) s' (caps c) (lastgrp c))
  end.

Definition peek (c : cursor) : option ascii :=
  match rest c with
  | "" => None
  | String a _ => Some a
  end.

Definition at_bol (fl : flags) (c : cursor) : bool :=
  match prev c with
  | None => true
  | Some a => multiline fl && Ascii.eqb a newline
  end.

Definition at_wordb (c : cursor) : bool :=
  xorb (from_option is_word false (prev c)) (from_option is_word false (peek c)).

(** The iteration of a starred pattern: [step] matches the body once, an
    iteration that consumes nothing ends the loop, and [n] bounds the
    iterations by the characters left. *)
Fixpoint star_loop (step : cursor -> (cursor -> option cursor) -> option cursor)
    (greedy : bool) (k : cursor -> option cursor) (n : nat) (c : cursor)
    : option cursor :=
  match n with
  | O => k c
  | S n' =>
      let more :=
        step c (fun c' => if (pos c <? pos c')%nat
                          then star_loop step greedy k n' c' else None) in
      if greedy
      then match more with Some c' => Some c' | None => k c end
      else match k c with Some c' => Some c' | None => more end
  end.

Fixpoint run (fl : flags) (whole : string) (r : re) (c : cursor)
    (k : cursor -> option cursor) {struct r} : option cursor :=
  match r with
  | Eps => k c
  | Lit a =>
      match peek c with
      | Some b => if Ascii.eqb a b then advance c ≫= k else None
      | None => None
      end
  | CSet neg items =>
      match peek c with
      | Some b =>
          if xorb neg (existsb (fun it => citem_match it b) items)
          then advance c ≫= k else None
      | None => None
      end
  | AnyChar =>
      match peek c with
      | Some b =>
          if dotall fl || negb (Ascii.eqb b newline) then advance c ≫= k else None
      | None => None
      end
  | Bol => if at_bol fl c then k c else None
  | WordB => if at_wordb c then k c else None
  | Seq r1 r2 => run fl whole r1 c (fun c' => run fl whole r2 c' k)
  | Alt r1 r2 =>
      match run fl whole r1 c k with
      | Some c' => Some c'
      | None => run fl whole r2 c k
      end
  | Star greedy r' =>
      star_loop (run fl whole r') greedy k (String.length (rest c)) c
  | Group i r' =>
      run fl whole r' c
        (fun c' =>
           k (Cursor (pos c') (prev c') (rest c')
                ((i, String.substring (pos c) (pos c' - pos c) whole) :: caps c')
                (Some i)))
  end.

Definition cap_lookup (cs : list (nat * string)) (i : nat) : option string :=
  (fun x => snd (snd x)) <$> list_find (fun p => fst p = i) cs.

Definition to_match (ngroups : nat) (whole : string) (c0 c1 : cursor) : rmatch :=
  Match (String.substring (pos c0) (pos c1 - pos c0) whole)
        (map (fun i => cap_lookup (caps c1) (S i)) (seq 0 ngroups))
        (lastgrp c1).

(** Leftmost match at or after the cursor. *)
Fixpoint scan (fl : flags) (whole : string) (r : re) (n : nat) (c : cursor)
    : option (cursor * cursor) :=
  match run fl whole r (Cursor (pos c) (prev c) (rest c) [] None) Some with
  | Some c1 => Some (c, c1)
  | None =>
      match n with
      | O => None
      | S n' => advance c ≫= scan fl whole r n'
      end
  end.

Fixpoint matches_from (fl : flags) (ngroups : nat) (whole : string) (r : re)
    (fuel : nat) (c : cursor) : list rmatch :=
  match fuel with
  | O => []
  | S fuel' =>
      match scan fl whole r (String.length (rest c)) c with
      | None => []
      | Some (c0, c1) =>
          to_match ngroups whole c0 c1 ::
          (if (pos c0 <? pos c1)%nat
           then matches_from fl ngroups whole r fuel' c1
           else from_option (matches_from fl ngroups whole r fuel') [] (advance c1))
      end
  end.

(** [re.compile(pattern, flags)] for a pattern with [ngroups] groups. *)
Definition compile (fl : flags) (ngroups : nat) (r : re) : regex :=
  Regex (fun text =>
    matches_from fl ngroups text r (S (String.length text))
      (Cursor 0 None text [] None)).

End Re.

(* ===================================================================== *)
(** * [fnmatch] *)
(* ===================================================================== *)

Module Fnmatch.

(** [fnmatch.fnmatch(name, pat)] on POSIX, for patterns made of literal
    characters, [*] and [?] (a bracket is matched literally, as [fnmatch]
    does when it opens no character class). *)
Fixpoint glob (pat : list ascii) (name : string) {struct pat} : bool :=
  match pat with
  | [] => bool_decide (name = "")
  | c :: pat' =>
      if Ascii.eqb c "*" then
        (fix star (s : string) : bool :=
           glob pat' s ||
           match s with
           | "" => false
           | String _ s' => star s'
           end) name
      else
        match name with
        | "" => false
        | String a s' => (Ascii.eqb c "?" || Ascii.eqb a c) && glob pat' s'
        end
  end.

Definition fnmatch (name pat : string) : bool :=
  glob (list_ascii_of_string pat) name.

End Fnmatch.

(* ===================================================================== *)
(** * The file system *)
(* ===================================================================== *)

Module FS.
Import PyStr PyPath.

(** A regular file has its text and its modification time; a directory maps
    entry names to nodes.  The working directory is the root node. *)
Inductive node :=
  | File (data : string) (mtime : Z)
  | Dir (entries : gmap string node).

Definition is_dir (n : node) : bool :=
  match n with Dir _ => true | File _ _ => false end.

(** The components a relative path names.  Empty components and [.] are
    skipped as the kernel does; absolute paths and paths through [..] lead
    out of the modelled tree and name nothing. *)
Definition components (p : string) : option (list string) :=
  let cs := split_on slash p in
  if startswith p "/" || bool_decide (".." ∈ cs) then None
  else Some (filter (fun c => c ≠ "" ∧ c ≠ ".") cs).

Fixpoint get (n : node) (p : list string) : option node :=
  match p with
  | [] => Some n
  | x :: p' =>
      match n with
      | File _ _ => None
      | Dir es => es !! x ≫= fun n' => get n' p'
      end
  end.

(** [put mk n p v]: the tree [n] with [v] at [p].  Missing parents are
    created when [mk] is set ([os.makedirs]) and are an error otherwise; a
    file on the way is an error. *)
Fixpoint put (mk : bool) (n : node) (p : list string) (v : node) : option node :=
  match p with
  | [] => Some v
  | x :: p' =>
      match n with
      | File _ _ => None
      | Dir es =>
          match es !! x with
          | Some n' => (fun n'' => Dir (<[x := n'']> es)) <$> put mk n' p' v
          | None =>
              if mk || bool_decide (p' = [])
              then (fun n'' => Dir (<[x := n'']> es)) <$> put mk (Dir ∅) p' v
              else None
          end
      end
  end.

(** [del n p]: the tree without the entry at [p], which must exist. *)
Fixpoint del (n : node) (p : list string) : option node :=
  match p with
  | [] => None
  | x :: p' =>
      match n with
      | File _ _ => None
      | Dir es =>
          match p' with
          | [] => match es !! x with
                  | Some _ => Some (Dir (delete x es))
                  | None => None
                  end
          | _ => es !! x ≫= fun n' =>
                 (fun n'' => Dir (<[x := n'']> es)) <$> del n' p'
          end
      end
  end.

(** ** The calls the tool makes, on path strings *)

Definition lookup (fs : node) (p : string) : option node :=
  components p ≫= get fs.

(** [os.path.exists(p)] *)
Definition exists_ (fs : node) (p : string) : bool :=
  bool_decide (is_Some (lookup fs p)).

(** [os.path.isdir(p)] *)
Definition isdir (fs : node) (p : string) : bool :=
  match lookup fs p with Some (Dir _) => true | _ => false end.

(** [os.listdir(p)], in the order the directory yields its entries. *)
Definition listdir (fs : node) (p : string) : option (list string) :=
  match lookup fs p with
  | Some (Dir es) => Some (map fst (map_to_list es))
  | _ => None
  end.

(** [open(p).read()] *)
Definition read_text (fs : node) (p : string) : option string :=
  match lookup fs p with
  | Some (File d _) => Some d
  | _ => None
  end.

(** [os.path.getmtime(p)] (directories carry no time in the model). *)
Definition getmtime (fs : node) (p : string) : option Z :=
  match lookup fs p with
  | Some (File _ m) => Some m
  | _ => None
  end.

(** [open(p, "w").write(d)] at time [now]. *)
Definition write_text (fs : node) (p : string) (d : string) (now : Z)
    : option node :=
  cs ← components p;
  match get fs cs with
  | Some (Dir _) => None
  | _ => put false fs cs (File d now)
  end.

(** [os.remove(p)] *)
Definition remove (fs : node) (p : string) : option node :=
  cs ← components p;
  match get fs cs with
  | Some (File _ _) => del fs cs
  | _ => None
  end.

(** [shutil.rmtree(p)] *)
Definition rmtree (fs : node) (p : string) : option node :=
  cs ← components p;
  match get fs cs with
  | Some (Dir _) => del fs cs
  | _ => None
  end.

(** [shutil.copytree(src, dst)]: [dst] must not exist, its parents are
    created.  Copying a directory into itself does not end well in Python
    either and is an error here. *)
Definition copytree (fs : node) (src dst : string) : option node :=
  s ← components src;
  d ← components dst;
  match get fs s, get fs d with
  | Some (Dir es), None =>
      if bool_decide (s `prefix_of` d) then None else put true fs d (Dir es)
  | _, _ => None
  end.

(** [shutil.copy2(src, dst)]: content and modification time. *)
Definition copy2 (fs : node) (src dst : string) : option node :=
  s ← components src;
  match get fs s with
  | Some (File data m) =>
      let dst' := if isdir fs dst then join dst (basename src) else dst in
      d ← components dst';
      match get fs d with
      | Some (Dir _) => None
      | _ => put false fs d (File data m)
      end
  | _ => None
  end.

(** [shutil.move(src, dst)]: into [dst] when that is a directory, else
    onto [dst]; a directory is never moved into itself or onto a file. *)
Definition move (fs : node) (src dst : string) : option node :=
  s ← components src;
  n ← get fs s;
  if isdir fs dst && bool_decide (components dst = Some s) then Some fs else
  let real_dst :=
    if isdir fs dst then join dst (basename (rstrip_by (Ascii.eqb slash) src))
    else dst in
  if isdir fs dst && exists_ fs real_dst then None else
  d ← components real_dst;
  if bool_decide (s = d) then Some fs else
  if bool_decide (s `prefix_of` d) then None else
  match get fs d, n with
  | Some (Dir _), _ => None
  | Some (File _ _), Dir _ => None
  | Some (File _ _), File _ _ => del fs s ≫= fun fs1 => put false fs1 d n
  | None, File _ _ => del fs s ≫= fun fs1 => put false fs1 d n
  | None, Dir _ => del fs s ≫= fun fs1 => put true fs1 d n
  end.

(** [os.walk(top, topdown=True)] with the pruning
    [dirs[:] = [d for d in dirs if not excluded d]], flattened to the
    [(dirpath, filename)] pairs the caller's two loops visit, in order. *)
Fixpoint walk_node (excluded : string -> bool) (n : node) (r : string)
    : list (string * string) :=
  match n with
  | File _ _ => []
  | Dir es =>
      let kids := map_to_list ((fun n' => (is_dir n', walk_node excluded n')) <$> es) in
      map (fun kv => (r, fst kv)) (filter (fun kv => fst (snd kv) = false) kids)
      ++ flat_map (fun kv =>
                     if fst (snd kv) && negb (excluded (fst kv))
                     then snd (snd kv) (join r (fst kv))
                     else []) kids
  end.

Definition walk (excluded : string -> bool) (fs : node) (top : string)
    : list (string * string) :=
  match lookup fs top with
  | Some (Dir es) => walk_node excluded (Dir es) top
  | _ => []
  end.

End FS.

(* ===================================================================== *)
(** * The program *)
(* ===================================================================== *)

Import PyStr PyPath.

(** ** Configuration ([DEFAULT_CONFIG] and the globals derived from it) *)

Definition file_extensions_map : list (string * list string) :=
  [ ("javascript", [".js"; ".jsx"; ".mjs"; ".cjs"]);
    ("typescript", [".ts"; ".tsx"]);
    ("python", [".py"]);
    ("java", [".java"]);
    ("csharp", [".cs"]);
    ("cpp", [".c"; ".cpp"; ".cc"; ".cxx"; ".h"; ".hpp"]);
    ("go", [".go"]);
    ("php", [".php"]) ].

(** [PROJECT_ROOT] is the configured root; the start-up fallback to the
    working directory, taken when that directory is missing, is outside
    the model. *)
Definition PROJECT_ROOT : string := "src".
Definition BACKUP_DIR : string := "backup_snapshots".
Definition CACHE_FILE : string := ".cleaner_cache.json".
Definition EXCLUDED_DIRS : gset string :=
  list_to_set ["node_modules"; ".git"; "dist"; "build"; "coverage"; ".next"].
Definition SAFE_MODE : bool := true.
Definition SKIP_PATTERNS : list string := [".d.ts"; ".spec."; ".test.*"].
Definition ALLOW_UNDO_COUNT : nat := 12.
Definition SNAPSHOT_META : string := ".snapshot_meta.json".

(** [EXT_LANG_MAP], filled by the two nested loops over the extension map. *)
Definition EXT_LANG_MAP : gmap string string :=
  fold_left
    (fun m le => fold_left (fun m e => <[e := fst le]> m) (snd le) m)
    file_extensions_map ∅.

(** [CFG["file_extensions_map"][lang]] *)
Definition extensions_of (lang : string) : list string :=
  default [] (snd <$> find (fun le => bool_decide (fst le = lang)) file_extensions_map).

(** ** Language handlers *)

Record LanguageHandler := Handler {
  name : string;
  extensions : list string;
  import_regexes : list Re.regex
}.

(** The specifier [extract_imports] takes from one match: the first
    non-empty capturing group up to [lastindex], or the whole match for a
    pattern without groups; nothing when that is empty. *)
Definition match_specifier (m : Re.rmatch) : option string :=
  let g :=
    if Re.has_lastindex m
    then head (omap (fun i => match Re.group m i with
                              | Some v => if truthy v then Some v else None
                              | None => None
                              end)
                    (seq 1 (default 0%nat (Re.lastindex m))))
    else Some (Re.group0 m) in
  match g with
  | Some v => if truthy v then Some v else None
  | None => None
  end.

Definition extract_imports (h : LanguageHandler) (file_text : string)
    : list string :=
  flat_map (fun rx => omap match_specifier (Re.finditer rx file_text))
           (import_regexes h).

Definition in_set (all_files_set : gset string) (p : string) : bool :=
  bool_decide (p ∈ all_files_set).

(** The probes of one candidate: for every extension, the candidate with
    the extension and the [index] file inside it, normalised. *)
Definition ext_probes (exts : list string) (candidate : string) : list string :=
  flat_map (fun ext =>
              let c_ext := if endswith candidate ext then candidate
                           else candidate +:+ ext in
              let idx := join candidate ("index" +:+ ext) in
              [normpath c_ext; normpath idx]) exts.

Definition resolve_import (h : LanguageHandler) (base_file imp : string)
    (all_files_set : gset string) : option string :=
  let imp := strip imp in
  if negb (truthy imp) then None else
  let imp := strip_quotes imp in
  if startswith imp "." || startswith imp "/" then
    (* relative *)
    let base_dir := dirname base_file in
    let candidate := normpath (join base_dir imp) in
    match find (in_set all_files_set) (ext_probes (extensions h) candidate) with
    | Some p => Some p
    | None =>
        if in_set all_files_set (normpath candidate)
        then Some (normpath candidate) else None
    end
  else
    (* path-like *)
    let pathlike :=
      if contains imp "/"
      then find (in_set all_files_set)
             (ext_probes (extensions h) (normpath (join PROJECT_ROOT imp)))
      else None in
    match pathlike with
    | Some p => Some p
    | None =>
        (* namespace-style (java, csharp) *)
        if contains imp "."
           && (bool_decide (name h = "java") || bool_decide (name h = "csharp"))
        then
          let candidate :=
            normpath (join PROJECT_ROOT (replace_char dot sep imp)) in
          find (in_set all_files_set)
               (map (fun ext => normpath (candidate +:+ ext)) (extensions h))
        else None
    end.

(** ** The compiled import patterns *)

Definition quote_set : list Re.citem := [Re.CChar squote; Re.CChar dquote].
Definition rx_quote : Re.re := Re.CSet false quote_set.
Definition rx_unquoted : Re.re := Re.Plus (Re.CSet true quote_set).
Definition rx_sp : Re.re := Re.CSet false [Re.CSpace].
Definition rx_dotted : Re.re := Re.Plus (Re.CSet false [Re.CWord; Re.CChar dot]).
Definition no_flags : Re.flags := Re.Flags false false.
Definition flag_M : Re.flags := Re.Flags true false.
Definition flag_S : Re.flags := Re.Flags false true.

Fixpoint rx_seq (rs : list Re.re) : Re.re :=
  match rs with
  | [] => Re.Eps
  | [r] => r
  | r :: rs' => Re.Seq r (rx_seq rs')
  end.

(** The quoted specifier shared by most patterns: a quote, group 1, a quote. *)
Definition rx_quoted_spec : list Re.re :=
  [rx_quote; Re.Group 1 rx_unquoted; rx_quote].

Definition JS_IMPORTS : list Re.regex :=
  [ Re.compile no_flags 1
      (rx_seq ([Re.Str "import"; Re.Plus rx_sp; rx_unquoted; Re.Str "from";
                Re.Plus rx_sp] ++ rx_quoted_spec));
    Re.compile no_flags 1
      (rx_seq ([Re.Str "require("; Re.Star true rx_sp] ++ rx_quoted_spec
               ++ [Re.Star true rx_sp; Re.Str ")"]));
    Re.compile no_flags 1
      (rx_seq ([Re.Str "import("; Re.Star true rx_sp] ++ rx_quoted_spec
               ++ [Re.Star true rx_sp; Re.Str ")"])) ].

Definition TS_IMPORTS : list Re.regex := JS_IMPORTS.

Definition PY_IMPORTS : list Re.regex :=
  [ Re.compile flag_M 1
      (rx_seq [Re.Bol; Re.Star true rx_sp; Re.Str "from"; Re.Plus rx_sp;
               Re.Group 1 rx_dotted; Re.Plus rx_sp; Re.Str "import"]);
    Re.compile flag_M 1
      (rx_seq [Re.Bol; Re.Star true rx_sp; Re.Str "import"; Re.Plus rx_sp;
               Re.Group 1 rx_dotted]) ].

Definition CSHARP_IMPORTS : list Re.regex :=
  [ Re.compile flag_M 1
      (rx_seq [Re.Bol; Re.Star true rx_sp; Re.Str "using"; Re.Plus rx_sp;
               Re.Group 1 rx_dotted; Re.Star true rx_sp; Re.Str ";"]) ].

Definition CPP_IMPORTS : list Re.regex :=
  [ Re.compile flag_M 1
      (rx_seq [Re.Bol; Re.Star true rx_sp; Re.Str "#include"; Re.Plus rx_sp;
               Re.CSet false [Re.CChar dquote; Re.CChar "<"];
               Re.Group 1 (Re.Plus (Re.CSet true [Re.CChar dquote; Re.CChar ">"]));
               Re.CSet false [Re.CChar dquote; Re.CChar ">"]]) ].

Definition GO_IMPORTS : list Re.regex :=
  [ Re.compile flag_M 1
      (rx_seq ([Re.Str "import"; Re.Plus rx_sp; Re.Opt (Re.Lit "(");
                Re.Star true rx_sp; rx_quote; Re.Group 1 rx_unquoted; rx_quote]));
    Re.compile flag_S 0
      (rx_seq [Re.WordB; Re.Str "import"; Re.Star true rx_sp; Re.Lit "(";
               Re.Star false Re.AnyChar; Re.Lit ")"]) ].

(** The block pattern [analyze_project] applies to Go files inline. *)
Definition GO_BLOCK : Re.regex :=
  Re.compile flag_S 1
    (rx_seq [Re.Str "import"; Re.Star true rx_sp; Re.Lit "(";
             Re.Group 1 (Re.Star false Re.AnyChar); Re.Lit ")"]).

Definition PHP_IMPORTS : list Re.regex :=
  [ Re.compile no_flags 1
      (rx_seq ([Re.Alt (Re.Str "require_once")
                  (Re.Alt (Re.Str "require")
                     (Re.Alt (Re.Str "include_once") (Re.Str "include")));
                Re.Star true rx_sp; Re.Opt (Re.Lit "("); Re.Star true rx_sp]
               ++ rx_quoted_spec
               ++ [Re.Star true rx_sp; Re.Opt (Re.Lit ")")])) ].

(** ** The world the commands run in *)

(** One entry of the cache file and the cache file as [json.load] returns
    it.  A field is [None] when the key is missing or holds [null]. *)
Record cache_entry := CacheEntry {
  ce_path : option string;
  ce_mtime : option Z
}.

Record cache_json := CacheJson {
  c_root : option string;
  c_files : list cache_entry
}.

(** The cache file: missing, present but not loadable as the object the
    code expects, or loadable. *)
Inductive cache_slot :=
  | NoCache
  | Garbage
  | Cached (c : cache_json).

(** The working directory tree, the cache file beside it (with whether it
    can be written), the absolute path of the working directory, the clock
    that stamps written files, and a ghost counter of the tree walks
    performed so far. *)
Record world := World {
  fs : FS.node;
  cache : cache_slot;
  cache_writable : bool;
  cwd : string;
  clock : Z;
  walks : nat
}.

Definition set_fs (w : world) (t : FS.node) : world :=
  World t (cache w) (cache_writable w) (cwd w) (clock w) (walks w).

(** [os.path.abspath(p)] *)
Definition abspath (w : world) (p : string) : string :=
  normpath (join (cwd w) p).

(** What the user answers when a command asks for confirmation: yes, no,
    or one of the exit words, on which the process ends at once. *)
Inductive answer := Yes | No | Quit.

#[global] Instance answer_eq_dec : EqDecision answer.
Proof. solve_decision. Defined.

Section Program.

(** The pattern text of [JAVA_IMPORTS] is not a well-formed pattern as it
    stands in the source, so its compiled form is a parameter. *)
Variable JAVA_IMPORTS : list Re.regex.

Definition LANG_HANDLERS : gmap string LanguageHandler :=
  <["php" := Handler "php" (extensions_of "php") PHP_IMPORTS]>
  (<["go" := Handler "go" (extensions_of "go") GO_IMPORTS]>
  (<["cpp" := Handler "cpp" (extensions_of "cpp") CPP_IMPORTS]>
  (<["csharp" := Handler "csharp" (extensions_of "csharp") CSHARP_IMPORTS]>
  (<["java" := Handler "java" (extensions_of "java") JAVA_IMPORTS]>
  (<["python" := Handler "python" (extensions_of "python") PY_IMPORTS]>
  (<["typescript" := Handler "typescript" (extensions_of "typescript") TS_IMPORTS]>
  (<["javascript" := Handler "javascript" (extensions_of "javascript") JS_IMPORTS]>
   ∅))))))).

Definition detect_language_for_file (path : string) : option string :=
  EXT_LANG_MAP !! splitext_ext path.

(** A language name used as a condition ([if not lang: continue]). *)
Definition lang_of (path : string) : option string :=
  match detect_language_for_file path with
  | Some l => if truthy l then Some l else None
  | None => None
  end.

(** ** Scanner and cache *)

(** One cached entry passes when its path is non-empty, exists, and has
    the recorded modification time. *)
Definition entry_ok (w : world) (e : cache_entry) : bool :=
  match ce_path e with
  | Some p =>
      truthy p && FS.exists_ (fs w) p
      && bool_decide (FS.getmtime (fs w) p = ce_mtime e ∧ is_Some (ce_mtime e))
  | None => false
  end.

(** The [try] block of [build_file_list]: the cached list when the cache
    file exists, loads, records this root and passes entry by entry. *)
Definition cached_file_list (w : world) (root : string) : option (list string) :=
  match cache w with
  | Cached c =>
      if bool_decide (c_root c = Some (abspath w root))
         && forallb (entry_ok w) (c_files c)
      then Some (map (fun e => default "" (ce_path e)) (c_files c))
      else None
  | _ => None
  end.

Definition skip_name (fname : string) : bool :=
  existsb (Fnmatch.fnmatch fname) SKIP_PATTERNS.

Definition excluded_dir (d : string) : bool := bool_decide (d ∈ EXCLUDED_DIRS).

(** The walk of [build_file_list]. *)
Definition scan_tree (t : FS.node) (root : string) : list string :=
  omap (fun rn =>
          if skip_name (snd rn) then None
          else if bool_decide (is_Some (EXT_LANG_MAP !! splitext_ext (snd rn)))
               then Some (normpath (join (fst rn) (snd rn)))
               else None)
       (FS.walk excluded_dir t root).

(** The cache written after a walk. *)
Definition cache_of_scan (w : world) (root : string) (files : list string)
    : cache_json :=
  CacheJson (Some (abspath w root))
    (map (fun p => CacheEntry (Some p) (Some (default 0%Z (FS.getmtime (fs w) p))))
         files).

Definition build_file_list (root : string) (use_cache : bool) (w : world)
    : list string * world :=
  match (if use_cache then cached_file_list w root else None) with
  | Some files => (files, w)
  | None =>
      let files := scan_tree (fs w) root in
      let slot := if cache_writable w then Cached (cache_of_scan w root files)
                  else cache w in
      (files, World (fs w) slot (cache_writable w) (cwd w) (clock w) (S (walks w)))
  end.

(** ** The dependency graph *)

Definition graph : Type := gmap string (gset string) * gmap string (gset string).

(** [referenced_by[target].add(f); imports_of[f].add(target)]; a missing
    key is a [KeyError]. *)
Definition add_edge (f target : string) (g : graph) : option graph :=
  s ← fst g !! target;
  t ← snd g !! f;
  Some (<[target := s ∪ {[f]}]> (fst g), <[f := t ∪ {[target]}]> (snd g)).

(** A loop whose body may raise: the first exception ends it. *)
Fixpoint ofold {A B : Type} (step : B -> A -> option B) (l : list A) (b : B)
    : option B :=
  match l with
  | [] => Some b
  | x :: l' => step b x ≫= ofold step l'
  end.

(** The specifiers of a Go file: the lines of every import block, then
    group 1 of every match of the handler's patterns.  A block match
    without group 1 would raise. *)
Definition go_imports (h : LanguageHandler) (text : string)
    : option (list string) :=
  blocks ← mapM (fun m => Re.group m 1) (Re.finditer GO_BLOCK text);
  Some (flat_map (fun block =>
                    filter (fun s => truthy s = true)
                      (map (fun line => strip_dquote (strip line)) (splitlines block)))
                 blocks
        ++ flat_map (fun rx =>
                       omap (fun m => if Re.has_lastindex m
                                      then match Re.group m 1 with
                                           | Some g => if truthy g then Some g else None
                                           | None => None
                                           end
                                      else None)
                            (Re.finditer rx text))
                    (import_regexes h))%list.

Definition imports_in (h : LanguageHandler) (lang text : string)
    : option (list string) :=
  if bool_decide (lang = "go") then go_imports h text
  else Some (extract_imports h text).

(** The innermost loop of [analyze_project]: one specifier of file [f]. *)
Definition add_import (h : LanguageHandler) (all_files_set : gset string)
    (f : string) (g : graph) (imp : string) : option graph :=
  match resolve_import h f imp all_files_set with
  | Some target => if truthy target then add_edge f target g else Some g
  | None => Some g
  end.

(** The body of the loop over [all_files]. *)
Definition analyze_file (t : FS.node) (all_files_set : gset string)
    (g : graph) (f : string) : option graph :=
  match lang_of f with
  | None => Some g
  | Some lang =>
      match LANG_HANDLERS !! lang with
      | None => Some g
      | Some handler =>
          match FS.read_text t f with
          | None => Some g
          | Some text =>
              imps ← imports_in handler lang text;
              ofold (add_import handler all_files_set f) imps g
          end
      end
  end.

(** [{f: set() for f in all_files}] *)
Definition empty_adjacency (all_files : list string) : gmap string (gset string) :=
  gset_to_gmap ∅ (list_to_set all_files).

Definition build_graph (t : FS.node) (all_files : list string) : option graph :=
  ofold (analyze_file t (list_to_set all_files)) all_files
        (empty_adjacency all_files, empty_adjacency all_files).

(** [analyze_project] returns [(all_files, referenced_by, imports_of)]. *)
Definition analyze_project (root : string) (use_cache : bool) (w : world)
    : option (list string * graph) * world :=
  let fw := build_file_list root use_cache w in
  ((fun g => (fst fw, g)) <$> build_graph (fs (snd fw)) (fst fw), snd fw).

(** ** Dead files *)

Definition backslash : ascii := "\"%char.

(** The body of the loop of [detect_dead_files]: is [f] appended? *)
Definition dead_file (referenced_by : gmap string (gset string)) (f : string)
    : bool :=
  let refs := referenced_by !! f in
  if bool_decide (is_Some refs ∧ refs ≠ Some ∅) then false else
  let path_norm := lower (replace_char backslash "/" f) in
  let base := lower (basename f) in
  if contains path_norm "/pages/" || contains path_norm "/routes/" then false else
  if startswith base "index." then false else
  if bool_decide (base ∈ ["app.py"; "main.py"; "index.js"; "index.ts"; "server.js"])
  then false else
  let lang := detect_language_for_file f in
  if bool_decide (lang = Some "java")
     && (contains path_norm "/src/main/" || contains path_norm "/src/")
  then false else true.

Definition detect_dead_files (all_files : list string)
    (referenced_by : gmap string (gset string)) : list string :=
  sorted (filter (fun f => dead_file referenced_by f = true) all_files).

(** ** Broken imports *)

(** The test on an unresolved specifier. *)
Definition looks_local (lang imp : string) : bool :=
  startswith imp "." || contains imp "/"
  || (contains imp "."
      && (bool_decide (lang = "java") || bool_decide (lang = "csharp"))).

(** The body of the loop of [detect_broken_imports] for one file; [None]
    is the exception of calling a method on a missing handler. *)
Definition broken_in (t : FS.node) (all_set : gset string) (src : string)
    : option (list (string * string)) :=
  match lang_of src with
  | None => Some []
  | Some lang =>
      match FS.read_text t src with
      | None => Some []
      | Some text =>
          handler ← LANG_HANDLERS !! lang;
          Some (omap (fun imp =>
                        if truthy imp
                           && bool_decide (resolve_import handler src imp all_set = None)
                           && looks_local lang imp
                        then Some (src, imp) else None)
                     (extract_imports handler text))
      end
  end.

Definition detect_broken_imports (use_cache : bool) (w : world)
    : option (list (string * string)) * world :=
  let aw := analyze_project PROJECT_ROOT use_cache w in
  (fst aw ≫= fun r =>
     @List.concat _ <$> mapM (broken_in (fs (snd aw)) (list_to_set (fst r))) (fst r),
   snd aw).

(** ** Snapshots and undo *)

(** The text [json.dump] writes for the snapshot metadata (the escaping
    of special characters in the label is not modelled). *)
Definition json_meta (label ts : string) : string :=
  let q := String dquote "" in
  "{" +:+ q +:+ "label" +:+ q +:+ ": " +:+ q +:+ label +:+ q +:+ ", "
  +:+ q +:+ "timestamp" +:+ q +:+ ": " +:+ q +:+ ts +:+ q +:+ "}".

(** [f"{ts}{label}".replace(" ", "")] *)
Definition snapshot_name (ts label : string) : string :=
  replace_char " "%char "" (ts +:+ label).

Definition list_snapshots (t : FS.node) : list string :=
  match FS.listdir t BACKUP_DIR with
  | None => []
  | Some ds =>
      filter (fun p => FS.isdir t p = true)
             (sorted_rev (map (join BACKUP_DIR) ds))
  end.

(** [try: shutil.rmtree(p) except Exception: pass] *)
Definition try_rmtree (t : FS.node) (p : string) : FS.node :=
  default t (FS.rmtree t p).

Definition trim_snapshots (t : FS.node) : FS.node :=
  let snaps := list_snapshots t in
  if (length snaps <=? ALLOW_UNDO_COUNT)%nat then t
  else fold_left try_rmtree (drop ALLOW_UNDO_COUNT snaps) t.

(** [create_snapshot(label)] when [now_ts()] reads [ts]: the path of the
    snapshot, or the empty string when an exception was caught. *)
Definition create_snapshot (ts label : string) (w : world) : string * world :=
  let dest := join BACKUP_DIR (snapshot_name ts label) in
  match FS.copytree (fs w) PROJECT_ROOT dest with
  | None => ("", w)
  | Some t1 =>
      match FS.write_text t1 (join dest SNAPSHOT_META) (json_meta label ts) (clock w) with
      | None => ("", set_fs w t1)
      | Some t2 => (dest, set_fs w (trim_snapshots t2))
      end
  end.

(** The first loop of [undo_last]: every entry of the project root is
    removed, failures are passed over. *)
Definition clear_entry (t : FS.node) (entry : string) : FS.node :=
  let path := join PROJECT_ROOT entry in
  default t (if FS.isdir t path then FS.rmtree t path else FS.remove t path).

(** The second loop of [undo_last]: the first failing copy ends it. *)
Fixpoint restore_items (last : string) (items : list string) (t : FS.node)
    : bool * FS.node :=
  match items with
  | [] => (true, t)
  | item :: items' =>
      if bool_decide (item = SNAPSHOT_META) then restore_items last items' t
      else
        let s := join last item in
        let d := join PROJECT_ROOT item in
        match (if FS.isdir t s then FS.copytree t s d else FS.copy2 t s d) with
        | Some t' => restore_items last items' t'
        | None => (false, t)
        end
  end.

Definition undo_last (w : world) : bool * world :=
  match list_snapshots (fs w) with
  | [] => (false, w)
  | last :: _ =>
      match FS.listdir (fs w) PROJECT_ROOT with
      | None => (false, w)
      | Some entries =>
          let t1 := fold_left clear_entry entries (fs w) in
          match FS.listdir t1 last with
          | None => (false, set_fs w t1)
          | Some items =>
              let r := restore_items last items t1 in
              (fst r, set_fs w (snd r))
          end
      end
  end.

(** ** The mutating commands *)

(** [if SAFE_MODE and not assume_yes: if not ask_yes_no(...): return]:
    does the command go on?  On an exit word the process ends, which
    leaves the world as a refusal does. *)
Definition confirmed (assume_yes : bool) (ans : answer) : bool :=
  if SAFE_MODE && negb assume_yes
  then match ans with Yes => true | _ => false end
  else true.

(** [m.group(1) if m.lastindex and m.lastindex >= 1 else None] *)
Definition group1 (m : Re.rmatch) : option string :=
  if Re.has_lastindex m then Re.group m 1 else None.

(** The handler the second pass of a command looks up for a previewed
    file.  A previewed file always has one. *)
Definition handler_for (f : string) : option LanguageHandler :=
  detect_language_for_file f ≫= fun lang => LANG_HANDLERS !! lang.

(** *** comment-imports *)

(** The specifier the preview of [comment_imports] looks at: group 1, or
    the whole match when that is missing or empty. *)
Definition comment_imp (m : Re.rmatch) : string :=
  match group1 m with
  | Some v => if truthy v then v else Re.group0 m
  | None => Re.group0 m
  end.

Definition comment_preview_line (h : LanguageHandler) (target_folder line : string)
    : bool :=
  existsb (fun rx =>
             match Re.search rx line with
             | Some m => contains (replace_char backslash "/" (comment_imp m)) target_folder
             | None => false
             end)
          (import_regexes h).

Definition comment_preview_file (t : FS.node) (target_folder f : string) : bool :=
  match lang_of f with
  | None => false
  | Some lang =>
      match LANG_HANDLERS !! lang with
      | None => false
      | Some handler =>
          match FS.read_text t f with
          | None => false
          | Some text =>
              existsb (comment_preview_line handler target_folder) (readlines text)
          end
      end
  end.

(** The test of the second pass on one line. *)
Definition comment_hit (h : LanguageHandler) (target_folder line : string) : bool :=
  existsb (fun rx => bool_decide (is_Some (Re.search rx line))) (import_regexes h)
  && contains line target_folder.

Definition commented (lang : option string) (line : string) : string :=
  if bool_decide (lang = Some "python")
  then "# " +:+ rstrip_nl line +:+ "  # removido pelo script" +:+ String newline ""
  else "// " +:+ rstrip_nl line +:+ " // removido pelo script" +:+ String newline "".

Definition comment_lines (h : LanguageHandler) (lang : option string)
    (target_folder : string) (lines : list string) : list string :=
  map (fun line => if comment_hit h target_folder line then commented lang line
                   else line) lines.

(** The second pass on one previewed file. *)
Definition comment_file (target_folder : string) (now : Z) (t : FS.node)
    (f : string) : FS.node :=
  match FS.read_text t f, handler_for f with
  | Some text, Some handler =>
      let lines := readlines text in
      if existsb (comment_hit handler target_folder) lines
      then default t
             (FS.write_text t f
                (writelines (comment_lines handler (detect_language_for_file f)
                               target_folder lines)) now)
      else t
  | _, _ => t
  end.

(** [comment_imports]: the preview shown and the world left. *)
Definition comment_imports (target_folder : string) (dry_run assume_yes : bool)
    (ans : answer) (ts : string) (w : world) : list string * world :=
  let fw := build_file_list PROJECT_ROOT true w in
  let preview :=
    filter (fun f => comment_preview_file (fs (snd fw)) target_folder f = true)
           (fst fw) in
  if dry_run then (preview, snd fw)
  else if negb (confirmed assume_yes ans) then (preview, snd fw)
  else
    let w2 := snd (create_snapshot ts ("comment_imports_" +:+ target_folder) (snd fw)) in
    (preview, set_fs w2 (fold_left (comment_file target_folder (clock w2)) preview (fs w2))).

(** *** remove-imports *)

(** [imp and target_folder in imp] for the specifier of a match. *)
Definition points_into (target_folder : string) (m : Re.rmatch) : bool :=
  match group1 m with
  | Some imp => truthy imp && contains imp target_folder
  | None => false
  end.

Definition remove_preview_file (t : FS.node) (target_folder f : string) : bool :=
  match lang_of f with
  | None => false
  | Some lang =>
      match FS.read_text t f, LANG_HANDLERS !! lang with
      | Some text, Some handler =>
          existsb (fun rx => existsb (points_into target_folder) (Re.finditer rx text))
                  (import_regexes handler)
      | _, _ => false
      end
  end.

(** Is the line dropped by the second pass? *)
Definition remove_hit (h : LanguageHandler) (target_folder line : string) : bool :=
  existsb (fun rx =>
             match Re.search rx line with
             | Some m => points_into target_folder m
             | None => false
             end)
          (import_regexes h).

Definition remove_file (target_folder : string) (now : Z) (t : FS.node)
    (f : string) : FS.node :=
  match FS.read_text t f, handler_for f with
  | Some text, Some handler =>
      let lines := readlines text in
      if existsb (remove_hit handler target_folder) lines
      then default t
             (FS.write_text t f
                (writelines (filter (fun line => remove_hit handler target_folder line = false)
                               lines)) now)
      else t
  | _, _ => t
  end.

Definition remove_imports (target_folder : string) (dry_run assume_yes : bool)
    (ans : answer) (ts : string) (w : world) : list string * world :=
  let fw := build_file_list PROJECT_ROOT true w in
  let preview :=
    filter (fun f => remove_preview_file (fs (snd fw)) target_folder f = true)
           (fst fw) in
  if dry_run then (preview, snd fw)
  else if negb (confirmed assume_yes ans) then (preview, snd fw)
  else
    let w2 := snd (create_snapshot ts ("remove_imports_" +:+ target_folder) (snd fw)) in
    (preview, set_fs w2 (fold_left (remove_file target_folder (clock w2)) preview (fs w2))).

(** *** remove-folder *)


(** *** dead files *)

(** [try: os.remove(f) except Exception: log] *)
Definition try_remove (t : FS.node) (f : string) : FS.node :=
  default t (FS.remove t f).

(** The files picked for deletion, or [None] when the user typed an exit
    word at one of the prompts. *)
Definition pick_dead (assume_yes : bool) (answers : string -> answer)
    (dead : list string) : option (list string) :=
  if SAFE_MODE && negb assume_yes
  then if existsb (fun f => match answers f with Quit => true | _ => false end) dead
       then None
       else Some (filter (fun f => answers f = Yes) dead)
  else Some dead.

(** [detect_and_handle_dead]: the dead files shown and the world left;
    no list when the analysis raised. *)
Definition detect_and_handle_dead (dry_run assume_yes : bool)
    (answers : string -> answer) (use_cache : bool) (ts : string) (w : world)
    : option (list string) * world :=
  let aw := analyze_project PROJECT_ROOT use_cache w in
  match fst aw with
  | None => (None, snd aw)
  | Some r =>
      let dead := detect_dead_files (fst r) (fst (snd r)) in
      if bool_decide (dead = []) || dry_run then (Some dead, snd aw)
      else
        match pick_dead assume_yes answers dead with
        | None | Some [] => (Some dead, snd aw)
        | Some to_delete =>
            let w2 := snd (create_snapshot ts "delete_dead_files" (snd aw)) in
            (Some dead, set_fs w2 (fold_left try_remove to_delete (fs w2)))
        end
  end.

(** *** move *)

(** [os.path.relpath(path, start)] *)
Definition relpath (w : world) (path start : string) : string :=
  let parts p := filter (fun x => truthy x = true) (split_on slash (abspath w p)) in
  let start_list := parts start in
  let path_list := parts path in
  let i := length (max_prefix start_list path_list).2 in
  let rel_list := (replicate (length start_list - i) ".." ++ drop i path_list)%list in
  match rel_list with
  | [] => "."
  | x :: xs => fold_left join xs x
  end.

Definition move_affected_file (t : FS.node) (all_set : gset string)
    (abs_src f : string) : bool :=
  match lang_of f with
  | None => false
  | Some lang =>
      match FS.read_text t f, LANG_HANDLERS !! lang with
      | Some txt, Some handler =>
          existsb (fun imp =>
                     match resolve_import handler f imp all_set with
                     | Some target =>
                         truthy target
                         && (bool_decide (target = abs_src)
                             || startswith target (abs_src +:+ sep))
                     | None => false
                     end)
                  (extract_imports handler txt)
      | _, _ => false
      end
  end.

(** The rewriting of one affected file; a failure is logged and passed
    over. *)
Definition fix_file (old_rel new_rel : string) (now : Z) (t : FS.node)
    (f : string) : FS.node :=
  match FS.read_text t f with
  | Some txt => default t (FS.write_text t f (replace old_rel new_rel txt) now)
  | None => t
  end.

Definition move_and_fix (src_rel dest_rel : string) (dry_run assume_yes : bool)
    (ans : answer) (ts : string) (w : world) : list string * world :=
  let abs_src := normpath (join PROJECT_ROOT src_rel) in
  let abs_dest := normpath (join PROJECT_ROOT dest_rel) in
  if negb (FS.exists_ (fs w) abs_src) then ([], w) else
  let fw := build_file_list PROJECT_ROOT true w in
  let all_set : gset string := list_to_set (fst fw) in
  let affected : gset string :=
    list_to_set (filter (fun f => move_affected_file (fs (snd fw)) all_set abs_src f = true)
                        (fst fw)) in
  let preview := sorted (elements affected) in
  if dry_run then (preview, snd fw)
  else if negb (confirmed assume_yes ans) then (preview, snd fw)
  else
    let w2 := snd (create_snapshot ts ("move_" +:+ basename src_rel) (snd fw)) in
    match FS.move (fs w2) abs_src abs_dest with
    | None => (preview, w2)
    | Some t3 =>
        let old_rel := replace_char backslash "/" (relpath w2 abs_src PROJECT_ROOT) in
        let new_rel := replace_char backslash "/" (relpath w2 abs_dest PROJECT_ROOT) in
        (preview, set_fs w2 (fold_left (fix_file old_rel new_rel (clock w2)) preview t3))
    end.

End Program.

(* ===================================================================== *)
(** * Vocabulary of the properties *)
(* ===================================================================== *)

(** The characters [fnmatch] treats specially in the patterns at hand. *)
Definition wildcard (c : ascii) : bool := Ascii.eqb c "*" || Ascii.eqb c "?".

(** The words of the dead-file rule. *)
Definition no_incoming (referenced_by : gmap string (gset string)) (f : string)
    : Prop :=
  referenced_by !! f = None \/ referenced_by !! f = Some ∅.

(** The path as the rule looks at it: separators unified, lower case. *)
Definition path_norm (f : string) : string :=
  lower (replace_char backslash "/" f).

Definition in_route_dir (f : string) : Prop :=
  contains (path_norm f) "/pages/" = true \/ contains (path_norm f) "/routes/" = true.

Definition index_named (f : string) : Prop :=
  startswith (lower (basename f)) "index." = true.

Definition entry_point_names : list string :=
  ["app.py"; "main.py"; "index.js"; "index.ts"; "server.js"].

Definition entry_named (f : string) : Prop :=
  lower (basename f) ∈ entry_point_names.

(** The source-root segments of the namespace language the rule exempts. *)
Definition in_source_root (f : string) : Prop :=
  contains (path_norm f) "/src/main/" = true \/ contains (path_norm f) "/src/" = true.

(** Does every match of the pattern go through capturing group [i]? *)
Fixpoint binds (i : nat) (r : Re.re) : bool :=
  match r with
  | Re.Group j r' => (i =? j)%nat || binds i r'
  | Re.Seq r1 r2 => binds i r1 || binds i r2
  | Re.Alt r1 r2 => binds i r1 && binds i r2
  | _ => false
  end.

(** The cursor has captured group [i]. *)
Definition has_cap (i : nat) (c : Re.cursor) : Prop :=
  is_Some (Re.cap_lookup (Re.caps c) i).

(** The invariant of the two adjacency maps over the node set [S]: both
    have exactly the nodes as keys, every value holds nodes only, and each
    map is the transpose of the other. *)
Definition graph_ok (S : gset string) (g : graph) : Prop :=
  dom (fst g) = S /\ dom (snd g) = S /\
  (forall f s, snd g !! f = Some s -> s ⊆ S) /\
  (forall f s, fst g !! f = Some s -> s ⊆ S) /\
  (forall f f' sf sf', snd g !! f = Some sf -> fst g !! f' = Some sf' ->
     (f' ∈ sf <-> f ∈ sf')).

(** A specifier that looks like a reference into the project, in a file of
    language [lang]. *)
Definition path_like (lang imp : string) : Prop :=
  startswith imp "." = true \/ contains imp "/" = true
  \/ (contains imp "." = true /\ (lang = "java" \/ lang = "csharp")).

(** Two lists hold the same files. *)
Definition same_files (l1 l2 : list string) : Prop :=
  forall f, f ∈ l1 <-> f ∈ l2.

(** A project with one source file, scanned once, to which a second file
    is added afterwards. *)
Definition one_file_tree : FS.node :=
  FS.Dir {[ "src" := FS.Dir {[ "a.js" := FS.File "" 1 ]} ]}.

Definition two_file_tree : FS.node :=
  FS.Dir {[ "src" := FS.Dir {[ "a.js" := FS.File "" 1; "b.js" := FS.File "" 2 ]} ]}.

Definition scanned_once : world :=
  snd (build_file_list PROJECT_ROOT true
         (World one_file_tree NoCache true "/home/dev/project" 10 0)).

Definition file_added : world := set_fs scanned_once two_file_tree.

(** ** Well-formed names and the two directories of the tool *)

(** A name without a separator. *)
Fixpoint no_slash (s : string) : bool :=
  match s with
  | "" => true
  | String a s' => negb (Ascii.eqb a slash) && no_slash s'
  end.

(** A name a directory entry can bear: no separator, not empty, neither
    [.] nor [..]. *)
Definition plain (s : string) : bool :=
  no_slash s && negb (bool_decide (s ∈ [""; "."; ".."])).

(** Every entry of the directory has such a name. *)
Definition plain_keys (m : gmap string FS.node) : Prop :=
  forall k, is_Some (m !! k) -> plain k = true.

(** The working directory holding the project root with entries [P], the
    backup directory with entries [S], and whatever else [top] holds.  The
    start-up code of the module creates the backup directory. *)
Definition mk_tree (top P S : gmap string FS.node) : FS.node :=
  FS.Dir (<[PROJECT_ROOT := FS.Dir P]> (<[BACKUP_DIR := FS.Dir S]> top)).

(** Is entry [d] of the directory a directory? *)
Definition dir_key (S : gmap string FS.node) (d : string) : bool :=
  match S !! d with
  | Some (FS.Dir _) => true
  | _ => false
  end.

(** The snapshot directories of a backup directory with entries [S], by
    name, greatest first. *)
Definition snapshot_dirs (S : gmap string FS.node) : list string :=
  filter (fun d => dir_key S d = true) (sorted_rev (map fst (map_to_list S))).

(** [a] is strictly before [b] in the order of the strings. *)
Definition str_lt (a b : string) : Prop := String.ltb a b = true.

(** A sequence of [create_snapshot] calls, each with the time stamp
    [now_ts()] reads and its label: the values returned and the world left. *)
Fixpoint run_snapshots (calls : list (string * string)) (w : world)
    : list string * world :=
  match calls with
  | [] => ([], w)
  | c :: rest =>
      let r := create_snapshot (fst c) (snd c) w in
      let rr := run_snapshots rest (snd r) in
      (fst r :: fst rr, snd rr)
  end.

(** Twelve snapshots taken a second apart and a thirteenth taken after the
    clock was set back (the end of daylight saving time, say). *)
Definition twelve_calls : list (string * string) :=
  map (fun s => ("20261101_0130" +:+ s, "x"))
      ["00"; "01"; "02"; "03"; "04"; "05"; "06"; "07"; "08"; "09"; "10"; "11"].

Definition clock_set_back : list (string * string) :=
  (twelve_calls ++ [("20261101_010500", "x")])%list.

Definition small_project : world :=
  World (mk_tree ∅ {[ "a.js" := FS.File "one" 1 ]} ∅) NoCache true
        "/home/dev/project" 10 0.

#[global] Instance str_lt_dec : RelDecision str_lt.
Proof. intros a b. unfold str_lt. apply _. Defined.

(** The directory name of a call. *)
Definition call_name (c : string * string) : string :=
  snapshot_name (fst c) (snd c).

(** Thirteen snapshots taken a second apart. *)
Definition thirteen_calls : list (string * string) :=
  (twelve_calls ++ [("20261101_013012", "x")])%list.

(** The listing after each creation: the new name in front, cut to the
    retention count. *)
Definition retain (L : list string) (n : string) : list string :=
  take ALLOW_UNDO_COUNT (n :: L).

(** The entry [restore_items] copies back for one item of the snapshot
    with entries [Q]. *)
Definition restored (Q : gmap string FS.node) (Pc : gmap string FS.node)
    (item : string) : gmap string FS.node :=
  if bool_decide (item = SNAPSHOT_META) then Pc
  else match Q !! item with
       | Some n => <[item := n]> Pc
       | None => Pc
       end.

(** A project changed since a snapshot taken in the same second under a
    label that sorts higher. *)
Definition same_second_world : world :=
  World (mk_tree ∅ {[ "a.js" := FS.File "new" 2 ]}
           {[ "20260101_120000remove_imports_legacy" :=
                FS.Dir {[ "a.js" := FS.File "old" 1;
                          SNAPSHOT_META := FS.File "{}" 1 ]} ]})
        NoCache true "/home/dev/project" 10 0.

(** A project with a folder to remove, in a backup directory that already
    holds a directory of the name the snapshot is about to take. *)
Definition name_taken_world : world :=
  World (mk_tree ∅
           {[ "main.js" := FS.File "import x from './legacy/old'" 1;
              "legacy" := FS.Dir {[ "old.js" := FS.File "export default 1" 1 ]} ]}
           {[ "20260101_120000remove_folder_legacy" := FS.Dir ∅ ]})
        NoCache true "/home/dev/project" 10 0.

(** The text of the regular file at a path of components, if there is
    one. *)
Definition file_at (t : FS.node) (p : list string) : option string :=
  match FS.get t p with
  | Some (FS.File d _) => Some d
  | _ => None
  end.

(** A JavaScript file with an import from the folder [legacy] and an
    import of a name that merely contains the word. *)
Definition two_imports : string :=
  "import X from './legacy/b'" +:+ String newline ""
  +:+ "import legacyThing from './utils'" +:+ String newline "".

Definition two_imports_world : world :=
  World (mk_tree ∅ {[ "a.js" := FS.File two_imports 1 ]} ∅) NoCache true
        "/home/dev/project" 10 0.

(** ** Further code and vocabulary *)

(** ** Prompts *)

Definition EXIT_WORDS : gset string := list_to_set ["exit"; "sair"; "quit"; "q"].

(** [safe_input(prompt)] on the line the user types, [None] standing for
    the end of the input: the stripped line, or [None] when the process
    exits. *)
Definition safe_input (line : option string) : option string :=
  match line with
  | None => None
  | Some s =>
      let stripped := strip s in
      if bool_decide (lower stripped ∈ EXIT_WORDS) then None else Some stripped
  end.

(** [ask_yes_no(prompt, default, assume_yes)]: the answer, or [None] when
    the process exits at the prompt. *)
Definition ask_yes_no (default assume_yes : bool) (line : option string)
    : option bool :=
  if assume_yes then Some true
  else
    ans ← safe_input line;
    if bool_decide (ans = "") then Some default
    else Some (startswith (lower (strip ans)) "s").

(** The answer of the user at a confirmation prompt of a command, which
    calls [ask_yes_no] with the default [False]. *)
Definition answer_of (line : option string) : answer :=
  match ask_yes_no false false line with
  | None => Quit
  | Some true => Yes
  | Some false => No
  end.

(** File [f] of the tree [t] holds a specifier that [analyze_project]
    reads and the resolver maps to [g] among the files [known]. *)
Definition resolves_to (J : list Re.regex) (t : FS.node) (known : gset string)
    (f g : string) : Prop :=
  exists lang h text imps imp,
    lang_of f = Some lang /\ LANG_HANDLERS J !! lang = Some h /\
    FS.read_text t f = Some text /\ imports_in h lang text = Some imps /\
    imp ∈ imps /\ resolve_import h f imp known = Some g.

(** The number of nodes of a tree. *)
Fixpoint node_size (n : FS.node) : nat :=
  match n with
  | FS.File _ _ => 1
  | FS.Dir es => S (map_fold (fun _ n' acc => node_size n' + acc) 0 es)
  end.

(** Every entry of every directory of the tree has a name a directory
    entry can bear. *)
Definition plain_names (t : FS.node) : Prop :=
  forall p es k, FS.get t p = Some (FS.Dir es) -> is_Some (es !! k) -> plain k = true.

(** A text without a newline. *)
Fixpoint no_newline (s : string) : bool :=
  match s with
  | "" => true
  | String a s' => negb (Ascii.eqb a newline) && no_newline s'
  end.

(** A line as [readlines] yields it: ended by its only newline, or without
    a newline and not empty. *)
Definition complete_line (s : string) : Prop :=
  exists body, s = body +:+ String newline "" /\ no_newline body = true.

Definition partial_line (s : string) : Prop :=
  s <> "" /\ no_newline s = true.

(** The lines of a text: every line is complete, but the last may be
    partial. *)
Fixpoint text_lines (l : list string) : Prop :=
  match l with
  | [] => True
  | x :: l' => (complete_line x \/ (partial_line x /\ l' = [])) /\ text_lines l'
  end.

(** ** What a pattern can capture *)

Definition all_ascii : list ascii := map ascii_of_nat (seq 0 256).

(** The pattern consumes characters of the class [cls] only. *)
Fixpoint only (cls : ascii -> bool) (r : Re.re) : bool :=
  match r with
  | Re.Eps | Re.Bol | Re.WordB => true
  | Re.Lit a => cls a
  | Re.CSet neg items =>
      forallb (fun b => implb (xorb neg (existsb (fun it => Re.citem_match it b) items))
                              (cls b)) all_ascii
  | Re.AnyChar => forallb cls all_ascii
  | Re.Seq r1 r2 | Re.Alt r1 r2 => only cls r1 && only cls r2
  | Re.Star _ r' | Re.Group _ r' => only cls r'
  end.

(** The groups of the pattern are numbered from one, and group [i]
    consumes characters of the class only. *)
Fixpoint guards (cls : ascii -> bool) (i : nat) (r : Re.re) : bool :=
  match r with
  | Re.Seq r1 r2 | Re.Alt r1 r2 => guards cls i r1 && guards cls i r2
  | Re.Star _ r' => guards cls i r'
  | Re.Group j r' =>
      (1 <=? j)%nat && (if (i =? j)%nat then only cls r' else true) && guards cls i r'
  | _ => true
  end.

(** The cursor is at its position in the text. *)
Definition consistent (whole : string) (c : Re.cursor) : Prop :=
  exists pre, whole = pre +:+ Re.rest c /\ String.length pre = Re.pos c.

(** Every capture of group [i] made so far is of the class. *)
Definition caps_ok (cls : ascii -> bool) (i : nat) (c : Re.cursor) : Prop :=
  forall v, (i, v) ∈ Re.caps c -> all_chars cls v = true.

(** A group was closed. *)
Definition has_last (c : Re.cursor) : Prop :=
  match Re.lastgrp c with Some (S _) => True | _ => False end.

(** The characters of a Python module path. *)
Definition dotted_char (a : ascii) : bool := Re.is_word a || Ascii.eqb a dot.

(** What a successful run of the pattern [r] from [c] hands to its
    continuation at [c']. *)
Definition run_post (cls : ascii -> bool) (i : nat) (whole : string) (r : Re.re)
    (c c' : Re.cursor) : Prop :=
  consistent whole c' /\ caps_ok cls i c' /\
  (has_last c \/ binds i r = true -> has_last c') /\
  (only cls r = true ->
   exists w, Re.rest c = w +:+ Re.rest c' /\ all_chars cls w = true /\
             Re.pos c' = Re.pos c + String.length w).

(** The handler of Python files. *)
Definition PY_HANDLER : LanguageHandler :=
  Handler "python" (extensions_of "python") PY_IMPORTS.

(** ** The segments of a path *)

(** The segments of the path as the dead-file rule looks at it. *)
Definition segments (f : string) : list string := split_on slash (path_norm f).

(** [d] names a directory on the path: it is a segment before the last. *)
Definition dir_segment (d f : string) : Prop :=
  exists pre post, segments f = (pre ++ d :: post)%list /\ post <> [].

(** [d] is the first segment of the path, and names a directory. *)
Definition leading_segment (d f : string) : Prop :=
  exists post, segments f = d :: post /\ post <> [].

(** The languages whose imports the resolver reads as namespaces. *)
Definition namespace_language (f : string) : Prop :=
  detect_language_for_file f = Some "java"
  \/ detect_language_for_file f = Some "csharp".

(** The exemptions of the dead-file rule in the words of the
    specification: a pages or routes directory segment, an index file, an
    entry-point name, a file of a namespace language under a source-root
    segment. *)
Definition exempt_as_specified (f : string) : Prop :=
  dir_segment "pages" f \/ dir_segment "routes" f \/ index_named f \/ entry_named f
  \/ (namespace_language f /\ dir_segment "src" f).

(** A JavaScript file whose only import, from the folder [legacy], spans
    three lines. *)
Definition multi_line_import : string :=
  "import {" +:+ String newline ""
  +:+ "  a" +:+ String newline ""
  +:+ "} from './legacy/b'" +:+ String newline "".

Definition multi_line_world : world :=
  World (mk_tree ∅ {[ "a.js" := FS.File multi_line_import 1 ]} ∅) NoCache true
        "/home/dev/project" 10 0.

(** ** The paths and texts the model reads as the system does *)

(** A path the tree interprets as the kernel does: relative, and without a
    [..] component. *)
Definition in_tree (p : string) : Prop := is_Some (FS.components p).

(** The directory [create_snapshot] copies the project to. *)
Definition snapshot_path (ts label : string) : string :=
  join BACKUP_DIR (snapshot_name ts label).

(** A character of plain text: ASCII, and not a carriage return. *)
Definition plain_char (a : ascii) : bool :=
  (nat_of_ascii a <? 128)%nat && negb (Ascii.eqb a "013"%char).

(** Text that is read as it is stored and stored as it is written: no
    byte is dropped by the decoder and no line end is translated. *)
Definition plain_text (s : string) : bool := all_chars plain_char s.

(** A file that a list of paths names once. *)
Definition named_once (f : string) (l : list string) : Prop :=
  exists l1 l2, l = (l1 ++ f :: l2)%list /\
    forall g, g ∈ (l1 ++ l2)%list -> FS.components g <> FS.components f.

(** Text of ASCII characters only: on it the blanks of [str.strip], the
    case folding of [str.lower] and the character classes of the patterns
    are those of the model. *)
Definition ascii_text (s : string) : bool :=
  all_chars (fun a => (nat_of_ascii a <? 128)%nat) s.

(** A character [json.dump] writes as it is: printable ASCII other than
    the double quote and the backslash. *)
Definition json_plain_char (a : ascii) : bool :=
  let n := nat_of_ascii a in
  (32 <=? n)%nat && (n <=? 126)%nat && negb (n =? 34)%nat && negb (n =? 92)%nat.

Definition json_plain (s : string) : bool := all_chars json_plain_char s.

(** A backup directory that holds thirteen snapshots. *)
Definition thirteen_snapshots : gmap string FS.node :=
  list_to_map
    (map (fun c => (call_name c, FS.Dir {[ "a.js" := FS.File "one" 1 ]}))
         thirteen_calls).

(** A project with a folder [legacy], a file that imports from it and a
    file that does not. *)
Definition three_file_world : world :=
  World (mk_tree ∅
           {[ "main.js" := FS.File "import x from './legacy/old'" 1;
              "util.js" := FS.File "export const u = 1" 1;
              "legacy" := FS.Dir {[ "old.js" := FS.File "export default 1" 1 ]} ]}
           ∅)
        NoCache true "/home/dev/project" 10 0.

(* ===================================================================== *)
(** * Properties *)
(* ===================================================================== *)

(** ** The order on strings and sorting *)

Section StringOrder.
Import PyStr.

Lemma compare_trans_lt (a b c : string) :
  String.compare a b = Lt -> String.compare b c = Lt -> String.compare a c = Lt.
Proof.
  intros H1 H2.
  apply OrderedTypeEx.String_as_OT.cmp_lt in H1, H2.
  apply OrderedTypeEx.String_as_OT.cmp_lt.
  eapply OrderedTypeEx.String_as_OT.lt_trans; eassumption.
Qed.

Lemma leb_trans (a b c : string) :
  String.leb a b = true -> String.leb b c = true -> String.leb a c = true.
Proof.
  unfold String.leb. intros H1 H2.
  destruct (String.compare a b) eqn:E1; try discriminate.
  - apply String.compare_eq_iff in E1. subst. exact H2.
  - destruct (String.compare b c) eqn:E2; try discriminate.
    + apply String.compare_eq_iff in E2. subst. by rewrite E1.
    + by rewrite (compare_trans_lt _ _ _ E1 E2).
Qed.

#[global] Instance str_le_total : Total str_le.
Proof. intros a b. apply String.leb_total. Qed.

#[global] Instance str_le_trans : Transitive str_le.
Proof. intros a b c. apply leb_trans. Qed.

#[global] Instance str_le_antisym : AntiSymm (=) str_le.
Proof. intros a b. apply String.leb_antisym. Qed.

#[global] Instance str_ge_total : Total str_ge.
Proof. intros a b. unfold str_ge. destruct (String.leb_total a b); auto. Qed.

#[global] Instance str_ge_trans : Transitive str_ge.
Proof. intros a b c H1 H2. unfold str_ge in *. eapply leb_trans; eassumption. Qed.

#[global] Instance str_ge_antisym : AntiSymm (=) str_ge.
Proof. intros a b H1 H2. unfold str_ge in *. by apply String.leb_antisym. Qed.

Lemma sorted_Sorted (l : list string) : Sorted str_le (sorted l).
Proof. apply Sorted_merge_sort, _. Qed.

Lemma elem_of_sorted (l : list string) (x : string) : x ∈ sorted l ↔ x ∈ l.
Proof. unfold sorted. by rewrite merge_sort_Permutation. Qed.

Lemma sorted_rev_Sorted (l : list string) : Sorted str_ge (sorted_rev l).
Proof. apply Sorted_merge_sort, _. Qed.

Lemma elem_of_sorted_rev (l : list string) (x : string) : x ∈ sorted_rev l ↔ x ∈ l.
Proof. unfold sorted_rev. by rewrite merge_sort_Permutation. Qed.

(** A descending list is what [sorted_rev] returns for any of its
    permutations. *)
Lemma sorted_rev_unique (l l' : list string) :
  Sorted str_ge l' -> l' ≡ₚ l -> sorted_rev l = l'.
Proof.
  intros Hs Hp. apply (Sorted_unique str_ge); [apply sorted_rev_Sorted|done|].
  unfold sorted_rev. by rewrite merge_sort_Permutation.
Qed.

End StringOrder.

(** ** Skip patterns *)

Section SkipPatterns.
Import Fnmatch.

(** A pattern without wildcards matches its own text only. *)
Lemma glob_literal (pat : list ascii) (fname : string) :
  forallb (fun c => negb (wildcard c)) pat = true ->
  glob pat fname = true <-> fname = string_of_list_ascii pat.
Proof.
  revert fname. induction pat as [|c pat IH]; intros fname Hlit; simpl.
  - by rewrite bool_decide_eq_true.
  - simpl in Hlit. apply andb_prop in Hlit as [Hc Hlit].
    unfold wildcard in Hc. apply negb_true_iff, orb_false_iff in Hc as [Hs Hq].
    rewrite Hs, Hq. destruct fname as [|a fname]; simpl; [done|].
    rewrite andb_true_iff, IH, Ascii.eqb_eq by done.
    split; [intros [-> ->]; done|intros [= -> ->]; done].
Qed.

(** A literal text followed by one star matches the names it begins. *)
Lemma glob_literal_star (pat : list ascii) (fname : string) :
  forallb (fun c => negb (wildcard c)) pat = true ->
  glob (pat ++ ["*"%char]) fname = true <->
  String.prefix (string_of_list_ascii pat) fname = true.
Proof.
  revert fname. induction pat as [|c pat IH]; intros fname Hlit.
  - cbn [app glob string_of_list_ascii]. change (Ascii.eqb "*" "*") with true. cbv iota.
    split; [by destruct fname|intros _].
    induction fname as [|a fname IHf]; simpl; [done|exact IHf].
  - simpl in Hlit. apply andb_prop in Hlit as [Hc Hlit].
    unfold wildcard in Hc. apply negb_true_iff, orb_false_iff in Hc as [Hs Hq].
    cbn [app glob string_of_list_ascii]. rewrite Hs, Hq.
    destruct fname as [|a fname]; simpl; [done|].
    rewrite andb_true_iff, IH, Ascii.eqb_eq by done.
    destruct (Ascii.ascii_dec c a) as [->|Hne].
    + split; [by intros [_ ?]|done].
    + split; [by intros [-> _]|done].
Qed.

Lemma fnmatch_d_ts (fname : string) : fnmatch fname ".d.ts" = true <-> fname = ".d.ts".
Proof. apply (glob_literal (list_ascii_of_string ".d.ts")). reflexivity. Qed.

Lemma fnmatch_spec (fname : string) : fnmatch fname ".spec." = true <-> fname = ".spec.".
Proof. apply (glob_literal (list_ascii_of_string ".spec.")). reflexivity. Qed.

Lemma fnmatch_test (fname : string) :
  fnmatch fname ".test.*" = true <-> PyStr.startswith fname ".test." = true.
Proof. apply (glob_literal_star (list_ascii_of_string ".test.")). reflexivity. Qed.

Lemma skip_name_spec (fname : string) :
  skip_name fname = true <->
  fname = ".d.ts" \/ fname = ".spec." \/ PyStr.startswith fname ".test." = true.
Proof.
  unfold skip_name, SKIP_PATTERNS. cbn [existsb].
  rewrite orb_false_r, !orb_true_iff, fnmatch_d_ts, fnmatch_spec, fnmatch_test. tauto.
Qed.

End SkipPatterns.

(** C10.  Of the three default skip patterns, [.d.ts] and [.spec.] hold no
    wildcard and match a file only when they are its entire name; [.test.*]
    alone matches a family of names, those beginning with [.test.].  A file
    the walk meets whose name no pattern matches and whose extension is
    known is part of the scan; [foo.d.ts] and [a.spec.js] are such names. *)
Theorem C10_literal_skip_patterns :
  (forall fname, Fnmatch.fnmatch fname ".d.ts" = true <-> fname = ".d.ts") /\
  (forall fname, Fnmatch.fnmatch fname ".spec." = true <-> fname = ".spec.") /\
  (forall fname, skip_name fname = true <->
      fname = ".d.ts" \/ fname = ".spec." \/ startswith fname ".test." = true) /\
  (forall t root d fname,
      (d, fname) ∈ FS.walk excluded_dir t root ->
      skip_name fname = false ->
      is_Some (EXT_LANG_MAP !! splitext_ext fname) ->
      normpath (join d fname) ∈ scan_tree t root) /\
  skip_name "foo.d.ts" = false /\ skip_name "a.spec.js" = false /\
  EXT_LANG_MAP !! splitext_ext "foo.d.ts" = Some "typescript" /\
  EXT_LANG_MAP !! splitext_ext "a.spec.js" = Some "javascript".
Proof.
  split; [exact fnmatch_d_ts|].
  split; [exact fnmatch_spec|].
  split; [exact skip_name_spec|].
  split; [|by vm_compute].
  intros t root d fname Hwalk Hskip Hext.
  unfold scan_tree. apply list_elem_of_omap. exists (d, fname).
  split; [done|]. cbn [fst snd]. rewrite Hskip. by rewrite bool_decide_eq_true_2.
Qed.

(** A tree with the two kinds of file names of C10, scanned. *)
Lemma C10_literal_skip_patterns_witness :
  let t := FS.Dir {[ "src" := FS.Dir {[ "foo.d.ts" := FS.File "" 1;
                                        "a.spec.js" := FS.File "" 1;
                                        ".d.ts" := FS.File "" 1 ]} ]} in
  ("src/foo.d.ts" ∈ scan_tree t "src") /\ ("src/a.spec.js" ∈ scan_tree t "src")
  /\ ("src/.d.ts" ∉ scan_tree t "src").
Proof.
  intros t.
  destruct C10_literal_skip_patterns as (_ & _ & _ & Hscan & _).
  split; [|split].
  - apply (Hscan t "src" "src" "foo.d.ts"); [|by vm_compute|by eexists].
    vm_compute. apply list_elem_of_In. simpl. auto.
  - apply (Hscan t "src" "src" "a.spec.js"); [|by vm_compute|by eexists].
    vm_compute. apply list_elem_of_In. simpl. auto.
  - vm_compute. intros H. apply list_elem_of_In in H. simpl in H.
    intuition discriminate.
Defined.

(** ** Dead files *)

Lemma dead_file_spec (rb : gmap string (gset string)) (f : string) :
  dead_file rb f = true <->
  no_incoming rb f /\ ~ in_route_dir f /\ ~ index_named f /\ ~ entry_named f
  /\ ~ (detect_language_for_file f = Some "java" /\ in_source_root f).
Proof.
  unfold dead_file, no_incoming, in_route_dir, index_named, entry_named,
    in_source_root, path_norm, entry_point_names.
  case_bool_decide as Hrefs.
  { split; [done|]. intros (Hno & _). destruct Hrefs as [[s Hs] Hne].
    destruct Hno as [Hno|Hno]; congruence. }
  destruct (contains _ "/pages/" || contains _ "/routes/") eqn:Hroute.
  { split; [done|]. intros (_ & Hn & _). apply orb_true_iff in Hroute. tauto. }
  apply orb_false_iff in Hroute as [Hp Hr].
  destruct (startswith _ "index.") eqn:Hidx.
  { split; [done|]. intros (_ & _ & Hn & _). tauto. }
  case_bool_decide as Hentry.
  { split; [done|]. intros (_ & _ & _ & Hn & _). tauto. }
  assert (rb !! f = None \/ rb !! f = Some ∅) as Hno.
  { destruct (rb !! f) as [s|] eqn:Hs; [|by left]. right.
    destruct (decide (s = ∅)) as [->|Hne]; [done|].
    exfalso. apply Hrefs. split; [by eexists|]. congruence. }
  case_bool_decide as Hjava; simpl.
  - destruct (contains _ "/src/main/" || contains _ "/src/") eqn:Hsrc.
    + split; [done|]. intros (_ & _ & _ & _ & Hn).
      apply orb_true_iff in Hsrc. tauto.
    + apply orb_false_iff in Hsrc as [H1 H2]. split; [intros _|done].
      repeat split; try done; try (intros [?|?]; congruence); try congruence.
      intros (_ & [?|?]); congruence.
  - split; [intros _|done].
    repeat split; try done; try (intros [?|?]; congruence); try congruence.
    intros (? & _); congruence.
Qed.

(** ** The matcher: what a successful run has captured *)

Section Engine.
Import Re.

Lemma has_cap_cons (i j : nat) (s : string) (c : cursor) (cs : list (nat * string)) :
  caps c = (j, s) :: cs ->
  has_cap i c <-> i = j \/ is_Some (cap_lookup cs i).
Proof.
  unfold has_cap, cap_lookup. intros ->. simpl.
  destruct (decide (j = i)) as [->|Hne]; simpl.
  - split; [by left|by eexists].
  - rewrite !fmap_is_Some. split; [by right|].
    intros [?|?]; [congruence|done].
Qed.

Lemma advance_caps (c c' : cursor) : advance c = Some c' -> caps c' = caps c.
Proof. unfold advance. destruct (rest c); [done|]. by intros [= <-]. Qed.

(** A successful run ends in its continuation, which sees at least the
    captures made before. *)
Lemma run_continues (fl : flags) (whole : string) (r : re) :
  forall c k c1, run fl whole r c k = Some c1 ->
  exists c', k c' = Some c1 /\ forall i, has_cap i c -> has_cap i c'.
Proof.
  assert (forall c (k : cursor -> option cursor) c1, advance c ≫= k = Some c1 ->
            exists c', k c' = Some c1 /\ forall i, has_cap i c -> has_cap i c') as Hadv.
  { intros c k c1 H. destruct (advance c) as [c'|] eqn:Ha; [|done].
    exists c'. split; [done|]. unfold has_cap. by rewrite (advance_caps _ _ Ha). }
  induction r as [| a | neg items | | | | r1 IH1 r2 IH2 | r1 IH1 r2 IH2
                 | greedy r IH | j r IH]; intros c k c1 Hrun; simpl in Hrun.
  - eauto.
  - destruct (peek c); [|done]. destruct (Ascii.eqb a a0); [eauto|done].
  - destruct (peek c); [|done]. destruct (xorb _ _); [eauto|done].
  - destruct (peek c); [|done]. destruct (_ || _); [eauto|done].
  - destruct (at_bol fl c); [eauto|done].
  - destruct (at_wordb c); [eauto|done].
  - apply IH1 in Hrun as (c' & Hrun & Hc'). apply IH2 in Hrun as (c'' & Hk & Hc'').
    eauto.
  - destruct (run fl whole r1 c k) eqn:H1.
    + injection Hrun as ->. eauto.
    + eauto.
  - revert Hrun. generalize (String.length (rest c)). intros n. revert c c1.
    induction n as [|n IHn]; intros c c1 Hrun; simpl in Hrun; [eauto|].
    assert (forall c2, run fl whole r c
              (fun c' => if (pos c <? pos c')%nat
                         then star_loop (run fl whole r) greedy k n c' else None)
              = Some c2 ->
            exists c', k c' = Some c2 /\ forall i, has_cap i c -> has_cap i c') as Hmore.
    { intros c2 H. apply IH in H as (c' & H & Hc').
      destruct (pos c <? pos c')%nat; [|done].
      apply IHn in H as (c'' & Hk & Hc''). eauto. }
    destruct greedy.
    + destruct (run fl whole r c _) eqn:Hm.
      * injection Hrun as ->. eauto.
      * eauto.
    + destruct (k c) eqn:Hk.
      * injection Hrun as ->. eauto.
      * eauto.
  - apply IH in Hrun as (c' & Hk & Hc'). eexists. split; [exact Hk|].
    intros i Hi. eapply has_cap_cons; [reflexivity|]. right. by apply Hc'.
Qed.

(** A pattern that binds group [i] hands it to its continuation. *)
Lemma run_binds (fl : flags) (whole : string) (i : nat) (r : re) :
  binds i r = true ->
  forall c k c1, run fl whole r c k = Some c1 ->
  exists c', k c' = Some c1 /\ has_cap i c'.
Proof.
  induction r as [| a | neg items | | | | r1 IH1 r2 IH2 | r1 IH1 r2 IH2
                 | greedy r IH | j r IH]; simpl; try done; intros Hb c k c1 Hrun.
  - apply orb_true_iff in Hb as [Hb|Hb].
    + apply (IH1 Hb) in Hrun as (c' & Hrun & Hc').
      apply run_continues in Hrun as (c'' & Hk & Hc''). eauto.
    + apply run_continues in Hrun as (c' & Hrun & _). eauto.
  - apply andb_true_iff in Hb as [Hb1 Hb2].
    destruct (run fl whole r1 c k) eqn:H1.
    + injection Hrun as ->. eauto.
    + eauto.
  - apply orb_true_iff in Hb as [Hb|Hb].
    + apply Nat.eqb_eq in Hb as ->.
      apply run_continues in Hrun as (c' & Hk & _). eexists. split; [exact Hk|].
      eapply has_cap_cons; [reflexivity|]. by left.
    + apply (IH Hb) in Hrun as (c' & Hk & Hc'). eexists. split; [exact Hk|].
      eapply has_cap_cons; [reflexivity|]. by right.
Qed.

Lemma scan_binds (fl : flags) (whole : string) (i : nat) (r : re) (n : nat) :
  binds i r = true ->
  forall c c0 c1, scan fl whole r n c = Some (c0, c1) -> has_cap i c1.
Proof.
  intros Hb. induction n as [|n IH]; intros c c0 c1; simpl.
  - destruct (run _ _ _ _ _) eqn:Hrun; [|done]. intros [= <- <-].
    by apply (run_binds _ _ _ _ Hb) in Hrun as (c' & [= ->] & Hc').
  - destruct (run _ _ _ _ _) eqn:Hrun.
    + intros [= <- <-].
      by apply (run_binds _ _ _ _ Hb) in Hrun as (c' & [= ->] & Hc').
    + destruct (advance c); [apply IH|done].
Qed.

(** Every match of a compiled pattern that binds group 1 has group 1. *)
Lemma finditer_group1 (fl : flags) (ngroups : nat) (r : re) (text : string) :
  binds 1 r = true ->
  Forall (fun m => is_Some (group m 1)) (finditer (compile fl (S ngroups) r) text).
Proof.
  intros Hb. unfold compile, finditer.
  generalize (S (String.length text)) (Cursor 0 None text [] None).
  intros fuel. induction fuel as [|fuel IH]; intros c; simpl; [constructor|].
  destruct (scan _ _ _ _ _) as [[c0 c1]|] eqn:Hscan; [|constructor].
  constructor.
  - apply (scan_binds _ _ _ _ _ Hb) in Hscan. exact Hscan.
  - destruct (pos c0 <? pos c1)%nat; [apply IH|].
    destruct (advance c1); simpl; [apply IH|constructor].
Qed.

End Engine.

(** ** The dependency graph *)

Section Graph.
Variable J : list Re.regex.

Lemma GO_BLOCK_group1 (text : string) :
  Forall (fun m => is_Some (Re.group m 1)) (Re.finditer GO_BLOCK text).
Proof. apply finditer_group1. reflexivity. Qed.

Lemma go_imports_total (h : LanguageHandler) (text : string) :
  is_Some (go_imports h text).
Proof.
  unfold go_imports.
  assert (is_Some (mapM (fun m => Re.group m 1) (Re.finditer GO_BLOCK text)))
    as [blocks Hb] by apply mapM_is_Some, GO_BLOCK_group1.
  rewrite Hb. by eexists.
Qed.

Lemma imports_in_total (h : LanguageHandler) (lang text : string) :
  is_Some (imports_in h lang text).
Proof.
  unfold imports_in. case_bool_decide; [apply go_imports_total|by eexists].
Qed.

Lemma find_in_set (S : gset string) (l : list string) (p : string) :
  find (in_set S) l = Some p -> p ∈ S.
Proof.
  intros H. apply find_some in H as [_ H]. unfold in_set in H.
  by apply bool_decide_eq_true in H.
Qed.

(** The resolver answers with known files only. *)
Lemma resolve_import_in (h : LanguageHandler) (f imp : string) (S : gset string)
    (target : string) :
  resolve_import h f imp S = Some target -> target ∈ S.
Proof.
  unfold resolve_import.
  destruct (negb (truthy (strip imp))); [done|].
  destruct (_ || _).
  - destruct (find _ _) eqn:Hf.
    + intros [= <-]. by apply find_in_set in Hf.
    + destruct (in_set S _) eqn:Hin; [|done]. intros [= <-].
      unfold in_set in Hin. by apply bool_decide_eq_true in Hin.
  - destruct (if contains _ "/" then _ else _) eqn:Hp.
    + intros [= <-]. destruct (contains _ "/"); [|done]. by apply find_in_set in Hp.
    + destruct (_ && _); [|done]. apply find_in_set.
Qed.

Lemma ofold_inv {A B : Type} (P : B -> Prop) (step : B -> A -> option B)
    (l : list A) (b : B) :
  P b ->
  (forall b x, x ∈ l -> P b -> exists b', step b x = Some b' /\ P b') ->
  exists b', ofold step l b = Some b' /\ P b'.
Proof.
  revert b. induction l as [|x l IH]; intros b Hb Hstep; simpl; [eauto|].
  destruct (Hstep b x) as (b' & -> & Hb'); [left|done|]. simpl.
  apply IH; [done|]. intros b0 y Hy. apply Hstep. by right.
Qed.

Lemma graph_ok_empty (all_files : list string) :
  graph_ok (list_to_set all_files)
    (empty_adjacency all_files, empty_adjacency all_files).
Proof.
  unfold graph_ok, empty_adjacency. simpl.
  rewrite dom_gset_to_gmap. split; [done|]. split; [done|].
  split; [|split].
  - intros f s [_ <-]%lookup_gset_to_gmap_Some. set_solver.
  - intros f s [_ <-]%lookup_gset_to_gmap_Some. set_solver.
  - intros f f' sf sf' [_ <-]%lookup_gset_to_gmap_Some
      [_ <-]%lookup_gset_to_gmap_Some. set_solver.
Qed.

Lemma add_edge_ok (S : gset string) (f target : string) (g : graph) :
  graph_ok S g -> f ∈ S -> target ∈ S ->
  exists g', add_edge f target g = Some g' /\ graph_ok S g'.
Proof.
  destruct g as [rb io]. intros (Hd1 & Hd2 & Hio & Hrb & Htr) Hf Ht. simpl in *.
  unfold add_edge. simpl.
  assert (is_Some (rb !! target)) as [s Hs] by (apply elem_of_dom; by rewrite Hd1).
  assert (is_Some (io !! f)) as [t Ht'] by (apply elem_of_dom; by rewrite Hd2).
  rewrite Hs, Ht'. simpl. eexists. split; [done|].
  unfold graph_ok. simpl. split; [|split; [|split; [|split]]].
  - rewrite dom_insert_L, Hd1. set_solver.
  - rewrite dom_insert_L, Hd2. set_solver.
  - intros f0 s0. rewrite lookup_insert. case_decide as Heq.
    + intros [= <-]. specialize (Hio _ _ Ht'). set_solver.
    + apply Hio.
  - intros f0 s0. rewrite lookup_insert. case_decide as Heq.
    + intros [= <-]. specialize (Hrb _ _ Hs). set_solver.
    + apply Hrb.
  - intros f0 f' sf sf'. rewrite !lookup_insert.
    destruct (decide (f = f0)) as [<-|Hne1], (decide (target = f')) as [<-|Hne2].
    + intros [= <-] [= <-]. set_solver.
    + intros [= <-] Hf'. specialize (Htr _ _ _ _ Ht' Hf'). set_solver.
    + intros Hf0 [= <-]. specialize (Htr _ _ _ _ Hf0 Hs). set_solver.
    + apply Htr.
Qed.

Lemma add_import_ok (h : LanguageHandler) (all_files : list string)
    (f imp : string) (g : graph) :
  graph_ok (list_to_set all_files) g -> f ∈ all_files ->
  exists g', add_import h (list_to_set all_files) f g imp = Some g'
             /\ graph_ok (list_to_set all_files) g'.
Proof.
  intros Hg Hf. unfold add_import.
  destruct (resolve_import _ _ _ _) as [target|] eqn:Hres; [|eauto].
  destruct (truthy target); [|eauto].
  apply add_edge_ok; [done|set_solver|]. by apply resolve_import_in in Hres.
Qed.

Lemma analyze_file_ok (t : FS.node) (all_files : list string) (f : string)
    (g : graph) :
  graph_ok (list_to_set all_files) g -> f ∈ all_files ->
  exists g', analyze_file J t (list_to_set all_files) g f = Some g'
             /\ graph_ok (list_to_set all_files) g'.
Proof.
  intros Hg Hf. unfold analyze_file.
  destruct (lang_of f) as [lang|]; [|eauto].
  destruct (LANG_HANDLERS J !! lang) as [handler|]; [|eauto].
  destruct (FS.read_text t f) as [text|]; [|eauto].
  destruct (imports_in_total handler lang text) as [imps ->]. simpl.
  apply (ofold_inv (graph_ok (list_to_set all_files))); [done|].
  intros g0 imp _ Hg0. by apply add_import_ok.
Qed.

(** The graph is always built, and it satisfies the invariant. *)
Lemma build_graph_ok (t : FS.node) (all_files : list string) :
  exists g, build_graph J t all_files = Some g
            /\ graph_ok (list_to_set all_files) g.
Proof.
  unfold build_graph.
  apply (ofold_inv (graph_ok (list_to_set all_files))); [apply graph_ok_empty|].
  intros g f Hf Hg. by apply analyze_file_ok.
Qed.

(** [analyze_project] always returns: the scanned files and a graph. *)
Lemma analyze_project_total (root : string) (use_cache : bool) (w : world) :
  exists g, fst (analyze_project J root use_cache w)
            = Some (fst (build_file_list root use_cache w), g).
Proof.
  unfold analyze_project. simpl.
  destruct (build_graph_ok (fs (snd (build_file_list root use_cache w)))
              (fst (build_file_list root use_cache w))) as (g & -> & _).
  by exists g.
Qed.

(** C1.  [analyze_project] always returns a graph; its two mappings have
    exactly the scanned files as keys, every file in a value set of
    [imports_of] or [referenced_by] is one of these files, and
    [referenced_by] is the transpose of [imports_of]. *)
Theorem C1_graph_consistency (root : string) (use_cache : bool) (w : world) :
  exists files referenced_by imports_of,
    fst (analyze_project J root use_cache w)
      = Some (files, (referenced_by, imports_of)) /\
    files = fst (build_file_list root use_cache w) /\
    (forall f, f ∈ files <-> is_Some (imports_of !! f)) /\
    (forall f, f ∈ files <-> is_Some (referenced_by !! f)) /\
    (forall f s g, imports_of !! f = Some s -> g ∈ s ->
       g ∈ files /\ is_Some (imports_of !! g) /\ is_Some (referenced_by !! g)) /\
    (forall f s g, referenced_by !! f = Some s -> g ∈ s ->
       g ∈ files /\ is_Some (imports_of !! g) /\ is_Some (referenced_by !! g)) /\
    (forall f g sf sg, imports_of !! f = Some sf -> referenced_by !! g = Some sg ->
       (g ∈ sf <-> f ∈ sg)).
Proof.
  unfold analyze_project. simpl.
  set (files := fst (build_file_list root use_cache w)).
  set (t := fs (snd (build_file_list root use_cache w))).
  destruct (build_graph_ok t files) as ([rb io] & -> & Hd1 & Hd2 & Hio & Hrb & Htr).
  simpl in *. exists files, rb, io. split; [done|]. split; [done|].
  assert (forall f, f ∈ files <-> is_Some (io !! f)) as Hkio.
  { intros f. rewrite <-elem_of_dom, Hd2. set_solver. }
  assert (forall f, f ∈ files <-> is_Some (rb !! f)) as Hkrb.
  { intros f. rewrite <-elem_of_dom, Hd1. set_solver. }
  split; [done|]. split; [done|]. split; [|split].
  - intros f s g Hs Hg. assert (g ∈ files) as Hin.
    { specialize (Hio _ _ Hs). set_solver. }
    split; [done|]. split; [by apply Hkio|by apply Hkrb].
  - intros f s g Hs Hg. assert (g ∈ files) as Hin.
    { specialize (Hrb _ _ Hs). set_solver. }
    split; [done|]. split; [by apply Hkio|by apply Hkrb].
  - intros f g sf sg. apply Htr.
Qed.

End Graph.

(** ** Broken imports *)

Section Broken.
Variable J : list Re.regex.

(** The languages the nested loops put into the extension map are those
    of the configuration. *)
Lemma ext_lang_values (L : list (string * list string)) (m0 : gmap string string)
    (e lang : string) :
  fold_left (fun m le => fold_left (fun m e => <[e := fst le]> m) (snd le) m) L m0
    !! e = Some lang ->
  m0 !! e = Some lang \/ lang ∈ map fst L.
Proof.
  revert m0. induction L as [|[l exts] L IH]; intros m0; cbn [fold_left map fst snd].
  { by left. }
  intros [H|H]%IH; [|right; by right].
  assert (forall m : gmap string string,
            fold_left (fun m e => <[e := l]> m) exts m !! e = Some lang ->
            m !! e = Some lang \/ lang = l) as Hin.
  { clear. induction exts as [|x exts IH]; intros m; cbn [fold_left]; [by left|].
    intros [H|H]%IH; [|by right].
    rewrite lookup_insert in H. case_decide; [|by left]. right. congruence. }
  apply Hin in H as [H| ->]; [by left|right; by left].
Qed.

(** Every language of the extension map has a handler. *)
Lemma handler_total (e lang : string) :
  EXT_LANG_MAP !! e = Some lang -> is_Some (LANG_HANDLERS J !! lang).
Proof.
  intros [H|H]%ext_lang_values; [by rewrite lookup_empty in H|].
  apply list_elem_of_In in H. cbn [map fst file_extensions_map In] in H.
  unfold LANG_HANDLERS.
  repeat (destruct H as [<-|H];
          [repeat (rewrite lookup_insert_ne by done);
           rewrite lookup_insert_eq; by eexists|]).
  done.
Qed.

Lemma lang_of_handler (f lang : string) :
  lang_of f = Some lang -> is_Some (LANG_HANDLERS J !! lang).
Proof.
  unfold lang_of, detect_language_for_file.
  destruct (EXT_LANG_MAP !! _) as [l|] eqn:He; [|done].
  destruct (truthy l); [|done]. intros [= <-]. by eapply handler_total.
Qed.

Lemma match_specifier_truthy (m : Re.rmatch) (v : string) :
  match_specifier m = Some v -> truthy v = true.
Proof.
  unfold match_specifier.
  destruct (if Re.has_lastindex m then _ else _) as [g|]; [|done].
  destruct (truthy g) eqn:Hg; [|done]. by intros [= <-].
Qed.

Lemma extract_imports_truthy (h : LanguageHandler) (text imp : string) :
  imp ∈ extract_imports h text -> truthy imp = true.
Proof.
  unfold extract_imports. intros H. apply list_elem_of_In, in_flat_map in H.
  destruct H as (rx & _ & H). apply list_elem_of_In, list_elem_of_omap in H.
  destruct H as (m & _ & H). by eapply match_specifier_truthy.
Qed.

Lemma looks_local_spec (lang imp : string) :
  looks_local lang imp = true <-> path_like lang imp.
Proof.
  unfold looks_local, path_like.
  rewrite !orb_true_iff, andb_true_iff, orb_true_iff, !bool_decide_eq_true.
  tauto.
Qed.

Lemma broken_in_spec (t : FS.node) (S : gset string) (src : string) :
  exists l, broken_in J t S src = Some l /\
    forall s imp, (s, imp) ∈ l <->
      s = src /\ exists lang handler text,
        lang_of src = Some lang /\ LANG_HANDLERS J !! lang = Some handler /\
        FS.read_text t src = Some text /\ imp ∈ extract_imports handler text /\
        resolve_import handler src imp S = None /\ path_like lang imp.
Proof.
  unfold broken_in.
  destruct (lang_of src) as [lang|] eqn:Hl.
  2:{ eexists. split; [done|]. intros s imp. split; [by intros ?%elem_of_nil|].
      by intros (_ & ? & ? & ? & ? & _). }
  destruct (lang_of_handler _ _ Hl) as [handler Hh].
  destruct (FS.read_text t src) as [text|] eqn:Ht.
  2:{ eexists. split; [done|]. intros s imp. split; [by intros ?%elem_of_nil|].
      by intros (_ & ? & ? & ? & _ & _ & ? & _). }
  rewrite Hh. simpl. eexists. split; [done|]. intros s imp.
  rewrite list_elem_of_omap. split.
  - intros (imp' & Hin & Hc).
    destruct (truthy imp' && _ && _) eqn:Hcond; [|done]. injection Hc as <- <-.
    apply andb_true_iff in Hcond as [Hcond Hlocal].
    apply andb_true_iff in Hcond as [_ Hres].
    apply bool_decide_eq_true in Hres. apply looks_local_spec in Hlocal.
    split; [done|]. exists lang, handler, text. done.
  - intros (-> & lang' & handler' & text' & [= <-] & Hh' & [= <-] & Hin & Hres & Hp).
    rewrite Hh in Hh'. injection Hh' as <-.
    exists imp. split; [done|].
    rewrite (extract_imports_truthy _ _ _ Hin), Hres.
    rewrite bool_decide_eq_true_2 by done.
    apply looks_local_spec in Hp. by rewrite Hp.
Qed.

(** C9.  [detect_broken_imports] always returns a list, and a pair
    [(file, specifier)] is in it exactly when the file is a scanned file
    with a language that can be read, the specifier is one
    [extract_imports] takes from its text, the resolver finds no known file
    for it, and it is path-like: it starts with a dot, or contains a slash,
    or contains a dot in a Java or C# file.  A specifier of another shape
    is never reported. *)
Theorem C9_broken_imports_exact (use_cache : bool) (w : world) :
  exists broken,
    fst (detect_broken_imports J use_cache w) = Some broken /\
    forall src imp, (src, imp) ∈ broken <->
      src ∈ fst (build_file_list PROJECT_ROOT use_cache w) /\
      exists lang handler text,
        lang_of src = Some lang /\ LANG_HANDLERS J !! lang = Some handler /\
        FS.read_text (fs (snd (build_file_list PROJECT_ROOT use_cache w))) src
          = Some text /\
        imp ∈ extract_imports handler text /\
        resolve_import handler src imp
          (list_to_set (fst (build_file_list PROJECT_ROOT use_cache w))) = None /\
        path_like lang imp.
Proof.
  unfold detect_broken_imports.
  destruct (analyze_project_total J PROJECT_ROOT use_cache w) as ([rb io] & Ha).
  rewrite Ha. simpl.
  set (files := fst (build_file_list PROJECT_ROOT use_cache w)).
  set (t := fs (snd (build_file_list PROJECT_ROOT use_cache w))).
  replace (snd (analyze_project J PROJECT_ROOT use_cache w))
    with (snd (build_file_list PROJECT_ROOT use_cache w)) by done.
  fold t.
  assert (is_Some (mapM (broken_in J t (list_to_set files)) files)) as [ls Hls].
  { apply mapM_is_Some, Forall_forall. intros src _. unfold compose.
    destruct (broken_in_spec t (list_to_set files) src) as (l & -> & _).
    by eexists. }
  rewrite Hls. simpl. eexists. split; [done|]. intros src imp.
  apply mapM_Some in Hls.
  rewrite list_elem_of_In, in_concat. split.
  - intros (l & Hl & Hin). apply list_elem_of_In in Hl, Hin.
    apply list_elem_of_lookup in Hl as [i Hi].
    destruct (Forall2_lookup_r _ _ _ _ _ Hls Hi) as (src' & Hsrc' & Hb).
    destruct (broken_in_spec t (list_to_set files) src') as (l' & Hl' & Hspec).
    rewrite Hb in Hl'. injection Hl' as <-.
    destruct (proj1 (Hspec _ _) Hin) as (Heq & Hrest). subst src'. split; [|done].
    by eapply list_elem_of_lookup_2.
  - intros (Hsrc & Hrest). apply list_elem_of_lookup in Hsrc as [i Hi].
    destruct (Forall2_lookup_l _ _ _ _ _ Hls Hi) as (l & Hl & Hb).
    destruct (broken_in_spec t (list_to_set files) src) as (l' & Hl' & Hspec).
    rewrite Hb in Hl'. injection Hl' as <-.
    exists l. split; apply list_elem_of_In; [by eapply list_elem_of_lookup_2|].
    apply Hspec. done.
Qed.

End Broken.

(** ** Scanner and cache *)

(** C5, refuted as stated: after one scan a file is added; every cached
    path still exists with its modification time and the recorded root
    matches, so the scan with caching returns the cached list and leaves the
    world as it found it, yet the uncached rescan of that same tree also
    returns the new file. *)
Lemma C5_stale_cache_counterexample :
  cached_file_list file_added PROJECT_ROOT = Some ["src/a.js"] /\
  build_file_list PROJECT_ROOT true file_added = (["src/a.js"], file_added) /\
  ~ same_files (fst (build_file_list PROJECT_ROOT true file_added))
               (fst (build_file_list PROJECT_ROOT false file_added)).
Proof.
  split; [by vm_compute|]. split; [by vm_compute|].
  intros H. specialize (H "src/b.js").
  assert ("src/b.js" ∈ fst (build_file_list PROJECT_ROOT false file_added)) as Hb.
  { vm_compute. apply list_elem_of_In. simpl. auto. }
  apply H in Hb. vm_compute in Hb. apply list_elem_of_In in Hb. simpl in Hb.
  intuition discriminate.
Qed.

(** ** Paths as strings *)

Section Paths.

Lemma append_cons (a : ascii) (s t : string) :
  String a s +:+ t = String a (s +:+ t).
Proof. reflexivity. Qed.

Lemma append_assoc (s t u : string) : (s +:+ t) +:+ u = s +:+ (t +:+ u).
Proof. induction s as [|a s IH]; [done|]. by rewrite !append_cons, IH. Qed.

Lemma split_on_nonempty (c : ascii) (s : string) : split_on c s <> [].
Proof.
  destruct s as [|a s]; simpl; [done|].
  destruct (Ascii.eqb a c); [done|]. by destruct (split_on c s).
Qed.

(** Splitting at a separator splits the two sides. *)
Lemma split_on_sep_app (c : ascii) (a b : string) :
  split_on c (a +:+ String c b) = (split_on c a ++ split_on c b)%list.
Proof.
  induction a as [|x a IH]; simpl.
  - by rewrite Ascii.eqb_refl.
  - destruct (Ascii.eqb x c); [by rewrite IH|].
    rewrite IH. pose proof (split_on_nonempty c a) as Hne.
    by destruct (split_on c a).
Qed.

Lemma split_on_no_slash (s : string) : no_slash s = true -> split_on slash s = [s].
Proof.
  induction s as [|a s IH]; simpl; [done|].
  intros [Ha Hs]%andb_true_iff. apply negb_true_iff in Ha. rewrite Ha.
  by rewrite (IH Hs).
Qed.

Lemma plain_no_slash (s : string) : plain s = true -> no_slash s = true.
Proof. unfold plain. by intros [? _]%andb_true_iff. Qed.

Lemma plain_ne (s : string) :
  plain s = true -> s <> "" /\ s <> "." /\ s <> "..".
Proof.
  unfold plain. intros [_ H]%andb_true_iff.
  apply negb_true_iff, bool_decide_eq_false in H.
  repeat split; intros ->; apply H; set_solver.
Qed.

Lemma no_slash_startswith (s : string) :
  no_slash s = true -> startswith s "/" = false.
Proof.
  destruct s as [|a s]; [done|]. cbn [no_slash]. intros [Ha _]%andb_true_iff.
  apply negb_true_iff in Ha. unfold startswith. cbn [String.prefix].
  destruct (Ascii.ascii_dec "/" a) as [<-|]; [by vm_compute in Ha|done].
Qed.

Lemma no_slash_endswith (s : string) :
  no_slash s = true -> endswith s "/" = false.
Proof.
  induction s as [|a s IH]; [done|]. cbn [no_slash endswith String.eqb].
  intros [Ha Hs]%andb_true_iff. apply negb_true_iff in Ha. unfold slash in Ha.
  by rewrite (IH Hs), Ha.
Qed.

Lemma endswith_app_slash (x d : string) :
  d <> "" -> endswith (x +:+ d) "/" = endswith d "/".
Proof.
  intros Hd. induction x as [|a x IH]; [done|].
  change (String a x +:+ d) with (String a (x +:+ d)).
  cbn [endswith String.eqb]. rewrite IH.
  assert (String.eqb (x +:+ d) "" = false) as ->.
  { apply String.eqb_neq. destruct x; [done|discriminate]. }
  by destruct (Ascii.eqb a "/").
Qed.

(** [os.path.join] of a directory path and a relative name. *)
Lemma join_rel (a b : string) :
  truthy a = true -> endswith a "/" = false -> startswith b "/" = false ->
  join a b = a +:+ "/" +:+ b.
Proof. unfold join. by intros -> -> ->. Qed.

Lemma join_plain (a d : string) :
  truthy a = true -> endswith a "/" = false -> plain d = true ->
  join a d = a +:+ "/" +:+ d.
Proof.
  intros Ha He Hd. apply join_rel; [done..|].
  by apply no_slash_startswith, plain_no_slash.
Qed.

Lemma join_plain_endswith (a d : string) :
  truthy a = true -> endswith a "/" = false -> plain d = true ->
  truthy (join a d) = true /\ endswith (join a d) "/" = false.
Proof.
  intros Ha He Hd. rewrite join_plain by done. split; [by destruct a|].
  change (a +:+ "/" +:+ d) with (a +:+ String slash d).
  replace (a +:+ String slash d) with ((a +:+ "/") +:+ d).
  - rewrite endswith_app_slash by (by apply plain_ne).
    by apply no_slash_endswith, plain_no_slash.
  - by rewrite append_assoc.
Qed.

Lemma components_plain (d : string) : plain d = true -> FS.components d = Some [d].
Proof.
  intros Hd. unfold FS.components.
  rewrite split_on_no_slash by by apply plain_no_slash.
  rewrite no_slash_startswith by by apply plain_no_slash.
  destruct (plain_ne d Hd) as (H1 & H2 & H3).
  rewrite bool_decide_eq_false_2 by set_solver. simpl.
  rewrite filter_cons_True by done. done.
Qed.

(** The components of [a/b] are those of [a] followed by those of [b]. *)
Lemma components_sep_app (a b : string) (ca cb : list string) :
  a <> "" -> FS.components a = Some ca -> FS.components b = Some cb ->
  FS.components (a +:+ "/" +:+ b) = Some (ca ++ cb)%list.
Proof.
  unfold FS.components. intros Ha Hca Hcb.
  change (a +:+ "/" +:+ b) with (a +:+ String slash b).
  rewrite split_on_sep_app.
  destruct (startswith a "/" || _) eqn:H1; [done|].
  destruct (startswith b "/" || _) eqn:H2; [done|].
  injection Hca as <-. injection Hcb as <-.
  apply orb_false_iff in H1 as [H1a H1b]. apply orb_false_iff in H2 as [_ H2b].
  apply bool_decide_eq_false in H1b, H2b.
  assert (startswith (a +:+ String slash b) "/" = startswith a "/") as ->.
  { destruct a; [congruence|]. unfold startswith. rewrite append_cons.
    cbn [String.prefix]. destruct (Ascii.ascii_dec _ _); [|done]. by destruct a0. }
  rewrite H1a. rewrite bool_decide_eq_false_2 by set_solver. simpl.
  by rewrite filter_app.
Qed.

(** A path below a plain directory name starts with that name. *)
Lemma components_below (a b : string) (l : list string) :
  plain a = true -> FS.components (join a b) = Some l ->
  exists cs, l = a :: cs /\ FS.components b = Some cs.
Proof.
  intros Ha. unfold join. destruct (startswith b "/") eqn:Hb.
  { unfold FS.components. by rewrite Hb. }
  destruct (plain_ne a Ha) as (Hne & Hdot & Hdd).
  assert (truthy a = true) as -> by by destruct a.
  rewrite no_slash_endswith by by apply plain_no_slash. simpl.
  unfold FS.components. change (a +:+ "/" +:+ b) with (a +:+ String slash b).
  rewrite split_on_sep_app, split_on_no_slash by by apply plain_no_slash.
  assert (startswith (a +:+ String slash b) "/" = false) as ->.
  { pose proof (no_slash_startswith _ (plain_no_slash _ Ha)) as H.
    destruct a as [|x a]; [congruence|]. unfold startswith in *.
    rewrite append_cons. cbn [String.prefix] in *.
    destruct (Ascii.ascii_dec _ _); [by destruct a|done]. }
  rewrite Hb. simpl.
  destruct (bool_decide (".." ∈ a :: split_on slash b)) eqn:H1; [done|].
  apply bool_decide_eq_false in H1. intros [= <-].
  rewrite bool_decide_eq_false_2 by set_solver.
  rewrite filter_cons_True by done. eauto.
Qed.

Lemma components_join_plain (a d : string) (ca : list string) :
  truthy a = true -> endswith a "/" = false -> FS.components a = Some ca ->
  plain d = true ->
  FS.components (join a d) = Some (ca ++ [d])%list.
Proof.
  intros Ha He Hca Hd. rewrite join_plain by done.
  apply components_sep_app; [by destruct a|done|by apply components_plain].
Qed.

End Paths.

(** ** Dead files and the segments of a path *)

Section Segments.

Lemma prefix_app (p s : string) : String.prefix p (p +:+ s) = true.
Proof.
  induction p as [|a p IH]; [by destruct s|]. rewrite append_cons.
  cbn [String.prefix]. by destruct (Ascii.ascii_dec a a).
Qed.

Lemma prefix_inv (p : string) : forall s,
  String.prefix p s = true -> exists v, s = p +:+ v.
Proof.
  induction p as [|a p IH]; intros s H; [by exists s|].
  destruct s as [|b s]; [done|]. cbn [String.prefix] in H.
  destruct (Ascii.ascii_dec a b) as [<-|]; [|done].
  destruct (IH s H) as [v ->]. by exists v.
Qed.

Lemma contains_app (u sub v : string) : contains (u +:+ sub +:+ v) sub = true.
Proof.
  induction u as [|a u IH].
  - change ("" +:+ ?x) with x. destruct (sub +:+ v) eqn:E; cbn [contains];
      rewrite <-E, prefix_app; done.
  - rewrite append_cons. cbn [contains]. rewrite IH. by rewrite orb_true_r.
Qed.

Lemma contains_inv (sub : string) : forall s,
  contains s sub = true -> exists u v, s = u +:+ sub +:+ v.
Proof.
  induction s as [|a s IH]; cbn [contains].
  - rewrite orb_false_r. intros [v ->]%prefix_inv. by exists "", v.
  - intros [H|H]%orb_true_iff.
    + apply prefix_inv in H as [v ->]. by exists "", v.
    + destruct (IH H) as (u & v & ->). by exists (String a u), v.
Qed.

Lemma concat_split_on (s : string) : String.concat "/" (split_on slash s) = s.
Proof.
  induction s as [|a s IH]; [done|]. cbn [split_on].
  pose proof (split_on_nonempty slash s) as Hne.
  destruct (Ascii.eqb a slash) eqn:Ha.
  - apply Ascii.eqb_eq in Ha as ->. destruct (split_on slash s) as [|x xs]; [done|].
    change (String.concat "/" ("" :: x :: xs))
      with ("" +:+ "/" +:+ String.concat "/" (x :: xs)). by rewrite IH.
  - destruct (split_on slash s) as [|x xs]; [done|]. rewrite <-IH.
    by destruct xs.
Qed.

Lemma concat_sep_app (l1 l2 : list string) :
  l1 <> [] -> l2 <> [] ->
  String.concat "/" (l1 ++ l2) = String.concat "/" l1 +:+ "/" +:+ String.concat "/" l2.
Proof.
  intros H1 H2. induction l1 as [|x l1 IH]; [done|].
  destruct l1 as [|y l1].
  - destruct l2 as [|z l2]; [done|]. reflexivity.
  - change (String.concat "/" ((x :: y :: l1) ++ l2))
      with (x +:+ "/" +:+ String.concat "/" ((y :: l1) ++ l2)).
    rewrite IH by done.
    change (String.concat "/" (x :: y :: l1))
      with (x +:+ "/" +:+ String.concat "/" (y :: l1)).
    by rewrite !append_assoc.
Qed.

(** The substring test of the rule finds the segments after the first
    that name a directory. *)
Lemma contains_segment (d s : string) :
  no_slash d = true ->
  contains s ("/" +:+ d +:+ "/") = true <->
  exists pre post, split_on slash s = (pre ++ d :: post)%list /\ pre <> [] /\ post <> [].
Proof.
  intros Hd. split.
  - intros (u & v & ->)%contains_inv.
    exists (split_on slash u), (split_on slash v).
    split; [|split; apply split_on_nonempty].
    rewrite !append_assoc.
    change ("/" +:+ d +:+ "/" +:+ v) with (String slash (d +:+ String slash v)).
    by rewrite !split_on_sep_app, (split_on_no_slash d Hd).
  - intros (pre & post & Hs & Hpre & Hpost).
    rewrite <-(concat_split_on s), Hs, concat_sep_app by done.
    change (d :: post) with ([d] ++ post)%list. rewrite concat_sep_app by done.
    cbn [String.concat]. rewrite <-!append_assoc.
    rewrite (append_assoc (String.concat "/" pre)).
    rewrite (append_assoc (String.concat "/" pre) ("/" +:+ d)).
    rewrite (append_assoc "/" d). rewrite (append_assoc (String.concat "/" pre)).
    apply contains_app.
Qed.

(** Unless it is the first segment, a directory segment is what the test
    finds. *)
Lemma dir_segment_contains (d f : string) :
  no_slash d = true -> ~ leading_segment d f ->
  dir_segment d f <-> contains (path_norm f) ("/" +:+ d +:+ "/") = true.
Proof.
  intros Hd Hlead. rewrite contains_segment by done. unfold dir_segment, segments.
  split.
  - intros (pre & post & Hs & Hpost). exists pre, post. split; [done|]. split; [|done].
    intros ->. apply Hlead. by exists post.
  - intros (pre & post & Hs & _ & Hpost). by exists pre, post.
Qed.

(** The directory segments are the segments before the last. *)
Lemma dir_segment_elem (d f : string) :
  dir_segment d f <-> d ∈ removelast (segments f).
Proof.
  unfold dir_segment. split.
  - intros (pre & post & -> & Hpost). rewrite removelast_app by done.
    apply elem_of_app. right. destruct post as [|x post]; [done|]. left.
  - intros Hd. pose proof (split_on_nonempty slash (path_norm f)) as Hne.
    fold (segments f) in Hne.
    rewrite (app_removelast_last "" Hne).
    apply list_elem_of_split in Hd as (pre & post & ->).
    exists pre, (post ++ [List.last (segments f) ""])%list.
    split; [by rewrite <-app_assoc|]. by destruct post.
Qed.

End Segments.

(** C6, refuted as stated: a C# file without references under a source
    root is reported, although C# is one of the two namespace languages
    and [src] is a directory segment of its path; the rule exempts Java
    files only. *)
Lemma C6_csharp_source_root_counterexample :
  let f := "app/src/Util.cs" in
  detect_language_for_file f = Some "csharp" /\
  dir_segment "src" f /\
  detect_dead_files [f] ∅ = [f] /\
  detect_dead_files ["app/src/Util.java"] ∅ = [] /\
  ~ (forall all_files referenced_by g,
       g ∈ detect_dead_files all_files referenced_by <->
       g ∈ all_files /\ no_incoming referenced_by g /\ ~ exempt_as_specified g).
Proof.
  intros f.
  assert (dir_segment "src" f) as Hseg.
  { exists ["app"], ["util.cs"]. by vm_compute. }
  assert (detect_language_for_file f = Some "csharp") as Hlang by by vm_compute.
  split; [done|]. split; [done|]. split; [by vm_compute|]. split; [by vm_compute|].
  intros H. specialize (H [f] ∅ f).
  assert (f ∈ detect_dead_files [f] ∅) as Hin.
  { vm_compute. apply list_elem_of_In. by left. }
  apply H in Hin as (_ & _ & Hex). apply Hex.
  right. right. right. right. split; [by right|done].
Qed.

Section DeadBySegment.

(** C6, amended.  [detect_dead_files] returns a sorted list of files of
    the list without incoming references.  For a file whose normalised
    path (backslashes as slashes, in lower case) does not begin with a
    pages or routes segment, nor with a [src] segment when it is a Java
    file, it holds the file exactly when the file has no incoming
    reference, no pages or routes directory segment, a base name that in
    lower case neither starts with [index.] nor is an entry-point name,
    and is not a Java file with a [src] directory segment. *)
Theorem C6_dead_files_by_segment (all_files : list string)
    (referenced_by : gmap string (gset string)) :
  Sorted str_le (detect_dead_files all_files referenced_by) /\
  (forall f, f ∈ detect_dead_files all_files referenced_by ->
     f ∈ all_files /\ no_incoming referenced_by f) /\
  (forall f,
     ~ leading_segment "pages" f -> ~ leading_segment "routes" f ->
     (detect_language_for_file f = Some "java" -> ~ leading_segment "src" f) ->
     (f ∈ detect_dead_files all_files referenced_by <->
      f ∈ all_files /\ no_incoming referenced_by f /\
      ~ dir_segment "pages" f /\ ~ dir_segment "routes" f /\
      ~ index_named f /\ ~ entry_named f /\
      ~ (detect_language_for_file f = Some "java" /\ dir_segment "src" f))) /\
  (forall f, f ∈ all_files -> no_incoming referenced_by f ->
     ~ dir_segment "pages" f -> ~ dir_segment "routes" f ->
     ~ index_named f -> ~ entry_named f ->
     detect_language_for_file f = Some "java" -> ~ leading_segment "src" f ->
     (dir_segment "src" f -> f ∉ detect_dead_files all_files referenced_by) /\
     (~ dir_segment "src" f -> f ∈ detect_dead_files all_files referenced_by)).
Proof.
  assert (forall f, f ∈ detect_dead_files all_files referenced_by <->
     f ∈ all_files /\ dead_file referenced_by f = true) as Hmem.
  { intros f. unfold detect_dead_files. rewrite elem_of_sorted, list_elem_of_filter.
    tauto. }
  assert (forall f,
     ~ leading_segment "pages" f -> ~ leading_segment "routes" f ->
     (detect_language_for_file f = Some "java" -> ~ leading_segment "src" f) ->
     (f ∈ detect_dead_files all_files referenced_by <->
      f ∈ all_files /\ no_incoming referenced_by f /\
      ~ dir_segment "pages" f /\ ~ dir_segment "routes" f /\
      ~ index_named f /\ ~ entry_named f /\
      ~ (detect_language_for_file f = Some "java" /\ dir_segment "src" f))) as Hexact.
  { intros f Hp Hr Hs. rewrite Hmem, dead_file_spec.
    unfold in_route_dir, in_source_root.
    rewrite (dir_segment_contains "pages" f eq_refl Hp).
    rewrite (dir_segment_contains "routes" f eq_refl Hr).
    change ("/" +:+ "pages" +:+ "/") with "/pages/".
    change ("/" +:+ "routes" +:+ "/") with "/routes/".
    assert (detect_language_for_file f = Some "java" ->
            (contains (path_norm f) "/src/main/" = true
             \/ contains (path_norm f) "/src/" = true) <-> dir_segment "src" f) as Hsrc.
    { intros Hj. rewrite (dir_segment_contains "src" f eq_refl (Hs Hj)).
      change ("/" +:+ "src" +:+ "/") with "/src/". split; [|by right].
      intros [H|H]; [|done]. apply contains_inv in H as (u & v & ->).
      change "/src/main/" with ("/src/" +:+ "main/"). rewrite append_assoc.
      apply contains_app. }
    split.
    - intros (Hin & Hno & Hroute & Hidx & Hent & Hjava).
      split; [done|]. split; [done|]. split; [tauto|]. split; [tauto|].
      split; [done|]. split; [done|].
      intros [Hj Hd]. apply Hjava. split; [done|]. by apply Hsrc.
    - intros (Hin & Hno & Hpg & Hrt & Hidx & Hent & Hjava).
      split; [done|]. split; [done|]. split; [tauto|].
      split; [done|]. split; [done|].
      intros [Hj Hd]. apply Hjava. split; [done|]. by apply Hsrc. }
  split; [apply sorted_Sorted|]. split.
  { intros f [Hin Hd]%Hmem. apply dead_file_spec in Hd. tauto. }
  split; [exact Hexact|].
  intros f Hin Hno Hpg Hrt Hidx Hent Hjava Hlead.
  assert (~ leading_segment "pages" f) as Hp.
  { intros [post [Hs Hne]]. apply Hpg. by exists [], post. }
  assert (~ leading_segment "routes" f) as Hr.
  { intros [post [Hs Hne]]. apply Hrt. by exists [], post. }
  specialize (Hexact f Hp Hr (fun _ => Hlead)). split.
  - intros Hsrc Hdead. apply Hexact in Hdead. tauto.
  - intros Hsrc. apply Hexact. tauto.
Qed.

End DeadBySegment.

(** Two Java files without references that differ only in lying inside or
    outside a source root. *)
Lemma C6_dead_files_by_segment_witness :
  let files := ["app/src/main/Util.java"; "app/lib/Util.java"] in
  ("app/src/main/Util.java" ∉ detect_dead_files files ∅) /\
  ("app/lib/Util.java" ∈ detect_dead_files files ∅).
Proof.
  intros files.
  destruct (C6_dead_files_by_segment files ∅) as (_ & _ & _ & Hpair).
  assert (forall d f, bool_decide (d ∈ removelast (segments f)) = false ->
            ~ dir_segment d f) as Hnot.
  { intros d f H. rewrite dir_segment_elem. by apply bool_decide_eq_false in H. }
  split.
  - apply (Hpair "app/src/main/Util.java").
    + apply list_elem_of_In. simpl. auto.
    + by left.
    + apply Hnot. by vm_compute.
    + apply Hnot. by vm_compute.
    + intros H. vm_compute in H. discriminate.
    + intros H. apply list_elem_of_In in H. vm_compute in H. intuition discriminate.
    + by vm_compute.
    + intros (post & [=] & _).
    + exists ["app"], ["main"; "util.java"]. by vm_compute.
  - apply (Hpair "app/lib/Util.java").
    + apply list_elem_of_In. simpl. auto.
    + by left.
    + apply Hnot. by vm_compute.
    + apply Hnot. by vm_compute.
    + intros H. vm_compute in H. discriminate.
    + intros H. apply list_elem_of_In in H. vm_compute in H. intuition discriminate.
    + by vm_compute.
    + intros (post & [=] & _).
    + apply Hnot. by vm_compute.
Defined.

(** ** The tree *)

Section Tree.
Import FS.

(** Writing below one entry of a directory leaves the other entries. *)
Lemma get_put_other (mk : bool) (t t' v : node) (a b : string) (p q : list string) :
  put mk t (a :: p) v = Some t' -> a <> b -> get t' (b :: q) = get t (b :: q).
Proof.
  destruct t as [|es]; [done|]. cbn [put get]. intros H Hab.
  destruct (es !! a) as [n|].
  - destruct (put mk n p v); [|done]. injection H as <-. cbn [get].
    by rewrite lookup_insert_ne.
  - destruct (mk || _); [|done]. destruct (put mk (Dir ∅) p v); [|done].
    injection H as <-. cbn [get]. by rewrite lookup_insert_ne.
Qed.

(** What exists can be deleted, and is gone afterwards. *)
Lemma del_gone (p : list string) : forall (t n : node),
  p <> [] -> get t p = Some n -> exists t', del t p = Some t' /\ get t' p = None.
Proof.
  induction p as [|x p IH]; intros t n Hne Hget; [done|].
  destruct t as [|es]; [done|]. cbn [get] in Hget.
  destruct (es !! x) as [n'|] eqn:Hx; [|done]. cbn [option_bind mbind] in Hget.
  cbn [del]. destruct p as [|y p].
  - rewrite Hx. eexists. split; [done|]. cbn [get]. by rewrite lookup_delete_eq.
  - rewrite Hx. cbn [mbind option_bind].
    destruct (IH n' n) as (t' & -> & Hgone); [done|done|].
    eexists. split; [done|]. cbn [get]. rewrite lookup_insert_eq. exact Hgone.
Qed.

Lemma del_is_dir (p : list string) (t t' : node) :
  del t p = Some t' -> exists es, t' = Dir es.
Proof.
  destruct p as [|x p]; [done|]. destruct t as [|es]; [done|]. cbn [del].
  destruct p as [|y p].
  - destruct (es !! x); [|done]. intros [= <-]. eauto.
  - destruct (es !! x) as [n|]; [|done]. cbn [mbind option_bind].
    destruct (del n (y :: p)); [|done]. intros [= <-]. eauto.
Qed.

Lemma put_is_dir (mk : bool) (p : list string) (t t' v : node) :
  p <> [] -> put mk t p v = Some t' -> exists es, t' = Dir es.
Proof.
  destruct p as [|x p]; [done|]. intros _. destruct t as [|es]; [done|]. cbn [put].
  destruct (es !! x) as [n|].
  - destruct (put mk n p v); [|done]. intros [= <-]. eauto.
  - destruct (mk || _); [|done]. destruct (put mk (Dir ∅) p v); [|done].
    intros [= <-]. eauto.
Qed.

(** Deleting creates no file. *)
Lemma del_file_only_removes (p : list string) : forall (t t' : node) q d m,
  del t p = Some t' -> get t' q = Some (File d m) -> get t q = Some (File d m).
Proof.
  induction p as [|x p IH]; intros t t' q d m Hdel Hget; [done|].
  destruct t as [|es]; [done|]. cbn [del] in Hdel.
  destruct q as [|y q].
  { assert (exists es', t' = Dir es') as [es' ->]
      by (by eapply (del_is_dir (x :: p) (Dir es))).
    done. }
  destruct p as [|z p].
  - destruct (es !! x) eqn:Hx; [|done]. injection Hdel as <-.
    cbn [get] in *. destruct (decide (x = y)) as [->|Hne].
    + by rewrite lookup_delete_eq in Hget.
    + by rewrite lookup_delete_ne in Hget.
  - destruct (es !! x) as [n'|] eqn:Hx; [|done]. cbn [mbind option_bind] in Hdel.
    destruct (del n' (z :: p)) as [n''|] eqn:Hd; [|done]. injection Hdel as <-.
    cbn [get] in *. destruct (decide (x = y)) as [->|Hne].
    + rewrite lookup_insert_eq in Hget. rewrite Hx. cbn in *.
      by eapply IH.
    + by rewrite lookup_insert_ne in Hget.
Qed.

(** *** The project root and the backup directory *)

Context (top P S : gmap string node).

Lemma root_ne_backup : PROJECT_ROOT <> BACKUP_DIR.
Proof. done. Qed.

Lemma mk_tree_backup (S' : gmap string node) :
  Dir (<[BACKUP_DIR := Dir S']> (<[PROJECT_ROOT := Dir P]> (<[BACKUP_DIR := Dir S]> top)))
  = mk_tree top P S'.
Proof.
  unfold mk_tree. f_equal. rewrite insert_insert_ne by done.
  by rewrite insert_insert_eq.
Qed.

Lemma mk_tree_root (P' : gmap string node) :
  Dir (<[PROJECT_ROOT := Dir P']> (<[PROJECT_ROOT := Dir P]> (<[BACKUP_DIR := Dir S]> top)))
  = mk_tree top P' S.
Proof. unfold mk_tree. f_equal. by rewrite insert_insert_eq. Qed.

Lemma get_root (rel : list string) :
  get (mk_tree top P S) (PROJECT_ROOT :: rel) = get (Dir P) rel.
Proof. unfold mk_tree. cbn [get]. by rewrite lookup_insert_eq. Qed.

Lemma get_backup (rel : list string) :
  get (mk_tree top P S) (BACKUP_DIR :: rel) = get (Dir S) rel.
Proof.
  unfold mk_tree. cbn [get]. rewrite lookup_insert_ne by done.
  by rewrite lookup_insert_eq.
Qed.

Lemma put_root (mk : bool) (rel : list string) (v : node) (P' : gmap string node) :
  put mk (Dir P) rel v = Some (Dir P') ->
  put mk (mk_tree top P S) (PROJECT_ROOT :: rel) v = Some (mk_tree top P' S).
Proof.
  intros H. unfold mk_tree at 1. cbn [put]. rewrite lookup_insert_eq, H.
  cbn [fmap option_fmap option_map]. by rewrite mk_tree_root.
Qed.

Lemma put_backup (mk : bool) (rel : list string) (v : node) (S' : gmap string node) :
  put mk (Dir S) rel v = Some (Dir S') ->
  put mk (mk_tree top P S) (BACKUP_DIR :: rel) v = Some (mk_tree top P S').
Proof.
  intros H. unfold mk_tree at 1. cbn [put]. rewrite lookup_insert_ne by done.
  rewrite lookup_insert_eq, H.
  cbn [fmap option_fmap option_map]. by rewrite mk_tree_backup.
Qed.

Lemma del_root (rel : list string) (P' : gmap string node) :
  rel <> [] -> del (Dir P) rel = Some (Dir P') ->
  del (mk_tree top P S) (PROJECT_ROOT :: rel) = Some (mk_tree top P' S).
Proof.
  intros Hne H. unfold mk_tree at 1. cbn [del]. destruct rel as [|x rel]; [done|].
  rewrite lookup_insert_eq. cbn [mbind option_bind]. rewrite H.
  cbn [fmap option_fmap option_map]. by rewrite mk_tree_root.
Qed.

Lemma del_backup (rel : list string) (S' : gmap string node) :
  rel <> [] -> del (Dir S) rel = Some (Dir S') ->
  del (mk_tree top P S) (BACKUP_DIR :: rel) = Some (mk_tree top P S').
Proof.
  intros Hne H. unfold mk_tree at 1. cbn [del]. destruct rel as [|x rel]; [done|].
  rewrite lookup_insert_ne by done. rewrite lookup_insert_eq.
  cbn [mbind option_bind]. rewrite H.
  cbn [fmap option_fmap option_map]. by rewrite mk_tree_backup.
Qed.

End Tree.

(** ** The calls of the tool on the two directories *)

Section Calls.
Import FS.
Context (top P S : gmap string node).

Lemma components_root : components PROJECT_ROOT = Some [PROJECT_ROOT].
Proof. reflexivity. Qed.

Lemma components_backup : components BACKUP_DIR = Some [BACKUP_DIR].
Proof. reflexivity. Qed.

Lemma components_root_entry (k : string) :
  plain k = true -> components (join PROJECT_ROOT k) = Some [PROJECT_ROOT; k].
Proof. intros Hk. by apply (components_join_plain PROJECT_ROOT k [PROJECT_ROOT]). Qed.

Lemma components_backup_entry (d : string) :
  plain d = true -> components (join BACKUP_DIR d) = Some [BACKUP_DIR; d].
Proof. intros Hd. by apply (components_join_plain BACKUP_DIR d [BACKUP_DIR]). Qed.

Lemma components_snapshot_entry (d item : string) :
  plain d = true -> plain item = true ->
  components (join (join BACKUP_DIR d) item) = Some [BACKUP_DIR; d; item].
Proof.
  intros Hd Hi.
  destruct (join_plain_endswith BACKUP_DIR d) as [Ht He]; [done..|].
  apply (components_join_plain _ item [BACKUP_DIR; d]); [done..| |done].
  by apply components_backup_entry.
Qed.

Lemma listdir_root :
  listdir (mk_tree top P S) PROJECT_ROOT = Some (map fst (map_to_list P)).
Proof.
  unfold listdir, lookup. rewrite components_root. cbn [mbind option_bind].
  by rewrite get_root.
Qed.

Lemma listdir_backup :
  listdir (mk_tree top P S) BACKUP_DIR = Some (map fst (map_to_list S)).
Proof.
  unfold listdir, lookup. rewrite components_backup. cbn [mbind option_bind].
  by rewrite get_backup.
Qed.

Lemma isdir_backup_entry (d : string) :
  plain d = true -> isdir (mk_tree top P S) (join BACKUP_DIR d) = dir_key S d.
Proof.
  intros Hd. unfold isdir, lookup, dir_key. rewrite components_backup_entry by done.
  cbn [mbind option_bind]. rewrite get_backup. cbn [get].
  destruct (S !! d) as [[]|]; done.
Qed.

Lemma rmtree_backup_entry (d : string) :
  plain d = true -> dir_key S d = true ->
  rmtree (mk_tree top P S) (join BACKUP_DIR d) = Some (mk_tree top P (delete d S)).
Proof.
  intros Hd Hk. unfold rmtree, dir_key in *. rewrite components_backup_entry by done.
  cbn [mbind option_bind]. rewrite get_backup. cbn [get].
  destruct (S !! d) as [[|es]|] eqn:HS; try done. cbn [mbind option_bind].
  apply del_backup; [done|]. cbn [del]. by rewrite HS.
Qed.

Lemma rmtree_backup_entry_none (d : string) :
  plain d = true -> dir_key S d = false ->
  rmtree (mk_tree top P S) (join BACKUP_DIR d) = None.
Proof.
  intros Hd Hk. unfold rmtree, dir_key in *. rewrite components_backup_entry by done.
  cbn [mbind option_bind]. rewrite get_backup. cbn [get].
  destruct (S !! d) as [[|es]|] eqn:HS; done.
Qed.

(** The first loop of [undo_last] on one entry. *)
Lemma clear_entry_root (k : string) :
  plain k = true ->
  clear_entry (mk_tree top P S) k = mk_tree top (delete k P) S.
Proof.
  intros Hk. unfold clear_entry, isdir, rmtree, remove, lookup.
  rewrite components_root_entry by done. cbn [mbind option_bind].
  rewrite get_root. cbn [get].
  destruct (P !! k) as [n|] eqn:HP; cbn [mbind option_bind].
  - assert (del (mk_tree top P S) [PROJECT_ROOT; k]
            = Some (mk_tree top (delete k P) S)) as Hdel.
    { apply del_root; [done|]. cbn [del]. by rewrite HP. }
    destruct n; by rewrite Hdel.
  - rewrite delete_id by done. done.
Qed.

(** Copying the project into a fresh snapshot directory. *)
Lemma copytree_snapshot (d : string) :
  plain d = true -> S !! d = None ->
  copytree (mk_tree top P S) PROJECT_ROOT (join BACKUP_DIR d)
  = Some (mk_tree top P (<[d := Dir P]> S)).
Proof.
  intros Hd HS. unfold copytree. rewrite components_root.
  rewrite components_backup_entry by done. cbn [mbind option_bind].
  rewrite get_root, get_backup. cbn [get]. rewrite HS. cbn [mbind option_bind].
  rewrite bool_decide_eq_false_2.
  2:{ intros [l Hl]. by injection Hl. }
  apply put_backup. cbn [put]. rewrite HS. done.
Qed.

Lemma copytree_snapshot_exists (d : string) :
  plain d = true -> is_Some (S !! d) ->
  copytree (mk_tree top P S) PROJECT_ROOT (join BACKUP_DIR d) = None.
Proof.
  intros Hd [n HS]. unfold copytree. rewrite components_root.
  rewrite components_backup_entry by done. cbn [mbind option_bind].
  rewrite get_root, get_backup. cbn [get]. rewrite HS. done.
Qed.

(** Writing a file into a snapshot directory. *)
Lemma write_snapshot_entry (d item data : string) (now : Z) (Q : gmap string node) :
  plain d = true -> plain item = true -> S !! d = Some (Dir Q) ->
  write_text (mk_tree top P S) (join (join BACKUP_DIR d) item) data now
  = if dir_key Q item then None
    else Some (mk_tree top P (<[d := Dir (<[item := File data now]> Q)]> S)).
Proof.
  intros Hd Hi HS. unfold write_text, dir_key.
  rewrite components_snapshot_entry by done. cbn [mbind option_bind].
  rewrite get_backup. cbn [get]. rewrite HS. cbn [mbind option_bind].
  assert (put false (mk_tree top P S) [BACKUP_DIR; d; item] (File data now)
          = Some (mk_tree top P (<[d := Dir (<[item := File data now]> Q)]> S))) as Hput.
  { apply put_backup. cbn [put]. rewrite HS. cbn [fmap option_fmap option_map].
    destruct (Q !! item); done. }
  destruct (Q !! item) as [[]|]; done.
Qed.

(** Copying one entry of a snapshot back into the emptied project root. *)
Lemma restore_entry (d item : string) (Q : gmap string node) (n : node) :
  plain d = true -> plain item = true -> S !! d = Some (Dir Q) ->
  Q !! item = Some n -> P !! item = None ->
  (if isdir (mk_tree top P S) (join (join BACKUP_DIR d) item)
   then copytree (mk_tree top P S) (join (join BACKUP_DIR d) item)
          (join PROJECT_ROOT item)
   else copy2 (mk_tree top P S) (join (join BACKUP_DIR d) item)
          (join PROJECT_ROOT item))
  = Some (mk_tree top (<[item := n]> P) S).
Proof.
  intros Hd Hi HS HQ HP.
  assert (get (mk_tree top P S) [BACKUP_DIR; d; item] = Some n) as Hsrc.
  { rewrite get_backup. cbn [get]. rewrite HS. cbn [mbind option_bind].
    by rewrite HQ. }
  assert (get (mk_tree top P S) [PROJECT_ROOT; item] = None) as Hdst.
  { rewrite get_root. cbn [get]. by rewrite HP. }
  assert (forall mk, put mk (mk_tree top P S) [PROJECT_ROOT; item] n
                     = Some (mk_tree top (<[item := n]> P) S)) as Hput.
  { intros mk. apply put_root. cbn [put]. rewrite HP.
    by rewrite bool_decide_eq_true_2, orb_true_r. }
  unfold isdir, copytree, copy2, lookup.
  rewrite components_snapshot_entry, components_root_entry by done.
  cbn [mbind option_bind]. rewrite Hsrc. destruct n as [data m|es].
  - unfold isdir, lookup. rewrite components_root_entry by done.
    cbn [mbind option_bind]. rewrite Hdst.
    rewrite components_root_entry by done. cbn [mbind option_bind].
    by rewrite Hdst.
  - rewrite Hdst. rewrite bool_decide_eq_false_2; [done|].
    intros [l Hl]. by injection Hl.
Qed.

End Calls.

(** ** Listing and trimming snapshots *)

Section Snapshots.
Import FS.

Lemma ascii_compare_refl (a : ascii) : Ascii.compare a a = Eq.
Proof. unfold Ascii.compare. apply N.compare_refl. Qed.

Lemma compare_refl (s : string) : String.compare s s = Eq.
Proof.
  induction s as [|a s IH]; [done|]. cbn [String.compare].
  rewrite ascii_compare_refl. exact IH.
Qed.

Lemma leb_refl (s : string) : String.leb s s = true.
Proof. unfold String.leb. by rewrite compare_refl. Qed.

Lemma ltb_leb (a b : string) : String.ltb a b = true -> String.leb a b = true.
Proof. unfold String.ltb, String.leb. by destruct (String.compare a b). Qed.

Lemma ltb_irrefl (a : string) : String.ltb a a = false.
Proof. unfold String.ltb. by rewrite compare_refl. Qed.

Lemma ltb_trans (a b c : string) :
  String.ltb a b = true -> String.ltb b c = true -> String.ltb a c = true.
Proof.
  unfold String.ltb. intros H1 H2.
  destruct (String.compare a b) eqn:E1; try done.
  destruct (String.compare b c) eqn:E2; try done.
  by rewrite (compare_trans_lt _ _ _ E1 E2).
Qed.

(** A common prefix does not change the order. *)
Lemma compare_app (p a b : string) :
  String.compare (p +:+ a) (p +:+ b) = String.compare a b.
Proof.
  induction p as [|c p IH]; [done|]. rewrite !append_cons. cbn [String.compare].
  rewrite ascii_compare_refl. exact IH.
Qed.

Lemma Sorted_ge_map_prefix (p : string) (l : list string) :
  Sorted str_ge l -> Sorted str_ge (map (String.append p) l).
Proof.
  induction 1 as [|x l Hl IH Hhd]; cbn [map]; constructor; [done|].
  destruct Hhd as [|y l Hxy]; cbn [map]; constructor.
  unfold str_ge, String.leb in *. by rewrite compare_app.
Qed.

Lemma sorted_rev_map_prefix (p : string) (l : list string) :
  sorted_rev (map (String.append p) l) = map (String.append p) (sorted_rev l).
Proof.
  apply sorted_rev_unique.
  - apply Sorted_ge_map_prefix, sorted_rev_Sorted.
  - apply fmap_Permutation. unfold sorted_rev. apply merge_sort_Permutation.
Qed.

Lemma Sorted_ge_filter (f : string -> bool) (l : list string) :
  Sorted str_ge l -> Sorted str_ge (filter (fun x => f x = true) l).
Proof.
  intros Hs. apply Sorted_StronglySorted in Hs; [|apply _].
  apply StronglySorted_Sorted.
  induction Hs as [|x l Hl IH Hall]; [constructor|].
  rewrite filter_cons. destruct (decide (f x = true)); [|done].
  constructor; [done|]. apply Forall_forall. intros y Hy.
  apply list_elem_of_filter in Hy as [_ Hy].
  by eapply Forall_forall in Hall.
Qed.

Lemma join_backup_plain (d : string) :
  plain d = true -> join BACKUP_DIR d = (BACKUP_DIR +:+ "/") +:+ d.
Proof. intros Hd. rewrite join_plain by done. by rewrite append_assoc. Qed.

Context (top P : gmap string node).

(** [list_snapshots] on a backup directory with well-formed names. *)
Lemma list_snapshots_view (S : gmap string node) :
  plain_keys S ->
  list_snapshots (mk_tree top P S) = map (join BACKUP_DIR) (snapshot_dirs S).
Proof.
  intros Hpl. unfold list_snapshots, snapshot_dirs. rewrite listdir_backup.
  set (keys := map fst (map_to_list S)).
  assert (forall d, d ∈ keys -> plain d = true) as Hkeys.
  { intros d Hd. apply Hpl. subst keys. apply list_elem_of_fmap in Hd as ([k v] & -> & Hkv).
    apply elem_of_map_to_list in Hkv. by eexists. }
  assert (forall l, (forall d, d ∈ l -> plain d = true) ->
            map (join BACKUP_DIR) l = map (String.append (BACKUP_DIR +:+ "/")) l) as Hmap.
  { intros l Hl. apply map_ext_in. intros d Hd%list_elem_of_In.
    apply join_backup_plain. by apply Hl. }
  rewrite (Hmap keys Hkeys), sorted_rev_map_prefix.
  assert (forall d, d ∈ sorted_rev keys -> plain d = true) as Hkeys'.
  { intros d Hd. apply Hkeys. by apply elem_of_sorted_rev. }
  rewrite <-(Hmap _ Hkeys').
  revert Hkeys'. generalize (sorted_rev keys). intros l Hl.
  induction l as [|d l IH]; [done|]. cbn [map].
  rewrite !filter_cons. rewrite isdir_backup_entry by (apply Hl; left).
  rewrite IH by (intros d' Hd'; apply Hl; by right).
  destruct (decide (dir_key S d = true)); done.
Qed.

Lemma snapshot_dirs_Sorted (S : gmap string node) : Sorted str_ge (snapshot_dirs S).
Proof. apply Sorted_ge_filter, sorted_rev_Sorted. Qed.

Lemma elem_of_snapshot_dirs (S : gmap string node) (d : string) :
  d ∈ snapshot_dirs S <-> dir_key S d = true.
Proof.
  unfold snapshot_dirs. rewrite list_elem_of_filter, elem_of_sorted_rev.
  split; [by intros [? _]|]. intros Hd. split; [done|].
  unfold dir_key in Hd. destruct (S !! d) as [n|] eqn:HS; [|done].
  apply list_elem_of_fmap. exists (d, n). split; [done|].
  by apply elem_of_map_to_list.
Qed.

Lemma snapshot_dirs_NoDup (S : gmap string node) : NoDup (snapshot_dirs S).
Proof.
  unfold snapshot_dirs. apply NoDup_filter.
  unfold sorted_rev. rewrite merge_sort_Permutation.
  apply NoDup_fst_map_to_list.
Qed.

(** A descending list without repetition is determined by its elements. *)
Lemma sorted_ge_ext (l1 l2 : list string) :
  Sorted str_ge l1 -> Sorted str_ge l2 -> NoDup l1 -> NoDup l2 ->
  (forall x, x ∈ l1 <-> x ∈ l2) -> l1 = l2.
Proof.
  intros H1 H2 N1 N2 Hext. apply (Sorted_unique str_ge); [done..|].
  by apply NoDup_Permutation.
Qed.

(** A new directory with a name after all others comes first. *)
Lemma snapshot_dirs_insert_top (S : gmap string node) (d : string)
    (Q : gmap string node) :
  (forall k, is_Some (S !! k) -> str_lt k d) ->
  snapshot_dirs (<[d := Dir Q]> S) = d :: snapshot_dirs S.
Proof.
  intros Hlt.
  assert (S !! d = None) as Hfresh.
  { destruct (S !! d) eqn:HS; [|done]. exfalso.
    assert (str_lt d d) as H by (apply Hlt; by eexists).
    unfold str_lt in H. by rewrite ltb_irrefl in H. }
  assert (forall k, dir_key (<[d := Dir Q]> S) k = true
                    <-> k = d \/ dir_key S k = true) as Hkey.
  { intros k. unfold dir_key. rewrite lookup_insert. case_decide as Hk.
    - subst. split; [by left|done].
    - split; [by right|]. by intros [?|?]; [congruence|]. }
  apply sorted_ge_ext.
  - apply snapshot_dirs_Sorted.
  - constructor; [apply snapshot_dirs_Sorted|].
    destruct (snapshot_dirs S) as [|k l] eqn:Hl; constructor.
    assert (k ∈ snapshot_dirs S) as Hk by (rewrite Hl; left).
    apply elem_of_snapshot_dirs in Hk. unfold dir_key in Hk.
    destruct (S !! k) eqn:HS; [|done].
    unfold str_ge. apply ltb_leb, Hlt. by eexists.
  - apply snapshot_dirs_NoDup.
  - constructor; [|apply snapshot_dirs_NoDup].
    rewrite elem_of_snapshot_dirs. unfold dir_key. by rewrite Hfresh.
  - intros k. rewrite elem_of_cons, !elem_of_snapshot_dirs. apply Hkey.
Qed.

(** Removing directories from the backup directory removes them from the
    listing. *)
Lemma fold_rmtree_view (l : list string) : forall (S : gmap string node),
  plain_keys S -> NoDup l -> (forall d, d ∈ l -> dir_key S d = true) ->
  fold_left try_rmtree (map (join BACKUP_DIR) l) (mk_tree top P S)
  = mk_tree top P (foldr delete S l).
Proof.
  induction l as [|d l IH]; intros S Hpl Hnd Hl; [done|]. cbn [map fold_left foldr].
  apply NoDup_cons in Hnd as [Hd Hnd].
  assert (plain d = true) as Hplain.
  { apply Hpl. specialize (Hl d (list_elem_of_here _ _)). unfold dir_key in Hl.
    destruct (S !! d); [by eexists|done]. }
  unfold try_rmtree at 2.
  rewrite rmtree_backup_entry by (try done; apply Hl; left).
  cbn [default from_option]. unfold id.
  rewrite IH.
  - f_equal. clear. revert S. induction l as [|x l IH]; intros S; [done|].
    cbn [foldr]. rewrite IH. apply delete_delete.
  - intros k [n Hk]. apply Hpl. apply lookup_delete_Some in Hk as [_ Hk]. by eexists.
  - done.
  - intros k Hk. unfold dir_key. rewrite lookup_delete_ne by (intros ->; done).
    apply Hl. by right.
Qed.

Lemma lookup_foldr_delete (l : list string) (S : gmap string node) (k : string) :
  foldr delete S l !! k = if bool_decide (k ∈ l) then None else S !! k.
Proof.
  induction l as [|d l IH]; [done|]. cbn [foldr].
  destruct (decide (d = k)) as [->|Hne].
  - rewrite lookup_delete_eq. by rewrite bool_decide_eq_true_2 by left.
  - rewrite lookup_delete_ne by done. rewrite IH.
    destruct (decide (k ∈ l)) as [Hk|Hk].
    + rewrite !bool_decide_eq_true_2; [done|by right|done].
    + rewrite !bool_decide_eq_false_2; [done| |done].
      intros [?|?]%elem_of_cons; congruence.
Qed.

(** [trim_snapshots] keeps the first [ALLOW_UNDO_COUNT] snapshot
    directories of the listing and removes the others. *)
Lemma trim_view (S : gmap string node) :
  plain_keys S ->
  exists S', trim_snapshots (mk_tree top P S) = mk_tree top P S' /\
    plain_keys S' /\
    snapshot_dirs S' = take ALLOW_UNDO_COUNT (snapshot_dirs S) /\
    (forall k, is_Some (S' !! k) -> is_Some (S !! k)) /\
    (forall k, k ∈ take ALLOW_UNDO_COUNT (snapshot_dirs S) -> S' !! k = S !! k).
Proof.
  intros Hpl. unfold trim_snapshots. rewrite list_snapshots_view by done.
  rewrite length_map.
  destruct (length (snapshot_dirs S) <=? ALLOW_UNDO_COUNT)%nat eqn:Hlen.
  { exists S. apply Nat.leb_le in Hlen. rewrite take_ge by done. done. }
  rewrite skipn_map.
  pose proof (snapshot_dirs_NoDup S) as Hnd.
  rewrite <-(take_drop ALLOW_UNDO_COUNT (snapshot_dirs S)) in Hnd.
  apply NoDup_app in Hnd as (Hnd1 & Hdisj & Hnd2).
  assert (forall d, d ∈ drop ALLOW_UNDO_COUNT (snapshot_dirs S) -> dir_key S d = true)
    as Hdrop.
  { intros d Hd. apply elem_of_snapshot_dirs.
    rewrite <-(take_drop ALLOW_UNDO_COUNT (snapshot_dirs S)). apply elem_of_app. by right. }
  rewrite fold_rmtree_view by done.
  set (gone := drop ALLOW_UNDO_COUNT (snapshot_dirs S)) in *.
  eexists. split; [done|].
  assert (forall k, is_Some (foldr delete S gone !! k) -> is_Some (S !! k)) as Hsub.
  { intros k. rewrite lookup_foldr_delete. by case_bool_decide; [intros []|]. }
  split; [|split; [|split]].
  - intros k Hk. by apply Hpl, Hsub.
  - apply sorted_ge_ext.
    + apply snapshot_dirs_Sorted.
    + pose proof (snapshot_dirs_Sorted S) as Hs.
      rewrite <-(take_drop ALLOW_UNDO_COUNT (snapshot_dirs S)) in Hs.
      apply Sorted_StronglySorted in Hs; [|apply _].
      apply StronglySorted_app in Hs as (_ & Hs & _).
      by apply StronglySorted_Sorted.
    + apply snapshot_dirs_NoDup.
    + done.
    + intros k. rewrite elem_of_snapshot_dirs. unfold dir_key.
      rewrite lookup_foldr_delete. case_bool_decide as Hk.
      * split; [done|]. intros Hk'. by apply Hdisj in Hk'.
      * fold (dir_key S k). rewrite <-elem_of_snapshot_dirs.
        rewrite <-(take_drop ALLOW_UNDO_COUNT (snapshot_dirs S)) at 1.
        rewrite elem_of_app. fold gone. tauto.
  - done.
  - intros k Hk. rewrite lookup_foldr_delete.
    rewrite bool_decide_eq_false_2; [done|]. intros Hk'. by apply (Hdisj k).
Qed.

End Snapshots.

(** ** Creating snapshots *)

Section Create.
Import FS.
Context (top P : gmap string node).

Lemma fs_set_fs (w : world) (t : node) : fs (set_fs w t) = t.
Proof. done. Qed.

(** A successful [create_snapshot]: the project is copied under the new
    name, the metadata file is written into the copy, the listing is
    trimmed. *)
Lemma create_snapshot_view (ts label : string) (w : world) (S : gmap string node) :
  fs w = mk_tree top P S -> plain_keys S ->
  plain (snapshot_name ts label) = true ->
  S !! snapshot_name ts label = None ->
  dir_key P SNAPSHOT_META = false ->
  exists S',
    create_snapshot ts label w
      = (join BACKUP_DIR (snapshot_name ts label), set_fs w (mk_tree top P S')) /\
    plain_keys S' /\
    snapshot_dirs S'
      = take ALLOW_UNDO_COUNT
          (snapshot_dirs
             (<[snapshot_name ts label :=
                  Dir (<[SNAPSHOT_META := File (json_meta label ts) (clock w)]> P)]> S)) /\
    (forall k, is_Some (S' !! k) -> k = snapshot_name ts label \/ is_Some (S !! k)) /\
    (forall k, k ∈ snapshot_dirs S' ->
       S' !! k = (<[snapshot_name ts label :=
                      Dir (<[SNAPSHOT_META := File (json_meta label ts) (clock w)]> P)]> S) !! k).
Proof.
  intros Hfs Hpl Hname Hfresh Hmeta. unfold create_snapshot. rewrite Hfs.
  set (nm := snapshot_name ts label) in *.
  rewrite copytree_snapshot by done.
  rewrite (write_snapshot_entry top P _ nm SNAPSHOT_META _ _ P);
    [|done|done|by rewrite lookup_insert_eq].
  rewrite Hmeta. rewrite insert_insert_eq.
  set (S1 := <[nm := Dir (<[SNAPSHOT_META := File (json_meta label ts) (clock w)]> P)]> S).
  assert (plain_keys S1) as Hpl1.
  { intros k [n Hk]. subst S1. apply lookup_insert_Some in Hk as [[<- _]|[_ Hk]]; [done|].
    apply Hpl. by eexists. }
  destruct (trim_view top P S1 Hpl1) as (S' & Htrim & Hpl' & Hdirs & Hsub & Hkeep).
  exists S'. rewrite Htrim. split; [done|]. split; [done|].
  split; [done|]. split.
  - intros k Hk. apply Hsub in Hk as [n Hk]. subst S1.
    apply lookup_insert_Some in Hk as [[<- _]|[_ Hk]]; [by left|right; by eexists].
  - intros k Hk. apply Hkeep. by rewrite <-Hdirs.
Qed.

Lemma take_app_take {A : Type} (n : nat) (a b : list A) :
  take n (a ++ take n b) = take n (a ++ b).
Proof.
  rewrite !take_app, take_take. f_equal. f_equal. lia.
Qed.

End Create.

(** C4, refuted as stated: twelve snapshots are taken, then the clock is
    set back and a thirteenth is taken.  The call succeeds and returns its
    path, but the name sorts below the twelve others, so the trimming that
    follows removes the snapshot just made: the listing holds the twelve
    older ones and not the most recent. *)
Lemma C4_clock_set_back_counterexample :
  let r := run_snapshots clock_set_back small_project in
  last (fst r) = Some "backup_snapshots/20261101_010500x" /\
  length (list_snapshots (fs (snd r))) = 12%nat /\
  ("backup_snapshots/20261101_010500x" ∉ list_snapshots (fs (snd r))) /\
  list_snapshots (fs (snd r)) = rev (take 12 (fst r)).
Proof.
  vm_compute. split; [done|]. split; [done|]. split; [|done].
  intros H. apply list_elem_of_In in H. simpl in H.
  repeat (destruct H as [H|H]; [discriminate H|]). done.
Qed.

Section Retention.
Import FS.
Context (top P : gmap string node).

Lemma fold_retain (names : list string) : forall L,
  names <> [] ->
  fold_left retain names L = take ALLOW_UNDO_COUNT (rev names ++ L).
Proof.
  induction names as [|n names IH]; intros L Hne; [done|]. cbn [fold_left rev].
  destruct names as [|n' names]; [done|].
  rewrite IH by done. unfold retain. rewrite take_app_take.
  by rewrite <-app_assoc.
Qed.

Lemma run_snapshots_view (calls : list (string * string)) :
  forall (w : world) (S : gmap string node),
  fs w = mk_tree top P S -> plain_keys S -> dir_key P SNAPSHOT_META = false ->
  Forall (fun c => plain (call_name c) = true) calls ->
  StronglySorted str_lt (map call_name calls) ->
  (forall k c, is_Some (S !! k) -> c ∈ calls -> str_lt k (call_name c)) ->
  fst (run_snapshots calls w) = map (fun c => join BACKUP_DIR (call_name c)) calls /\
  exists S', fs (snd (run_snapshots calls w)) = mk_tree top P S' /\
    plain_keys S' /\
    snapshot_dirs S' = fold_left retain (map call_name calls) (snapshot_dirs S).
Proof.
  induction calls as [|c calls IH]; intros w S Hfs Hpl Hmeta Hplain Hsorted Hlt.
  { split; [done|]. exists S. done. }
  apply Forall_cons in Hplain as [Hc Hplain].
  cbn [map] in Hsorted. apply StronglySorted_inv in Hsorted as [Hsorted Hall].
  assert (forall k, is_Some (S !! k) -> str_lt k (call_name c)) as Hltc.
  { intros k Hk. apply Hlt; [done|left]. }
  assert (S !! call_name c = None) as Hfresh.
  { destruct (S !! call_name c) eqn:HS; [|done]. exfalso.
    assert (str_lt (call_name c) (call_name c)) as H by (apply Hltc; by eexists).
    unfold str_lt in H. by rewrite ltb_irrefl in H. }
  destruct (create_snapshot_view top P (fst c) (snd c) w S Hfs Hpl Hc Hfresh Hmeta)
    as (S1 & Hcreate & Hpl1 & Hdirs1 & Hkeys1 & _).
  rewrite snapshot_dirs_insert_top in Hdirs1 by done.
  cbn [run_snapshots fst snd]. rewrite Hcreate. cbn [fst snd].
  destruct (IH (set_fs w (mk_tree top P S1)) S1) as (Hret & S' & Hfs' & Hpl' & Hdirs');
    [done|done|done|done|done| |].
  { intros k c' Hk Hc'. apply Hkeys1 in Hk as [->|Hk].
    - eapply Forall_forall in Hall; [exact Hall|]. apply list_elem_of_fmap. eauto.
    - apply Hlt; [done|by right]. }
  split; [by rewrite Hret|]. exists S'. split; [done|]. split; [done|].
  rewrite Hdirs'. cbn [map fold_left]. by rewrite Hdirs1.
Qed.

End Retention.

(** C4, amended.  The listing is by directory name, greatest first, and
    the trimming after each successful creation keeps the first
    [ALLOW_UNDO_COUNT] names of it.  Take a working directory that holds
    the project root and the backup directory, the entries of the backup
    directory bearing plain names and the project root holding no
    directory called [.snapshot_meta.json] (with one, every call copies
    the project, fails on the metadata file and trims nothing).  Then, when
    the names of the snapshots increase with the time of creation (and are
    single directory names, after the names already in the backup
    directory), every call returns its path and the listing afterwards is
    the most recently created snapshots, newest first, cut to the
    retention count, after every call of the sequence. *)
Theorem C4_retention_by_name (calls : list (string * string)) (w : world)
    (top P S : gmap string FS.node) :
  fs w = mk_tree top P S -> plain_keys S -> dir_key P SNAPSHOT_META = false ->
  Forall (fun c => plain (call_name c) = true) calls ->
  StronglySorted str_lt (map call_name calls) ->
  (forall k c, is_Some (S !! k) -> c ∈ calls -> str_lt k (call_name c)) ->
  calls <> [] ->
  let r := run_snapshots calls w in
  fst r = map (fun c => join BACKUP_DIR (call_name c)) calls /\
  list_snapshots (fs (snd r))
    = take ALLOW_UNDO_COUNT (rev (fst r) ++ list_snapshots (fs w)) /\
  length (list_snapshots (fs (snd r))) <= ALLOW_UNDO_COUNT /\
  (ALLOW_UNDO_COUNT <= length calls ->
   list_snapshots (fs (snd r)) = take ALLOW_UNDO_COUNT (rev (fst r))).
Proof.
  intros Hfs Hpl Hmeta Hplain Hsorted Hlt Hne r.
  destruct (run_snapshots_view top P calls w S Hfs Hpl Hmeta Hplain Hsorted Hlt)
    as (Hret & S' & Hfs' & Hpl' & Hdirs').
  subst r. split; [done|].
  assert (list_snapshots (fs (snd (run_snapshots calls w)))
          = take ALLOW_UNDO_COUNT
              (rev (fst (run_snapshots calls w)) ++ list_snapshots (fs w))) as Hlist.
  { rewrite Hfs', Hfs, !list_snapshots_view, Hdirs', Hret by done.
    rewrite fold_retain by (by destruct calls).
    rewrite <-firstn_map, map_app, map_rev, map_map. done. }
  split; [done|]. split.
  - rewrite Hlist, length_take. lia.
  - intros Hlen. rewrite Hlist. apply take_app_le.
    rewrite length_rev, Hret, length_map. done.
Qed.

(** Thirteen snapshots taken a second apart from an empty backup
    directory: the twelve last are listed, newest first. *)
Lemma C4_retention_by_name_witness :
  list_snapshots (fs (snd (run_snapshots thirteen_calls small_project)))
  = take 12 (rev (fst (run_snapshots thirteen_calls small_project))).
Proof.
  refine (proj2 (proj2 (proj2
    (C4_retention_by_name thirteen_calls small_project ∅
       {[ "a.js" := FS.File "one" 1 ]} ∅ _ _ _ _ _ _ _))) _).
  - reflexivity.
  - intros k [n Hk]. by rewrite lookup_empty in Hk.
  - by vm_compute.
  - apply (bool_decide_unpack _). by vm_compute.
  - apply (bool_decide_unpack _). by vm_compute.
  - intros k c [n Hk]. by rewrite lookup_empty in Hk.
  - done.
  - vm_compute. lia.
Defined.

(** ** Undo *)

Section Undo.
Import FS.
Context (top : gmap string node).

Lemma append_inj (p a b : string) : p +:+ a = p +:+ b -> a = b.
Proof.
  induction p as [|c p IH]; [done|]. rewrite !append_cons. intros [= H]. by apply IH.
Qed.

Lemma join_backup_inj (a b : string) :
  plain a = true -> plain b = true -> join BACKUP_DIR a = join BACKUP_DIR b -> a = b.
Proof.
  intros Ha Hb. rewrite !join_backup_plain by done. apply append_inj.
Qed.

Lemma plain_meta : plain SNAPSHOT_META = true.
Proof. reflexivity. Qed.

(** Deleting below a directory adds no entry to it. *)
Lemma del_keys (rel : list string) (P P2 : gmap string node) (k : string) :
  del (Dir P) rel = Some (Dir P2) -> is_Some (P2 !! k) -> is_Some (P !! k).
Proof.
  destruct rel as [|x rel]; [done|]. cbn [del]. destruct rel as [|y rel].
  - destruct (P !! x) eqn:Hx; [|done]. intros [= <-] [n2 Hk].
    apply lookup_delete_Some in Hk as [_ Hk]. by eexists.
  - destruct (P !! x) as [n'|] eqn:Hx; [|done]. cbn [mbind option_bind].
    destruct (del n' (y :: rel)); [|done]. intros [= <-] [n2 Hk].
    apply lookup_insert_Some in Hk as [[<- _]|[_ Hk]]; by eexists.
Qed.

(** The first loop of [undo_last] empties the project root. *)
Lemma clear_entries_view (l : list string) : forall (Pc S : gmap string node),
  (forall k, k ∈ l -> plain k = true) ->
  fold_left clear_entry l (mk_tree top Pc S) = mk_tree top (foldr delete Pc l) S.
Proof.
  induction l as [|k l IH]; intros Pc S Hl; [done|]. cbn [fold_left foldr].
  rewrite clear_entry_root by (apply Hl; left).
  rewrite IH by (intros k' Hk'; apply Hl; by right).
  f_equal. clear. revert Pc. induction l as [|x l IH]; intros Pc; [done|].
  cbn [foldr]. rewrite IH. apply delete_delete.
Qed.

Lemma clear_all (Pc S : gmap string node) :
  plain_keys Pc ->
  fold_left clear_entry (map fst (map_to_list Pc)) (mk_tree top Pc S)
  = mk_tree top ∅ S.
Proof.
  intros Hpl. rewrite clear_entries_view.
  - f_equal. apply map_eq. intros k. rewrite lookup_foldr_delete, lookup_empty.
    case_bool_decide as Hk; [done|].
    destruct (Pc !! k) as [n|] eqn:HP; [|done]. exfalso. apply Hk.
    apply list_elem_of_fmap. exists (k, n). split; [done|].
    by apply elem_of_map_to_list.
  - intros k Hk. apply Hpl. apply list_elem_of_fmap in Hk as ([k' n] & -> & Hk).
    apply elem_of_map_to_list in Hk. by eexists.
Qed.

(** The second loop of [undo_last] copies every entry of the snapshot but
    the metadata file. *)
Lemma restore_items_view (d : string) (Q S : gmap string node) (l : list string) :
  forall (Pc : gmap string node),
  plain d = true -> S !! d = Some (Dir Q) -> NoDup l ->
  (forall k, k ∈ l -> plain k = true /\ is_Some (Q !! k) /\ Pc !! k = None) ->
  restore_items (join BACKUP_DIR d) l (mk_tree top Pc S)
  = (true, mk_tree top (fold_left (restored Q) l Pc) S).
Proof.
  induction l as [|item l IH]; intros Pc Hd HS Hnd Hl; [done|].
  apply NoDup_cons in Hnd as [Hitem Hnd].
  destruct (Hl item) as (Hplain & [n HQ] & HP); [left|].
  cbn [restore_items fold_left]. unfold restored at 2.
  case_bool_decide as Hmeta.
  - apply IH; [done..|]. intros k Hk. apply Hl. by right.
  - rewrite (restore_entry top Pc S d item Q n) by done. rewrite HQ.
    apply IH; [done..|]. intros k Hk. destruct (Hl k) as (? & ? & ?); [by right|].
    split; [done|]. split; [done|]. rewrite lookup_insert_ne; [done|].
    intros ->. done.
Qed.

Lemma lookup_fold_restored (Q : gmap string node) (l : list string) :
  forall (Pc : gmap string node) (k : string),
  fold_left (restored Q) l Pc !! k
  = if bool_decide (k ∈ l /\ k <> SNAPSHOT_META /\ is_Some (Q !! k))
    then Q !! k else Pc !! k.
Proof.
  induction l as [|item l IH]; intros Pc k; cbn [fold_left].
  { rewrite bool_decide_eq_false_2; [done|]. by intros [?%elem_of_nil _]. }
  rewrite IH. unfold restored.
  destruct (decide (k ∈ l /\ k <> SNAPSHOT_META /\ is_Some (Q !! k))) as [Hk|Hk].
  { rewrite !bool_decide_eq_true_2; [done| |done].
    destruct Hk as (? & ? & ?). split; [by right|done]. }
  rewrite (bool_decide_eq_false_2 _ Hk).
  case_bool_decide as Hmeta.
  - subst item. rewrite bool_decide_eq_false_2; [done|].
    intros ([->|?]%elem_of_cons & ? & ?); [done|]. apply Hk. done.
  - destruct (Q !! item) as [n|] eqn:HQ.
    + destruct (decide (k = item)) as [->|Hne].
      * rewrite lookup_insert_eq, bool_decide_eq_true_2; [done|].
        split; [left|]. split; [done|by eexists].
      * rewrite lookup_insert_ne by done. rewrite bool_decide_eq_false_2; [done|].
        intros ([->|?]%elem_of_cons & ? & ?); [done|]. apply Hk. done.
    + rewrite bool_decide_eq_false_2; [done|].
      intros ([->|?]%elem_of_cons & ? & [? ?]); [congruence|]. apply Hk.
      split; [done|]. split; [done|by eexists].
Qed.

Lemma restore_all (Q : gmap string node) :
  fold_left (restored Q) (map fst (map_to_list Q)) ∅ = delete SNAPSHOT_META Q.
Proof.
  apply map_eq. intros k. rewrite lookup_fold_restored, lookup_empty, lookup_delete.
  case_decide as Hk.
  - subst. rewrite bool_decide_eq_false_2; [done|]. by intros (_ & ? & _).
  - destruct (Q !! k) as [n|] eqn:HQ.
    + rewrite bool_decide_eq_true_2; [done|]. split; [|split; [done|by eexists]].
      apply list_elem_of_fmap. exists (k, n). split; [done|].
      by apply elem_of_map_to_list.
    + by case_bool_decide.
Qed.

(** [undo_last] when the first listed snapshot is the directory [d] with
    entries [Q]. *)
Lemma undo_last_view (w : world) (Pc S Q : gmap string node) (d : string) :
  fs w = mk_tree top Pc S -> plain_keys Pc -> plain_keys S -> plain_keys Q ->
  head (snapshot_dirs S) = Some d -> S !! d = Some (Dir Q) ->
  undo_last w = (true, set_fs w (mk_tree top (delete SNAPSHOT_META Q) S)).
Proof.
  intros Hfs HplP HplS HplQ Hhead HS. unfold undo_last.
  rewrite Hfs, list_snapshots_view by done.
  destruct (snapshot_dirs S) as [|d' dirs] eqn:Hdirs; [done|].
  injection Hhead as ->. cbn [map].
  rewrite listdir_root, clear_all by done.
  assert (plain d = true) as Hd by (apply HplS; by eexists).
  assert (listdir (mk_tree top ∅ S) (join BACKUP_DIR d)
          = Some (map fst (map_to_list Q))) as ->.
  { unfold listdir, lookup. rewrite components_backup_entry by done.
    cbn [mbind option_bind]. rewrite get_backup. cbn [get]. rewrite HS. done. }
  rewrite (restore_items_view d Q S); [|done|done|apply NoDup_fst_map_to_list|].
  - cbn [fst snd]. by rewrite restore_all.
  - intros k Hk. apply list_elem_of_fmap in Hk as ([k' n] & -> & Hk).
    apply elem_of_map_to_list in Hk. cbn [fst].
    split; [apply HplQ; by eexists|]. split; [by eexists|apply lookup_empty].
Qed.

End Undo.

Section RoundTrip.
Import FS.

Lemma last_filter {A : Type} (Pr : A -> Prop) `{!forall x, Decision (Pr x)}
    (l : list A) (x : A) :
  last (filter Pr l) = Some x -> exists y, last l = Some y /\ (y = x \/ ~ Pr y).
Proof.
  induction l as [|y l IH] using rev_ind; [done|].
  rewrite filter_app. destruct (decide (Pr y)) as [Hy|Hy].
  - rewrite (filter_cons_True _ _ _ Hy), filter_nil, !last_snoc. intros [= ->]. eauto.
  - rewrite (filter_cons_False _ _ _ Hy), filter_nil, app_nil_r, last_snoc.
    intros _. eauto.
Qed.

(** A path whose last component is the metadata file name is not a file
    of a known language. *)
Lemma tracked_not_meta (f : string) (cs : list string) :
  components f = Some cs -> last cs = Some SNAPSHOT_META ->
  detect_language_for_file f = None.
Proof.
  unfold components. destruct (_ || _); [done|]. intros [= <-] Hlast.
  apply last_filter in Hlast as (y & Hy & Hcase).
  unfold detect_language_for_file, splitext_ext, basename. rewrite Hy.
  cbn [default from_option].
  destruct Hcase as [->|Hno]; [by vm_compute|].
  destruct (decide (y = "")) as [->|H1]; [by vm_compute|].
  destruct (decide (y = ".")) as [->|H2]; [by vm_compute|].
  exfalso. by apply Hno.
Qed.

Lemma create_snapshot_ok_inv (top P S : gmap string node) (ts label : string)
    (w : world) :
  fs w = mk_tree top P S -> plain (snapshot_name ts label) = true ->
  fst (create_snapshot ts label w) <> "" ->
  S !! snapshot_name ts label = None /\ dir_key P SNAPSHOT_META = false.
Proof.
  intros Hfs Hname Hok. unfold create_snapshot in Hok. rewrite Hfs in Hok.
  destruct (S !! snapshot_name ts label) as [n|] eqn:HS.
  { rewrite copytree_snapshot_exists in Hok by (try done; by eexists). done. }
  split; [done|]. rewrite copytree_snapshot in Hok by done.
  rewrite (write_snapshot_entry top P _ _ SNAPSHOT_META _ _ P) in Hok;
    [|done|done|by rewrite lookup_insert_eq].
  by destruct (dir_key P SNAPSHOT_META).
Qed.

End RoundTrip.

(** C3, refuted as stated: a snapshot labelled [remove_imports_legacy]
    exists from the same second; the new snapshot, labelled
    [delete_dead_files], is created successfully but sorts below it.  After
    the file is deleted, [undo_last] succeeds and restores the older
    snapshot: the file is back with the content it had before, not with its
    content at snapshot time. *)
Lemma C3_older_snapshot_counterexample :
  let r := create_snapshot "20260101_120000" "delete_dead_files" same_second_world in
  fst r = "backup_snapshots/20260101_120000delete_dead_files" /\
  FS.read_text (fs same_second_world) "src/a.js" = Some "new" /\
  exists t2, FS.remove (fs (snd r)) "src/a.js" = Some t2 /\
    fst (undo_last (set_fs (snd r) t2)) = true /\
    FS.read_text (fs (snd (undo_last (set_fs (snd r) t2)))) "src/a.js" = Some "old".
Proof.
  split; [by vm_compute|]. split; [by vm_compute|].
  eexists. split; [by vm_compute|]. split; by vm_compute.
Qed.

(** C3, amended.  If [create_snapshot] succeeds under a name that is a
    single directory name and the new snapshot is the first
    [list_snapshots] returns, then deleting any file of a known language
    under the project root and calling [undo_last] brings the file back
    with its content at snapshot time. *)
Theorem C3_round_trip (ts label : string) (w : world)
    (top P S : gmap string FS.node) (f content : string) (rel : list string)
    (t2 : FS.node) :
  fs w = mk_tree top P S -> plain_keys P -> plain_keys S ->
  plain (snapshot_name ts label) = true ->
  fst (create_snapshot ts label w) <> "" ->
  head (list_snapshots (fs (snd (create_snapshot ts label w))))
    = Some (fst (create_snapshot ts label w)) ->
  FS.components f = Some (PROJECT_ROOT :: rel) ->
  is_Some (detect_language_for_file f) ->
  FS.read_text (fs w) f = Some content ->
  FS.remove (fs (snd (create_snapshot ts label w))) f = Some t2 ->
  fst (undo_last (set_fs (snd (create_snapshot ts label w)) t2)) = true /\
  FS.read_text (fs (snd (undo_last (set_fs (snd (create_snapshot ts label w)) t2)))) f
    = Some content.
Proof.
  intros Hfs HplP HplS Hname Hok Hhead Hcomp Htracked Hread Hrm.
  destruct (create_snapshot_ok_inv top P S ts label w Hfs Hname Hok) as [Hfresh Hmeta].
  destruct (create_snapshot_view top P ts label w S Hfs HplS Hname Hfresh Hmeta)
    as (S1 & Hcreate & Hpl1 & Hdirs1 & Hkeys1 & Hkeep).
  rewrite Hcreate in Hhead, Hrm |- *. cbn [fst snd] in *.
  set (nm := snapshot_name ts label) in *.
  set (Q := <[SNAPSHOT_META := FS.File (json_meta label ts) (clock w)]> P) in *.
  (* the new snapshot is the first of the listing *)
  rewrite fs_set_fs, list_snapshots_view in Hhead by done.
  destruct (snapshot_dirs S1) as [|d dirs] eqn:Hd; [done|].
  cbn [map head] in Hhead. injection Hhead as Hhead.
  assert (d ∈ snapshot_dirs S1) as Hin by (rewrite Hd; left).
  assert (plain d = true) as Hplain.
  { apply Hpl1. apply elem_of_snapshot_dirs in Hin. unfold dir_key in Hin.
    destruct (S1 !! d); [by eexists|done]. }
  apply join_backup_inj in Hhead; [|done..]. subst d.
  assert (S1 !! nm = Some (FS.Dir Q)) as HS1.
  { rewrite (Hkeep nm) by left. by rewrite lookup_insert_eq. }
  (* the file and its deletion *)
  unfold FS.read_text, FS.lookup in Hread. rewrite Hfs, Hcomp in Hread.
  cbn [mbind option_bind] in Hread. rewrite get_root in Hread.
  destruct (FS.get (FS.Dir P) rel) as [[data m|]|] eqn:Hget; try done.
  injection Hread as ->.
  assert (rel <> []) as Hrel by (by intros ->).
  destruct (del_gone rel (FS.Dir P) _ Hrel Hget) as (t' & Hdel & _).
  destruct (del_is_dir _ _ _ Hdel) as [P2 ->].
  rewrite fs_set_fs in Hrm. unfold FS.remove in Hrm. rewrite Hcomp in Hrm.
  cbn [mbind option_bind] in Hrm. rewrite get_root, Hget in Hrm.
  rewrite (del_root top P S1 rel P2 Hrel Hdel) in Hrm. injection Hrm as <-.
  (* undo *)
  assert (plain_keys P2) as HplP2.
  { intros k Hk. apply HplP. by eapply del_keys. }
  assert (plain_keys Q) as HplQ.
  { intros k [n Hk]. subst Q. apply lookup_insert_Some in Hk as [[<- _]|[_ Hk]];
      [done|]. apply HplP. by eexists. }
  rewrite (undo_last_view top _ P2 S1 Q nm); [|done|done|done|done|by rewrite Hd|done].
  cbn [fst snd]. split; [done|].
  rewrite fs_set_fs. unfold FS.read_text, FS.lookup. rewrite Hcomp.
  cbn [mbind option_bind]. rewrite get_root. subst Q. rewrite delete_insert_eq.
  destruct rel as [|k rel']; [done|]. cbn [FS.get] in Hget |- *.
  assert (k <> SNAPSHOT_META) as Hk.
  { intros ->. destruct rel' as [|y rel'].
    - rewrite (tracked_not_meta f [PROJECT_ROOT; SNAPSHOT_META]) in Htracked;
        [by destruct Htracked|done|done].
    - unfold dir_key in Hmeta. destruct (P !! SNAPSHOT_META) as [[|es]|]; done. }
  rewrite lookup_delete_ne by done. by rewrite Hget.
Qed.

(** A snapshot of a small project, the deletion of its file, and undo. *)
Lemma C3_round_trip_witness :
  let r := create_snapshot "20260101_120000" "delete_dead_files" small_project in
  exists t2, FS.remove (fs (snd r)) "src/a.js" = Some t2 /\
    FS.read_text (fs (snd (undo_last (set_fs (snd r) t2)))) "src/a.js" = Some "one".
Proof.
  eexists. split; [by vm_compute|].
  refine (proj2 (C3_round_trip "20260101_120000" "delete_dead_files" small_project
                   ∅ {[ "a.js" := FS.File "one" 1 ]} ∅ "src/a.js" "one" ["a.js"]
                   _ _ _ _ _ _ _ _ _ _ _)).
  - reflexivity.
  - intros k [n Hk]. apply lookup_singleton_Some in Hk as [<- _]. reflexivity.
  - intros k [n Hk]. by rewrite lookup_empty in Hk.
  - by vm_compute.
  - by vm_compute.
  - by vm_compute.
  - by vm_compute.
  - vm_compute. by eexists.
  - by vm_compute.
  - by vm_compute.
Defined.

(** ** A failed snapshot *)

Section FailedSnapshot.
Import FS.

Lemma join_backup_nonempty (x : string) : join BACKUP_DIR x <> "".
Proof.
  unfold join. destruct (startswith x "/") eqn:Hx; [by destruct x|].
  by destruct (negb _ || _).
Qed.


Lemma fold_try_remove_gone (l : list string) : forall (t : node) (f : string),
  is_dir t = true -> f ∈ l -> read_text (fold_left try_remove l t) f = None.
Proof.
  assert (forall t g, is_dir t = true -> is_dir (try_remove t g) = true) as Hdir.
  { intros t g Ht. unfold try_remove, remove.
    destruct (components g) as [cs|]; [|exact Ht]. cbn [mbind option_bind].
    destruct (get t cs) as [[|]|]; try exact Ht.
    destruct (del t cs) as [t'|] eqn:Hdel; [|exact Ht].
    by apply del_is_dir in Hdel as [es ->]. }
  assert (forall t g f, read_text t f = None -> read_text (try_remove t g) f = None)
    as Hkeep.
  { intros t g f Hf. unfold try_remove, remove.
    destruct (components g) as [cs|]; [|exact Hf]. cbn [mbind option_bind].
    destruct (get t cs) as [[|]|]; try exact Hf.
    destruct (del t cs) as [t'|] eqn:Hdel; [|exact Hf].
    change (read_text t' f = None).
    unfold read_text, lookup in *. destruct (components f) as [cf|]; [|done].
    cbn [mbind option_bind] in *.
    destruct (get t' cf) as [[d m|]|] eqn:Hget; try done.
    by rewrite (del_file_only_removes _ _ _ _ _ _ Hdel Hget) in Hf. }
  assert (forall l t f, read_text t f = None ->
            read_text (fold_left try_remove l t) f = None) as Hfold.
  { clear l. intros l. induction l as [|g l IH]; intros t f Hf; [done|].
    cbn [fold_left]. by apply IH, Hkeep. }
  induction l as [|g l IH]; intros t f Ht Hf; [by apply elem_of_nil in Hf|].
  cbn [fold_left]. apply elem_of_cons in Hf as [->|Hf]; [|by apply IH; [apply Hdir|]].
  apply Hfold. unfold try_remove, remove, read_text, lookup.
  destruct (components g) as [cs|]; [|done]. cbn [mbind option_bind].
  destruct (get t cs) as [[d m|es]|] eqn:Hget.
  - assert (cs <> []) as Hne.
    { intros ->. cbn [get] in Hget. injection Hget as ->. done. }
    destruct (del_gone cs t _ Hne Hget) as (t' & -> & Hgone).
    change (match get t' cs with Some (File d0 _) => Some d0 | _ => None end = None).
    by rewrite Hgone.
  - change (match get t cs with Some (File d0 _) => Some d0 | _ => None end = None).
    by rewrite Hget.
  - change (match get t cs with Some (File d0 _) => Some d0 | _ => None end = None).
    by rewrite Hget.
Qed.

End FailedSnapshot.


Section NoAbort.
Import FS.

Lemma isdir_root_is_dir (t : node) : isdir t PROJECT_ROOT = true -> is_dir t = true.
Proof.
  unfold isdir, lookup. rewrite components_root. cbn [mbind option_bind].
  by destruct t.
Qed.

End NoAbort.

(** ** What a command leaves alone *)

Section Frame.
Import FS.

Lemma read_text_file_at (t : node) (q : string) (cq : list string) :
  components q = Some cq -> read_text t q = file_at t cq.
Proof. intros Hq. unfold read_text, lookup, file_at. by rewrite Hq. Qed.

Lemma get_del_other (t t' : node) (a b : string) (p q : list string) :
  del t (a :: p) = Some t' -> a <> b -> get t' (b :: q) = get t (b :: q).
Proof.
  destruct t as [|es]; [done|]. cbn [del get]. intros H Hab.
  destruct p as [|y p].
  - destruct (es !! a); [|done]. injection H as <-. cbn [get].
    by rewrite lookup_delete_ne.
  - destruct (es !! a) as [n|]; [|done]. cbn [mbind option_bind] in H.
    destruct (del n (y :: p)); [|done]. injection H as <-. cbn [get].
    by rewrite lookup_insert_ne.
Qed.

(** Writing a regular file changes the text at its own path only. *)
Lemma put_file_frame (p : list string) : forall (t t' : node) (q : list string) d m,
  put false t p (File d m) = Some t' ->
  (forall es, get t p <> Some (Dir es)) ->
  q <> p -> file_at t' q = file_at t q.
Proof.
  induction p as [|x p IH]; intros t t' q d m Hput Hnd Hq.
  - cbn [put] in Hput. injection Hput as <-. destruct q as [|y q]; [done|].
    destruct t as [|es]; [done|]. by specialize (Hnd es).
  - destruct t as [|es]; [done|]. cbn [put] in Hput. unfold file_at.
    destruct q as [|y q].
    { destruct (es !! x).
      - destruct (put false _ p _); [|done]. by injection Hput as <-.
      - destruct (false || _); [|done]. destruct (put false _ p _); [|done].
        by injection Hput as <-. }
    cbn [get] in Hnd. destruct (es !! x) as [n|] eqn:Hx.
    + destruct (put false n p (File d m)) as [n'|] eqn:Hn; [|done].
      injection Hput as <-. cbn [get].
      destruct (decide (x = y)) as [->|Hne].
      * rewrite lookup_insert_eq, Hx. cbn [mbind option_bind].
        apply (IH n n' q d m Hn); [|congruence].
        intros es' He. by apply (Hnd es').
      * by rewrite lookup_insert_ne.
    + cbn [orb] in Hput. case_bool_decide as Hp; [|done]. subst p.
      cbn [put fmap option_fmap option_map] in Hput. injection Hput as <-.
      cbn [get]. destruct (decide (x = y)) as [->|Hne].
      * rewrite lookup_insert_eq, Hx. cbn [mbind option_bind].
        destruct q as [|z q]; [done|]. done.
      * by rewrite lookup_insert_ne.
Qed.

Lemma write_text_frame (t t' : node) (f data : string) (now : Z)
    (q : list string) :
  write_text t f data now = Some t' -> components f <> Some q ->
  file_at t' q = file_at t q.
Proof.
  unfold write_text. destruct (components f) as [cf|]; [|done].
  cbn [mbind option_bind]. intros Hw Hq.
  destruct (get t cf) as [[dd mm|es]|] eqn:Hget; [|done|].
  - eapply put_file_frame; [exact Hw| |congruence]. intros es. by rewrite Hget.
  - eapply put_file_frame; [exact Hw| |congruence]. intros es. by rewrite Hget.
Qed.

(** Removing below the backup directory leaves the project root alone. *)
Lemma try_rmtree_backup_frame (t : node) (d : string) (cs : list string) :
  get (try_rmtree t (join BACKUP_DIR d)) (PROJECT_ROOT :: cs)
  = get t (PROJECT_ROOT :: cs).
Proof.
  unfold try_rmtree, rmtree.
  destruct (components (join BACKUP_DIR d)) as [cd|] eqn:Hcd; [|done].
  apply components_below in Hcd as (cd' & -> & _); [|done].
  cbn [mbind option_bind]. destruct (get t (BACKUP_DIR :: cd')) as [[|es]|]; try done.
  destruct (del t (BACKUP_DIR :: cd')) as [t'|] eqn:Hdel; [|done].
  cbn [default from_option]. by eapply get_del_other.
Qed.

Lemma trim_snapshots_frame (t : node) (cs : list string) :
  get (trim_snapshots t) (PROJECT_ROOT :: cs) = get t (PROJECT_ROOT :: cs).
Proof.
  unfold trim_snapshots. destruct (_ <=? _)%nat; [done|].
  assert (forall p, p ∈ drop ALLOW_UNDO_COUNT (list_snapshots t) ->
            exists d, p = join BACKUP_DIR d) as Hform.
  { intros p Hp. apply subseteq_drop in Hp. unfold list_snapshots in Hp.
    destruct (listdir t BACKUP_DIR) as [ds|]; [|by apply elem_of_nil in Hp].
    apply list_elem_of_filter in Hp as [_ Hp]. rewrite elem_of_sorted_rev in Hp.
    apply list_elem_of_fmap in Hp as (d & -> & _). eauto. }
  revert Hform. generalize (drop ALLOW_UNDO_COUNT (list_snapshots t)). intros l.
  revert t. induction l as [|p l IH]; intros t Hform; [done|]. cbn [fold_left].
  destruct (Hform p) as [d ->]; [left|].
  rewrite IH by (intros p' Hp'; apply Hform; by right).
  apply try_rmtree_backup_frame.
Qed.

(** A path below a path below the backup directory is below the backup
    directory. *)
Lemma join_join_backup (nm x : string) :
  startswith nm "/" = false -> startswith x "/" = false ->
  exists y, join (join BACKUP_DIR nm) x = join BACKUP_DIR y.
Proof.
  intros Hnm Hx. destruct nm as [|c nm].
  { exists x. unfold join. rewrite Hx. reflexivity. }
  assert (forall z, startswith (String c nm +:+ z) "/" = false) as Hz.
  { intros z. unfold startswith in *. rewrite append_cons.
    cbn [String.prefix] in *. destruct (Ascii.ascii_dec _ _); [by destruct nm|done]. }
  rewrite (join_rel BACKUP_DIR (String c nm)) by done.
  unfold join at 1. rewrite Hx. cbn [truthy negb orb].
  change (truthy (BACKUP_DIR +:+ "/" +:+ String c nm)) with true. cbn [negb orb].
  destruct (endswith _ "/").
  - exists (String c nm +:+ x). rewrite (join_rel BACKUP_DIR) by done.
    by rewrite !append_assoc.
  - exists (String c nm +:+ "/" +:+ x). rewrite (join_rel BACKUP_DIR) by done.
    by rewrite !append_assoc.
Qed.

(** [create_snapshot], successful or not, leaves every file under the
    project root as it is. *)
Lemma create_snapshot_frame (ts label : string) (w : world) (cs : list string) :
  get (fs (snd (create_snapshot ts label w))) (PROJECT_ROOT :: cs)
  = get (fs w) (PROJECT_ROOT :: cs).
Proof.
  unfold create_snapshot. set (nm := snapshot_name ts label).
  destruct (copytree _ _ _) as [t1|] eqn:Hcopy; [|done].
  assert (get t1 (PROJECT_ROOT :: cs) = get (fs w) (PROJECT_ROOT :: cs)
          /\ startswith nm "/" = false) as [H1 Hnm].
  { unfold copytree in Hcopy. rewrite components_root in Hcopy.
    cbn [mbind option_bind] in Hcopy.
    destruct (components (join BACKUP_DIR nm)) as [d|] eqn:Hd; [|done].
    cbn [mbind option_bind] in Hcopy. split.
    - apply components_below in Hd as (cs' & -> & _); [|done].
      destruct (get (fs w) [PROJECT_ROOT]) as [[|es]|]; try done.
      destruct (get (fs w) (BACKUP_DIR :: cs')); [done|].
      destruct (bool_decide _); [done|].
      by eapply get_put_other.
    - destruct (startswith nm "/") eqn:Hs; [|done]. unfold join in Hd.
      rewrite Hs in Hd. unfold components in Hd. by rewrite Hs in Hd. }
  destruct (write_text _ _ _ _) as [t2|] eqn:Hwrite; [|done].
  cbn [snd fs set_fs]. rewrite trim_snapshots_frame, <-H1.
  unfold write_text in Hwrite.
  destruct (components (join (join BACKUP_DIR nm) SNAPSHOT_META)) as [cm|] eqn:Hcm;
    [|done].
  cbn [mbind option_bind] in Hwrite.
  assert (exists cm', cm = BACKUP_DIR :: cm') as [cm' ->].
  { destruct (join_join_backup nm SNAPSHOT_META Hnm eq_refl) as [y Hj].
    rewrite Hj in Hcm. apply components_below in Hcm as (cm' & -> & _); [|done].
    eauto. }
  destruct (get t1 (BACKUP_DIR :: cm')) as [[|]|]; try done;
    by eapply get_put_other.
Qed.

Lemma lookup_under_root (t t' : node) (q : string) (cs : list string) :
  components q = Some (PROJECT_ROOT :: cs) ->
  get t' (PROJECT_ROOT :: cs) = get t (PROJECT_ROOT :: cs) ->
  lookup t' q = lookup t q.
Proof. intros Hq H. unfold lookup. rewrite Hq. exact H. Qed.

End Frame.

(** ** The import commands *)

Section Imports.
Variable J : list Re.regex.
Import FS.

Lemma build_file_list_fs (root : string) (use_cache : bool) (w : world) :
  fs (snd (build_file_list root use_cache w)) = fs w.
Proof.
  unfold build_file_list. by destruct (if use_cache then _ else _).
Qed.

Lemma remove_file_frame (target_folder : string) (now : Z) (t : node)
    (f : string) (q : list string) :
  components f <> Some q ->
  file_at (remove_file J target_folder now t f) q = file_at t q.
Proof.
  intros Hq. unfold remove_file.
  destruct (read_text t f); [|done]. destruct (handler_for J f); [|done].
  destruct (existsb _ _); [|done].
  destruct (write_text _ _ _ _) as [t'|] eqn:Hw; [|done].
  cbn [default from_option]. by eapply write_text_frame.
Qed.

Lemma fold_remove_file_frame (target_folder : string) (now : Z)
    (l : list string) (q : list string) : forall (t : node),
  (forall f, f ∈ l -> components f <> Some q) ->
  file_at (fold_left (remove_file J target_folder now) l t) q = file_at t q.
Proof.
  induction l as [|f l IH]; intros t Hl; [done|]. cbn [fold_left].
  rewrite IH by (intros f' Hf'; apply Hl; by right).
  apply remove_file_frame, Hl. left.
Qed.

(** C8 at the failing input: [comment_imports] for the folder [legacy] on
    a file whose second line imports from [./utils].  The specifier of that
    line does not contain the folder, the line does, and the line is
    commented out with the first. *)
Lemma C8_comment_tests_the_line :
  let line2 := "import legacyThing from './utils'" +:+ String newline "" in
  let r := comment_imports J "legacy" false true Yes "20260101_120000"
             two_imports_world in
  extract_imports (Handler "javascript" (extensions_of "javascript") JS_IMPORTS) line2
    = ["./utils"] /\
  contains "./utils" "legacy" = false /\
  fst r = ["src/a.js"] /\
  read_text (fs (snd r)) "src/a.js"
  = Some ("// import X from './legacy/b' // removido pelo script" +:+ String newline ""
          +:+ "// import legacyThing from './utils' // removido pelo script"
          +:+ String newline "").
Proof. vm_compute. done. Qed.

(** The sibling command on the same input drops the first line only. *)
Lemma remove_imports_tests_the_specifier :
  let r := remove_imports J "legacy" false true Yes "20260101_120000"
             two_imports_world in
  read_text (fs (snd r)) "src/a.js"
  = Some ("import legacyThing from './utils'" +:+ String newline "").
Proof. vm_compute. done. Qed.

(** C7 at the failing input: [remove_imports] for the folder [legacy] on
    a file whose import from the folder spans three lines.  The preview
    pass matches the patterns against the whole text and lists the file;
    the rewriting pass matches them line by line, finds nothing to drop and
    leaves the file as it was, although the run went through and took its
    snapshot.  The same import on one line is dropped. *)
Lemma C7_multi_line_import :
  let ts := "20260101_120000" in
  let dry := remove_imports J "legacy" true false No ts multi_line_world in
  let run := remove_imports J "legacy" false true Yes ts multi_line_world in
  extract_imports (Handler "javascript" (extensions_of "javascript") JS_IMPORTS)
    multi_line_import = ["./legacy/b"] /\
  fst dry = ["src/a.js"] /\
  fs (snd dry) = fs multi_line_world /\
  fst run = ["src/a.js"] /\
  list_snapshots (fs (snd run))
    = ["backup_snapshots/20260101_120000remove_imports_legacy"] /\
  read_text (fs (snd run)) "src/a.js" = Some multi_line_import /\
  read_text (fs (snd (remove_imports J "legacy" false true Yes ts two_imports_world)))
    "src/a.js"
  = Some ("import legacyThing from './utils'" +:+ String newline "").
Proof. vm_compute. done. Qed.

End Imports.

(* ===================================================================== *)
(** * Further properties of the code *)
(* ===================================================================== *)

(** ** Deleting in the tree *)

Section Deleting.
Import FS.

Lemma get_app (p r : list string) : forall (t : node),
  get t (p ++ r) = get t p ≫= fun n => get n r.
Proof.
  induction p as [|x p IH]; intros t; [done|]. cbn [app get].
  destruct t as [|es]; [done|]. destruct (es !! x) as [n|]; [|done].
  cbn [mbind option_bind]. apply IH.
Qed.

Lemma get_file_below (d : string) (m : Z) (r : list string) :
  r <> [] -> get (File d m) r = None.
Proof. by destruct r. Qed.

(** Deleting at [p] leaves every file that is not at or below [p]. *)
Lemma del_frame (p : list string) : forall (t t' : node) (q : list string),
  del t p = Some t' -> ~ p `prefix_of` q -> file_at t' q = file_at t q.
Proof.
  induction p as [|x p IH]; intros t t' q Hdel Hpre; [done|].
  destruct t as [|es]; [done|]. cbn [del] in Hdel.
  destruct q as [|y q].
  { destruct (del_is_dir (x :: p) (Dir es) t' Hdel) as [es' ->]. done. }
  destruct p as [|x' p'].
  - destruct (es !! x) eqn:Hx; [|done]. injection Hdel as <-.
    unfold file_at. cbn [get]. rewrite lookup_delete_ne; [done|].
    intros ->. apply Hpre. by apply prefix_cons, prefix_nil.
  - destruct (es !! x) as [n|] eqn:Hx; [|done]. cbn [mbind option_bind] in Hdel.
    destruct (del n (x' :: p')) as [n'|] eqn:Hn; [|done].
    cbn [fmap option_fmap option_map] in Hdel. injection Hdel as <-.
    unfold file_at. cbn [get]. destruct (decide (y = x)) as [->|Hy].
    + rewrite lookup_insert_eq, Hx. cbn [mbind option_bind].
      apply (IH n n' q Hn). intros Hq. apply Hpre. by apply prefix_cons.
    + by rewrite lookup_insert_ne.
Qed.

(** Nothing is left at or below a deleted path. *)
Lemma del_below (p : list string) : forall (t t' : node) (q : list string),
  del t p = Some t' -> p `prefix_of` q -> get t' q = None.
Proof.
  induction p as [|x p IH]; intros t t' q Hdel Hpre; [done|].
  destruct t as [|es]; [done|]. cbn [del] in Hdel.
  destruct q as [|y q]; [by apply prefix_nil_not in Hpre|].
  pose proof (prefix_cons_inv_1 _ _ _ _ Hpre) as ->.
  apply prefix_cons_inv_2 in Hpre.
  destruct p as [|x' p'].
  - destruct (es !! y) eqn:Hx; [|done]. injection Hdel as <-.
    cbn [get]. by rewrite lookup_delete_eq.
  - destruct (es !! y) as [n|] eqn:Hx; [|done]. cbn [mbind option_bind] in Hdel.
    destruct (del n (x' :: p')) as [n'|] eqn:Hn; [|done].
    cbn [fmap option_fmap option_map] in Hdel. injection Hdel as <-.
    cbn [get]. rewrite lookup_insert_eq. cbn [mbind option_bind].
    by apply (IH n n' q Hn).
Qed.

(** Removing a regular file leaves every other file. *)
Lemma remove_frame (t t' : node) (f : string) (q : list string) :
  remove t f = Some t' -> components f <> Some q -> file_at t' q = file_at t q.
Proof.
  unfold remove. intros Hrm Hq.
  destruct (components f) as [cf|]; [|done]. cbn [mbind option_bind] in Hrm.
  destruct (get t cf) as [[d m|]|] eqn:Hget; try done.
  destruct (decide (cf `prefix_of` q)) as [[r ->]|Hpre].
  - assert (r <> []) as Hr by (intros ->; apply Hq; by rewrite app_nil_r).
    unfold file_at. rewrite (del_below cf t t' (cf ++ r) Hrm) by (by exists r).
    by rewrite get_app, Hget; cbn [mbind option_bind]; rewrite get_file_below.
  - by apply (del_frame cf).
Qed.

Lemma try_remove_frame (t : node) (f : string) (q : list string) :
  components f <> Some q -> file_at (try_remove t f) q = file_at t q.
Proof.
  intros Hq. unfold try_remove. destruct (remove t f) as [t'|] eqn:Hrm; [|done].
  by apply (remove_frame t t' f).
Qed.

Lemma fold_try_remove_frame (l : list string) (q : list string) : forall (t : node),
  (forall f, f ∈ l -> components f <> Some q) ->
  file_at (fold_left try_remove l t) q = file_at t q.
Proof.
  induction l as [|f l IH]; intros t Hl; [done|]. cbn [fold_left].
  rewrite IH by (intros f' Hf'; apply Hl; by right).
  apply try_remove_frame, Hl. left.
Qed.

End Deleting.

(** ** The walk of the scanner *)

Section Walk.
Import FS.

Lemma node_size_entry (es : gmap string node) (k : string) (n : node) :
  es !! k = Some n -> node_size n < node_size (Dir es).
Proof.
  intros Hk. cbn [node_size].
  rewrite (map_fold_delete_L _ _ k n es); [lia| |done].
  intros. lia.
Qed.

(** Induction on the tree, with the property at hand for every entry of
    a directory. *)
Lemma node_induction (Pn : node -> Prop) :
  (forall d m, Pn (File d m)) ->
  (forall es, (forall k n, es !! k = Some n -> Pn n) -> Pn (Dir es)) ->
  forall n, Pn n.
Proof.
  intros Hfile Hdir n. remember (node_size n) as sz eqn:Hsz. revert n Hsz.
  induction (lt_wf sz) as [sz _ IH]. intros [d m|es] ->; [apply Hfile|].
  apply Hdir. intros k n Hk. apply (IH (node_size n)); [|done].
  by apply (node_size_entry es k).
Qed.

Lemma fold_join_cons (k : string) (ds : list string) (r0 : string) :
  fold_left join (k :: ds) r0 = fold_left join ds (join r0 k).
Proof. reflexivity. Qed.

(** The pairs [os.walk] yields with the pruning of the scanner: a file is
    visited exactly when it is reached from the top through directories
    that are not excluded. *)
Lemma elem_of_walk_node (excl : string -> bool) (n : node) :
  forall (r0 r name : string),
  (r, name) ∈ walk_node excl n r0 <->
  exists ds, r = fold_left join ds r0 /\ Forall (fun d => excl d = false) ds /\
    exists d m, get n (ds ++ [name]) = Some (File d m).
Proof.
  induction n as [d m|es IH] using node_induction; intros r0 r name.
  { cbn [walk_node]. split; [by intros ?%elem_of_nil|].
    intros (ds & _ & _ & d' & m' & Hget). by destruct ds. }
  cbn [walk_node].
  set (kids := map_to_list ((fun n' => (is_dir n', walk_node excl n')) <$> es)).
  assert (forall k v, (k, v) ∈ kids <->
            exists n', es !! k = Some n' /\ v = (is_dir n', walk_node excl n')) as Hkids.
  { intros k v. subst kids. rewrite elem_of_map_to_list, lookup_fmap_Some.
    naive_solver. }
  rewrite elem_of_app. split.
  - intros [Hfile|Hsub].
    + apply list_elem_of_fmap in Hfile as ([k v] & [= -> ->] & Hin).
      apply list_elem_of_filter in Hin as [Hnd Hin]. cbn [fst snd] in *.
      apply Hkids in Hin as (n' & Hk & ->). cbn [fst] in Hnd.
      destruct n' as [d m|]; [|done].
      exists []. split; [done|]. split; [constructor|]. exists d, m.
      cbn [app get]. by rewrite Hk.
    + apply list_elem_of_In, in_flat_map in Hsub as ([k v] & Hin & Hsub).
      apply list_elem_of_In, Hkids in Hin as (n' & Hk & ->). cbn [fst snd] in Hsub.
      destruct (is_dir n') eqn:Hd; [|done]. destruct (excl k) eqn:Hex; [done|].
      cbn [negb andb] in Hsub. apply list_elem_of_In in Hsub.
      apply (IH k n' Hk) in Hsub as (ds & -> & Hds & d & m & Hget).
      exists (k :: ds). split; [done|]. split; [by constructor|].
      exists d, m. cbn [app get]. by rewrite Hk.
  - intros (ds & -> & Hds & d & m & Hget). destruct ds as [|k ds].
    + left. cbn [app get] in Hget.
      destruct (es !! name) as [n'|] eqn:Hk; [|done].
      cbn [mbind option_bind get] in Hget. injection Hget as ->.
      apply list_elem_of_fmap. exists (name, (false, walk_node excl (File d m))).
      split; [done|]. apply list_elem_of_filter. split; [done|].
      apply Hkids. by exists (File d m).
    + right. cbn [app get] in Hget.
      destruct (es !! k) as [n'|] eqn:Hk; [|done]. cbn [mbind option_bind] in Hget.
      apply Forall_cons in Hds as [Hex Hds].
      apply list_elem_of_In, in_flat_map.
      exists (k, (is_dir n', walk_node excl n')). split.
      * apply list_elem_of_In, Hkids. by exists n'.
      * cbn [fst snd]. destruct n' as [|es']; [by destruct ds|].
        cbn [is_dir]. rewrite Hex. cbn [negb andb]. apply list_elem_of_In.
        apply (IH k (Dir es') Hk). exists ds. split; [done|]. split; [done|].
        by exists d, m.
Qed.

Lemma elem_of_walk (excl : string -> bool) (t : node) (top r name : string) :
  (r, name) ∈ walk excl t top <->
  exists ct ds, components top = Some ct /\ r = fold_left join ds top /\
    Forall (fun d => excl d = false) ds /\
    exists d m, get t (ct ++ ds ++ [name]) = Some (File d m).
Proof.
  unfold walk, lookup. split.
  - destruct (components top) as [ct|]; [|by intros ?%elem_of_nil].
    cbn [mbind option_bind].
    destruct (get t ct) as [[|es]|] eqn:Hct; try by intros ?%elem_of_nil.
    intros (ds & -> & Hds & d & m & Hget)%elem_of_walk_node.
    exists ct, ds. split; [done|]. split; [done|]. split; [done|]. exists d, m.
    by rewrite get_app, Hct.
  - intros (ct & ds & -> & -> & Hds & d & m & Hget). cbn [mbind option_bind].
    rewrite get_app in Hget. destruct (get t ct) as [[|es]|]; try done.
    + by destruct ds.
    + cbn [mbind option_bind] in Hget. apply elem_of_walk_node.
      exists ds. split; [done|]. split; [done|]. by exists d, m.
Qed.

(** What the scan returns was found by the walk. *)
Lemma scan_tree_inv (t : node) (root f : string) :
  f ∈ scan_tree t root ->
  exists cr ds name d m,
    components root = Some cr /\
    Forall (fun dir => dir ∉ EXCLUDED_DIRS) ds /\
    get t (cr ++ ds ++ [name]) = Some (File d m) /\
    skip_name name = false /\
    is_Some (EXT_LANG_MAP !! splitext_ext name) /\
    f = normpath (join (fold_left join ds root) name).
Proof.
  unfold scan_tree. rewrite list_elem_of_omap.
  intros ([r name] & Hin & Hf). cbn [fst snd] in Hf.
  apply elem_of_walk in Hin as (cr & ds & Hcr & -> & Hds & d & m & Hget).
  destruct (skip_name name) eqn:Hskip; [done|].
  destruct (bool_decide _) eqn:Hext; [|done]. apply bool_decide_eq_true in Hext.
  injection Hf as <-. exists cr, ds, name, d, m.
  split; [done|]. split; [|done].
  eapply Forall_impl; [exact Hds|]. intros dir Hdir. unfold excluded_dir in Hdir.
  by apply bool_decide_eq_false in Hdir.
Qed.

(** X1.  The scan: a path is returned exactly when it is the normalised path
    of a regular file that is reached from the root through directories
    outside [EXCLUDED_DIRS], whose name matches no skip pattern and whose
    extension is one of the extension map.  The root itself may bear any
    name, and what is not a directory gives the empty scan. *)
Theorem scan_tree_exact (t : node) (root f : string) :
  f ∈ scan_tree t root <->
  exists cr ds name d m,
    components root = Some cr /\
    Forall (fun dir => dir ∉ EXCLUDED_DIRS) ds /\
    get t (cr ++ ds ++ [name]) = Some (File d m) /\
    skip_name name = false /\
    is_Some (EXT_LANG_MAP !! splitext_ext name) /\
    f = normpath (join (fold_left join ds root) name).
Proof.
  split; [apply scan_tree_inv|].
  intros (cr & ds & name & d & m & Hcr & Hds & Hget & Hskip & Hext & ->).
  unfold scan_tree. apply list_elem_of_omap.
  exists (fold_left join ds root, name). split.
  - apply elem_of_walk. exists cr, ds. split; [done|]. split; [done|]. split.
    + eapply Forall_impl; [exact Hds|]. intros dir Hdir. unfold excluded_dir.
      by apply bool_decide_eq_false.
    + by exists d, m.
  - cbn [fst snd]. rewrite Hskip. by rewrite bool_decide_eq_true_2.
Qed.

End Walk.

(** ** Normalised paths *)

Section Normalised.
Import FS.

Lemma filter_all {A : Type} (Pr : A -> Prop) `{!forall x, Decision (Pr x)}
    (l : list A) :
  Forall Pr l -> filter Pr l = l.
Proof.
  induction 1 as [|x l Hx _ IH]; [done|]. by rewrite filter_cons_True, IH.
Qed.

Lemma split_on_all_no_slash (p : string) :
  Forall (fun c => no_slash c = true) (split_on slash p).
Proof.
  induction p as [|a p IH]; [by repeat constructor|]. cbn [split_on].
  destruct (Ascii.eqb a slash) eqn:Ha; [by constructor|].
  destruct (split_on slash p) as [|x xs]; [by repeat constructor; cbn; rewrite Ha|].
  apply Forall_cons in IH as [Hx Hxs]. constructor; [|done].
  cbn [no_slash]. by rewrite Ha.
Qed.

Lemma fold_norm_step_filter (cs : list string) : forall (acc : list string),
  ".." ∉ cs ->
  fold_left (norm_step 0) cs acc
  = (acc ++ filter (fun c => c <> "" /\ c <> ".") cs)%list.
Proof.
  induction cs as [|c cs IH]; intros acc Hdd; [by rewrite app_nil_r|].
  cbn [fold_left]. rewrite IH by set_solver. unfold norm_step.
  destruct (decide (c = "")) as [->|H1].
  { rewrite filter_cons_False by naive_solver. done. }
  destruct (decide (c = ".")) as [->|H2].
  { rewrite filter_cons_False by naive_solver. done. }
  rewrite !bool_decide_eq_false_2 by done. cbn [orb].
  rewrite (bool_decide_eq_false_2 (c = "..")) by set_solver. cbn [negb orb].
  rewrite filter_cons_True by done. by rewrite <-app_assoc.
Qed.

Lemma split_on_concat (cs : list string) :
  cs <> [] -> Forall (fun c => no_slash c = true) cs ->
  split_on slash (String.concat "/" cs) = cs.
Proof.
  induction cs as [|c cs IH]; [done|]. intros _ [Hc Hcs]%Forall_cons.
  destruct cs as [|c' cs]; [by apply split_on_no_slash|].
  change (String.concat "/" (c :: c' :: cs))
    with (c +:+ String slash (String.concat "/" (c' :: cs))).
  rewrite split_on_sep_app, split_on_no_slash, IH by done. done.
Qed.

(** [normpath] of a relative path without [..] joins its components. *)
Lemma normpath_components (p : string) (c : list string) :
  components p = Some c ->
  normpath p = match c with [] => "." | _ => String.concat "/" c end.
Proof.
  unfold components, normpath. destruct (startswith p "/") eqn:Hs; [done|].
  cbn [orb]. case_bool_decide as Hdd; [done|]. intros [= <-].
  destruct p as [|a p]; [done|]. cbn [truthy negb].
  rewrite fold_norm_step_filter by done. cbn [app replicate String.concat].
  change ("" +:+ ?x) with x.
  destruct (filter _ _) as [|c cs] eqn:Hf; [done|].
  assert (String.concat "/" (c :: cs) <> "") as Hne.
  { assert (c ∈ c :: cs) as Hc by left. rewrite <-Hf in Hc.
    apply list_elem_of_filter in Hc as [[Hc _] _].
    destruct cs; cbn [String.concat]; [done|]. by destruct c. }
  by destruct (String.concat "/" (c :: cs)).
Qed.

Lemma components_filtered (p : string) (c : list string) :
  components p = Some c ->
  Forall (fun x => no_slash x = true /\ x <> "" /\ x <> "." /\ x <> "..") c.
Proof.
  unfold components. destruct (_ || _) eqn:H; [done|]. intros [= <-].
  apply orb_false_iff in H as [_ Hdd]. apply bool_decide_eq_false in Hdd.
  apply Forall_forall. intros x [[H1 H2] Hx]%list_elem_of_filter.
  pose proof (split_on_all_no_slash p) as Hall. rewrite Forall_forall in Hall.
  split; [by apply Hall|]. split; [done|]. split; [done|]. by intros ->.
Qed.

Lemma components_concat (c : list string) :
  Forall (fun x => no_slash x = true /\ x <> "" /\ x <> "." /\ x <> "..") c ->
  c <> [] -> components (String.concat "/" c) = Some c.
Proof.
  intros Hall Hne. unfold components.
  rewrite split_on_concat; [|done|by eapply Forall_impl; [exact Hall|]; intros ? [? _]].
  assert (startswith (String.concat "/" c) "/" = false) as ->.
  { destruct c as [|x c]; [done|]. apply Forall_cons in Hall as [(Hx & Hx' & _) _].
    pose proof (no_slash_startswith x Hx) as Hs.
    destruct c; cbn [String.concat]; [done|].
    destruct x as [|a x]; [done|]. unfold startswith in *. rewrite append_cons.
    cbn [String.prefix] in *. destruct (Ascii.ascii_dec _ _); [|done].
    by destruct x. }
  rewrite bool_decide_eq_false_2.
  - cbn [orb]. f_equal. apply filter_all.
    eapply Forall_impl; [exact Hall|]. naive_solver.
  - intros Hin. rewrite Forall_forall in Hall. by destruct (Hall _ Hin) as (_ & _ & _ & ?).
Qed.

(** Normalising a path of the tree does not change what it names. *)
Lemma components_normpath (p : string) (c : list string) :
  components p = Some c -> components (normpath p) = Some c.
Proof.
  intros Hc. rewrite (normpath_components p c Hc).
  destruct c as [|x c]; [done|]. apply components_concat; [|done].
  by apply components_filtered in Hc.
Qed.

Lemma basename_normpath (p name : string) (c : list string) :
  components p = Some (c ++ [name])%list -> basename (normpath p) = name.
Proof.
  intros Hc. rewrite (normpath_components p _ Hc).
  assert (match (c ++ [name])%list with
          | [] => "."
          | _ => String.concat "/" (c ++ [name])%list
          end = String.concat "/" (c ++ [name])%list) as -> by (by destruct c).
  unfold basename. rewrite split_on_concat.
  - by rewrite last_snoc.
  - by destruct c.
  - apply components_filtered in Hc. eapply Forall_impl; [exact Hc|]. by intros ? [? _].
Qed.

End Normalised.

(** ** Languages and handlers *)

Section Languages.
Variable J : list Re.regex.

Lemma ext_lang_pairs (L : list (string * list string)) (m0 : gmap string string)
    (e lang : string) :
  fold_left (fun m le => fold_left (fun m e => <[e := fst le]> m) (snd le) m) L m0
    !! e = Some lang ->
  m0 !! e = Some lang \/ exists exts, (lang, exts) ∈ L /\ e ∈ exts.
Proof.
  revert m0. induction L as [|[l exts] L IH]; intros m0; cbn [fold_left fst snd].
  { by left. }
  intros [H|(exts' & Hin & He)]%IH.
  2:{ right. exists exts'. split; [by right|done]. }
  assert (forall m : gmap string string,
            fold_left (fun m e => <[e := l]> m) exts m !! e = Some lang ->
            m !! e = Some lang \/ (lang = l /\ e ∈ exts)) as Hin.
  { clear. induction exts as [|x exts IH]; intros m; cbn [fold_left]; [by left|].
    intros [H|[-> H]]%IH.
    - rewrite lookup_insert in H. case_decide as Hx; [|by left].
      right. split; [congruence|]. subst. left.
    - right. split; [done|]. by right. }
  apply Hin in H as [H|[-> H]]; [by left|]. right. exists exts. split; [left|done].
Qed.

(** A detected language is one of the table, and has its handler. *)
Lemma detect_language_handler (path lang : string) :
  detect_language_for_file path = Some lang ->
  exists exts, (lang, exts) ∈ file_extensions_map /\ splitext_ext path ∈ exts /\
    exists h, LANG_HANDLERS J !! lang = Some h /\ name h = lang /\ extensions h = exts.
Proof.
  unfold detect_language_for_file. set (e := splitext_ext path). clearbody e.
  intros [H|(exts & Hin & He)]%ext_lang_pairs; [by rewrite lookup_empty in H|].
  exists exts. split; [done|]. split; [done|].
  apply list_elem_of_In in Hin. cbn [file_extensions_map In] in Hin.
  unfold LANG_HANDLERS.
  repeat (destruct Hin as [[= <- <-]|Hin];
          [repeat (rewrite lookup_insert_ne by done);
           rewrite lookup_insert_eq; by eexists|]).
  done.
Qed.

(** X3.  The extension map inverts the table of the configuration: a path has
    language [lang] exactly when its extension is listed for [lang], no
    extension being listed twice; and every such language has its handler,
    with the name of the language and the listed extensions. *)
Theorem detect_language_exact (path lang : string) :
  detect_language_for_file path = Some lang <->
  exists exts, (lang, exts) ∈ file_extensions_map /\ splitext_ext path ∈ exts /\
    exists h, LANG_HANDLERS J !! lang = Some h /\ name h = lang /\ extensions h = exts.
Proof.
  split; [apply detect_language_handler|].
  unfold detect_language_for_file. set (e := splitext_ext path). clearbody e.
  intros (exts & Hin & He & _).
  apply list_elem_of_In in Hin. cbn [file_extensions_map In] in Hin.
  repeat (destruct Hin as [[= <- <-]|Hin];
          [apply list_elem_of_In in He; cbn [In] in He;
           repeat (destruct He as [<-|He]; [by vm_compute|]); done|]).
  done.
Qed.

End Languages.

(** ** What the scanner returns *)

Section Scanned.
Variable J : list Re.regex.
Import FS.

Lemma get_entry (t : node) (p q : list string) (k : string) (n : node) :
  get t (p ++ k :: q) = Some n ->
  exists es, get t p = Some (Dir es) /\ is_Some (es !! k).
Proof.
  rewrite get_app. destruct (get t p) as [[|es]|]; try done.
  cbn [mbind option_bind get]. intros H. exists es. split; [done|].
  by destruct (es !! k); [eexists|].
Qed.

Lemma plain_along (t : node) (q : list string) : forall (p : list string) (n : node),
  plain_names t -> get t (p ++ q) = Some n -> Forall (fun k => plain k = true) q.
Proof.
  induction q as [|k q IH]; intros p n Hpl Hget; [constructor|].
  constructor.
  - destruct (get_entry t p q k n Hget) as (es & Hes & Hk). by apply (Hpl p es k).
  - apply (IH (p ++ [k])%list n Hpl). by rewrite <-app_assoc.
Qed.

Lemma fold_join_plain (ds : list string) : forall (root : string) (cr : list string),
  truthy root = true -> endswith root "/" = false -> components root = Some cr ->
  Forall (fun k => plain k = true) ds ->
  truthy (fold_left join ds root) = true /\
  endswith (fold_left join ds root) "/" = false /\
  components (fold_left join ds root) = Some (cr ++ ds)%list.
Proof.
  induction ds as [|k ds IH]; intros root cr Hr He Hc Hds.
  { by rewrite app_nil_r. }
  apply Forall_cons in Hds as [Hk Hds]. cbn [fold_left].
  destruct (join_plain_endswith root k Hr He Hk) as [Hr' He'].
  destruct (IH (join root k) (cr ++ [k])%list Hr' He') as (H1 & H2 & H3); [|done|].
  { by apply components_join_plain. }
  by rewrite <-app_assoc in H3.
Qed.

(** X2.  In a tree whose entries bear plain names, every path a scan returns
    can be opened, names a file at or below the root that lies in no
    excluded directory below it and matches no skip pattern, and has a
    language with a handler. *)
Theorem scanned_files_open (t : node) (root f : string) :
  plain_names t -> truthy root = true -> endswith root "/" = false ->
  f ∈ scan_tree t root ->
  (exists d, read_text t f = Some d) /\
  (exists cr ds, components root = Some cr /\
     components f = Some (cr ++ ds ++ [basename f])%list /\
     Forall (fun dir => dir ∉ EXCLUDED_DIRS) ds) /\
  skip_name (basename f) = false /\
  exists lang h, detect_language_for_file f = Some lang /\
    LANG_HANDLERS J !! lang = Some h /\ name h = lang /\
    splitext_ext f ∈ extensions h.
Proof.
  intros Hpl Hr He (cr & ds & nm & d & m & Hcr & Hds & Hget & Hskip & Hext & ->)%scan_tree_inv.
  assert (Forall (fun k => plain k = true) (ds ++ [nm])%list) as Hplain.
  { apply (plain_along t _ cr (File d m) Hpl Hget). }
  apply Forall_app in Hplain as [Hplds Hplnm]. apply Forall_inv in Hplnm.
  destruct (fold_join_plain ds root cr Hr He Hcr Hplds) as (Hr' & He' & Hc').
  assert (components (join (fold_left join ds root) nm) = Some ((cr ++ ds) ++ [nm])%list)
    as Hjoin by (by apply components_join_plain).
  pose proof (components_normpath _ _ Hjoin) as Hnorm.
  pose proof (basename_normpath _ _ _ Hjoin) as Hbase.
  set (f := normpath (join (fold_left join ds root) nm)) in *.
  split; [|split; [|split]].
  - exists d. unfold read_text, lookup. rewrite Hnorm. cbn [mbind option_bind].
    by rewrite <-app_assoc, Hget.
  - exists cr, ds. rewrite Hbase. split; [done|]. split; [|done].
    by rewrite Hnorm, <-app_assoc.
  - by rewrite Hbase.
  - assert (splitext_ext f = splitext_ext nm) as Hsame.
    { assert (basename nm = nm) as Hnm.
      { unfold basename. by rewrite split_on_no_slash by (by apply plain_no_slash). }
      unfold splitext_ext. by rewrite Hbase, Hnm. }
    destruct Hext as [lang Hlang].
    assert (detect_language_for_file f = Some lang) as Hdet.
    { unfold detect_language_for_file. by rewrite Hsame. }
    destruct (detect_language_handler J f lang Hdet)
      as (exts & _ & Hin & h & Hh & Hname & Hexts).
    exists lang, h. by rewrite Hexts.
Qed.

Lemma plain_names_one_file : plain_names one_file_tree.
Proof.
  intros p es k Hget [n Hk]. unfold one_file_tree in Hget.
  destruct p as [|a p]; cbn [get] in Hget.
  { injection Hget as <-. by apply lookup_singleton_Some in Hk as [<- _]. }
  destruct (_ !! a) as [n1|] eqn:Ha; [|done].
  apply lookup_singleton_Some in Ha as [<- <-]. cbn [mbind option_bind] in Hget.
  destruct p as [|b p]; cbn [get] in Hget.
  { injection Hget as <-. by apply lookup_singleton_Some in Hk as [<- _]. }
  destruct (_ !! b) as [n2|] eqn:Hb; [|done].
  apply lookup_singleton_Some in Hb as [<- <-]. cbn [mbind option_bind] in Hget.
  by destruct p.
Qed.

End Scanned.

(** The one file of the small tree. *)
Lemma scanned_files_open_witness :
  exists d, FS.read_text one_file_tree "src/a.js" = Some d.
Proof.
  refine (proj1 (scanned_files_open [] one_file_tree PROJECT_ROOT "src/a.js" _ _ _ _)).
  - apply plain_names_one_file.
  - reflexivity.
  - reflexivity.
  - apply list_elem_of_In. vm_compute. by left.
Defined.

(** ** The scan with caching *)

Section CachedScan.
Import FS.

(** In a tree whose entries bear plain names a scanned path names the
    regular file the walk met. *)
Lemma scanned_file_found (t : node) (root f : string) :
  plain_names t -> truthy root = true -> endswith root "/" = false ->
  f ∈ scan_tree t root ->
  f <> "" /\ normpath f = f /\ exists d m, lookup t f = Some (File d m).
Proof.
  intros Hpl Hr He (cr & ds & nm & d & m & Hcr & Hds & Hget & Hskip & Hext & ->)%scan_tree_inv.
  assert (Forall (fun k => plain k = true) (ds ++ [nm])%list) as Hplain.
  { apply (plain_along t _ cr (File d m) Hpl Hget). }
  apply Forall_app in Hplain as [Hplds Hplnm]. apply Forall_inv in Hplnm.
  destruct (fold_join_plain ds root cr Hr He Hcr Hplds) as (Hr' & He' & Hc').
  assert (components (join (fold_left join ds root) nm) = Some ((cr ++ ds) ++ [nm])%list)
    as Hjoin by (by apply components_join_plain).
  pose proof (components_normpath _ _ Hjoin) as Hnorm.
  split; [|split].
  - intros Hempty. rewrite Hempty in Hnorm. by destruct cr, ds.
  - rewrite (normpath_components _ _ Hnorm). symmetry.
    apply (normpath_components _ _ Hjoin).
  - exists d, m. unfold lookup. rewrite Hnorm. cbn [mbind option_bind].
    by rewrite <-app_assoc.
Qed.

(** The check of the cache, entry by entry. *)
Lemma cache_check_passes (w : world) (root : string) (c : cache_json)
    (files : list string) :
  cache w = Cached c ->
  c_root c = Some (abspath w root) ->
  Forall2 (fun e p => ce_path e = Some p /\ p <> "" /\ normpath p = p /\
             exists d m, lookup (fs w) p = Some (File d m) /\ ce_mtime e = Some m)
          (c_files c) files ->
  cached_file_list w root = Some files.
Proof.
  intros Hc Hroot Hall. unfold cached_file_list. rewrite Hc.
  rewrite bool_decide_eq_true_2 by done. cbn [andb].
  assert (forallb (entry_ok w) (c_files c) = true
          /\ map (fun e => default "" (ce_path e)) (c_files c) = files) as [-> ->]; [|done].
  induction Hall as [|e p es ps (Hp & Hne & _ & d & m & Hl & Hm) _ [IH1 IH2]]; [done|].
  cbn [forallb map]. rewrite IH1, IH2, Hp. cbn [default from_option]. unfold id.
  split; [|done]. rewrite andb_true_r. unfold entry_ok. rewrite Hp.
  assert (truthy p = true) as -> by (by destruct p).
  unfold exists_, getmtime. rewrite Hl.
  rewrite bool_decide_eq_true_2 by (by eexists). cbn [andb].
  apply bool_decide_eq_true. by rewrite Hm.
Qed.

(** C5, amended.  When the cache file was written by a walk of the same
    root (a scan that missed or bypassed the cache, the cache file being
    writable) in a tree whose entries bear plain names, and the tree is as
    that walk saw it, the scan with caching walks no tree, leaves the world
    as it is and returns the very list an uncached rescan returns.  In
    every state, when the recorded root is the absolute scan root and every
    cached entry has a non-empty normalised path that names a regular file
    with the recorded modification time, the scan with caching returns the
    cached paths as they are, again without a walk.  Nothing is said of files
    added since the cache was written. *)
Theorem C5_cached_scan (root : string) (w : world) :
  (forall use_cache,
     plain_names (fs w) -> truthy root = true -> endswith root "/" = false ->
     cache_writable w = true ->
     walks (snd (build_file_list root use_cache w)) <> walks w ->
     let w1 := snd (build_file_list root use_cache w) in
     fs w1 = fs w /\
     build_file_list root true w1 = (fst (build_file_list root false w1), w1) /\
     walks (snd (build_file_list root true w1)) = walks w1) /\
  (forall c files,
     cache w = Cached c ->
     c_root c = Some (abspath w root) ->
     Forall2 (fun e p => ce_path e = Some p /\ p <> "" /\ normpath p = p /\
                exists d m, lookup (fs w) p = Some (File d m) /\ ce_mtime e = Some m)
             (c_files c) files ->
     build_file_list root true w = (files, w) /\
     walks (snd (build_file_list root true w)) = walks w).
Proof.
  assert (forall w' c files,
     cache w' = Cached c ->
     c_root c = Some (abspath w' root) ->
     Forall2 (fun e p => ce_path e = Some p /\ p <> "" /\ normpath p = p /\
                exists d m, lookup (fs w') p = Some (File d m) /\ ce_mtime e = Some m)
             (c_files c) files ->
     build_file_list root true w' = (files, w')) as Hhit.
  { intros w' c files Hc Hroot Hall. unfold build_file_list.
    by rewrite (cache_check_passes w' root c files Hc Hroot Hall). }
  split.
  - intros use_cache Hpl Hr He Hwr Hwalk w1.
    set (files := scan_tree (fs w) root).
    assert (w1 = World (fs w) (Cached (cache_of_scan w root files)) true (cwd w)
                   (clock w) (S (walks w))) as Hw1.
    { subst w1. unfold build_file_list in Hwalk |- *.
      destruct (if use_cache then cached_file_list w root else None) as [l|].
      - by cbn [snd] in Hwalk.
      - cbn [snd]. by rewrite Hwr. }
    clearbody w1. subst w1.
    set (w1 := World (fs w) (Cached (cache_of_scan w root files)) true (cwd w)
                 (clock w) (S (walks w))).
    split; [done|].
    assert (build_file_list root true w1 = (files, w1)) as Hb.
    { apply (Hhit w1 (cache_of_scan w root files)); [done|done|].
      unfold cache_of_scan. cbn [c_files].
      apply Forall2_fmap_l, Forall_Forall2_diag, Forall_forall.
      intros p Hp. cbn [ce_path ce_mtime].
      destruct (scanned_file_found (fs w) root p Hpl Hr He Hp)
        as (Hne & Hnp & d & m & Hl).
      split; [done|]. split; [done|]. split; [done|]. exists d, m. split; [exact Hl|].
      unfold getmtime. by rewrite Hl. }
    rewrite Hb. split; [|done]. unfold build_file_list. done.
  - intros c files Hc Hroot Hall. by rewrite (Hhit w c files Hc Hroot Hall).
Qed.

End CachedScan.

(** The project scanned once and left alone: the second scan is answered
    from the cache. *)
Lemma C5_cached_scan_witness :
  build_file_list PROJECT_ROOT true scanned_once = (["src/a.js"], scanned_once).
Proof.
  pose (w0 := World one_file_tree NoCache true "/home/dev/project" 10 0).
  destruct (C5_cached_scan PROJECT_ROOT w0) as (Hwalk & _).
  destruct (Hwalk true) as (_ & Hres & _).
  - apply plain_names_one_file.
  - reflexivity.
  - reflexivity.
  - reflexivity.
  - by vm_compute.
  - exact Hres.
Defined.

(** ** The cache of the scanner *)

Section CacheCheck.
Import FS.

(** X4.  The cache is dropped as soon as one cached path names nothing any
    more, or names a regular file with another modification time than the
    recorded one: the cached list is not used, and the scan with caching
    is the full walk of the tree. *)
Theorem cache_invalidated (root : string) (w w' : world) (files : list string)
    (f : string) :
  cached_file_list w root = Some files -> f ∈ files ->
  cache w' = cache w -> cwd w' = cwd w ->
  (exists_ (fs w') f = false
   \/ exists d m, lookup (fs w') f = Some (File d m) /\ getmtime (fs w) f <> Some m) ->
  cached_file_list w' root = None /\
  build_file_list root true w' = build_file_list root false w' /\
  fst (build_file_list root true w') = scan_tree (fs w') root /\
  walks (snd (build_file_list root true w')) = S (walks w').
Proof.
  intros Hc Hf Hcache Hcwd Hm.
  assert (cached_file_list w' root = None) as Hnone.
  { unfold cached_file_list in Hc |- *. rewrite Hcache.
    destruct (cache w) as [| |c]; try done.
    unfold abspath in Hc |- *. rewrite Hcwd.
    destruct (bool_decide (c_root c = _)); [|done]. cbn [andb] in Hc |- *.
    destruct (forallb (entry_ok w) (c_files c)) eqn:Hall; [|done].
    injection Hc as <-. apply list_elem_of_fmap in Hf as (e & -> & He).
    rewrite forallb_forall in Hall. apply list_elem_of_In in He.
    specialize (Hall e He). unfold entry_ok in Hall.
    destruct (forallb (entry_ok w') (c_files c)) eqn:Hall'; [|done]. exfalso.
    rewrite forallb_forall in Hall'. specialize (Hall' e He).
    unfold entry_ok in Hall'. destruct (ce_path e) as [p|]; [|done].
    cbn [default from_option] in Hm. unfold id in Hm.
    apply andb_prop in Hall as [_ Hall], Hall' as [Hex' Hall'].
    apply andb_prop in Hex' as [_ Hex'].
    apply bool_decide_eq_true in Hall as [Hall _], Hall' as [Hall' _].
    destruct Hm as [Hgone|(d & m & Hl & Hne)]; [congruence|].
    unfold getmtime in Hall'. rewrite Hl in Hall'. congruence. }
  split; [done|]. unfold build_file_list. by rewrite Hnone.
Qed.

End CacheCheck.

(** The file of the project scanned once is written again a moment
    later. *)
Lemma cache_invalidated_witness :
  fst (build_file_list PROJECT_ROOT true
         (set_fs scanned_once
            (mk_tree ∅ {[ "a.js" := FS.File "export default 2" 11 ]} ∅)))
  = scan_tree (mk_tree ∅ {[ "a.js" := FS.File "export default 2" 11 ]} ∅) PROJECT_ROOT.
Proof.
  refine (proj1 (proj2 (proj2
    (cache_invalidated PROJECT_ROOT scanned_once
       (set_fs scanned_once (mk_tree ∅ {[ "a.js" := FS.File "export default 2" 11 ]} ∅))
       ["src/a.js"] "src/a.js" _ _ _ _ _)))).
  - by vm_compute.
  - left.
  - reflexivity.
  - reflexivity.
  - right. exists "export default 2", 11%Z. split; [reflexivity|by vm_compute].
Defined.

(** ** The edges of the graph *)

Section Edges.
Variable J : list Re.regex.

Lemma normpath_truthy (p : string) : truthy (normpath p) = true.
Proof.
  unfold normpath. destruct (negb (truthy p)); [done|].
  match goal with |- truthy (if truthy ?r then _ else _) = true =>
    destruct (truthy r) eqn:Hr end; done.
Qed.

Lemma find_probe_truthy (S : gset string) (f : string -> string)
    (l : list string) (p : string) :
  find (in_set S) (map (fun x => normpath (f x)) l) = Some p -> truthy p = true.
Proof.
  intros H. apply find_some in H as [H _]. apply in_map_iff in H as (x & <- & _).
  apply normpath_truthy.
Qed.

Lemma ext_probes_truthy (S : gset string) (exts : list string) (c p : string) :
  find (in_set S) (ext_probes exts c) = Some p -> truthy p = true.
Proof.
  intros H. apply find_some in H as [H _]. unfold ext_probes in H.
  apply in_flat_map in H as (ext & _ & [<-|[<-|[]]]); apply normpath_truthy.
Qed.

(** What the resolver returns is never the empty string. *)
Lemma resolve_import_truthy (h : LanguageHandler) (f imp : string) (S : gset string)
    (target : string) :
  resolve_import h f imp S = Some target -> truthy target = true.
Proof.
  unfold resolve_import.
  destruct (negb (truthy (strip imp))); [done|].
  destruct (_ || _).
  - destruct (find _ _) eqn:Hf.
    + intros [= <-]. by apply ext_probes_truthy in Hf.
    + destruct (in_set S _); [|done]. intros [= <-]. apply normpath_truthy.
  - destruct (if contains _ "/" then _ else _) eqn:Hp.
    + intros [= <-]. destruct (contains _ "/"); [|done].
      by apply ext_probes_truthy in Hp.
    + destruct (_ && _); [|done]. apply find_probe_truthy.
Qed.

(** A loop whose body may raise, with the elements seen so far. *)
Lemma ofold_prefix_inv {A B : Type} (P : list A -> B -> Prop)
    (step : B -> A -> option B) (l : list A) :
  (forall seen x b b1, P seen b -> step b x = Some b1 -> P (seen ++ [x])%list b1) ->
  forall seen b b', P seen b -> ofold step l b = Some b' -> P (seen ++ l)%list b'.
Proof.
  intros Hstep. induction l as [|x l IH]; intros seen b b' Hb Hf.
  - cbn [ofold] in Hf. injection Hf as <-. by rewrite app_nil_r.
  - cbn [ofold] in Hf. destruct (step b x) as [b1|] eqn:Hs; [|done].
    cbn [mbind option_bind] in Hf.
    replace (seen ++ x :: l)%list with ((seen ++ [x]) ++ l)%list
      by (by rewrite <-app_assoc).
    apply (IH _ b1); [|done]. by apply (Hstep seen x b).
Qed.

(** The edges one file adds to [imports_of]. *)
Lemma analyze_file_edges (t : FS.node) (S : gset string) (g g1 : graph) (f : string) :
  analyze_file J t S g f = Some g1 ->
  forall f0 s, snd g1 !! f0 = Some s ->
    exists s0, snd g !! f0 = Some s0 /\
      forall g0, g0 ∈ s <-> g0 ∈ s0 \/ (f0 = f /\ resolves_to J t S f g0).
Proof.
  unfold analyze_file. intros Hstep.
  assert (forall f0 s, snd g !! f0 = Some s -> ~ (exists g0, resolves_to J t S f g0) ->
            exists s0, snd g !! f0 = Some s0 /\
              forall g0, g0 ∈ s <-> g0 ∈ s0 \/ (f0 = f /\ resolves_to J t S f g0))
    as Hsame.
  { intros f0 s Hs Hno. exists s. split; [done|]. intros g0. split; [by left|].
    intros [|[_ Hr]]; [done|]. destruct Hno. by exists g0. }
  destruct (lang_of f) as [lang|] eqn:Hlang.
  2:{ injection Hstep as <-. intros f0 s Hs. apply Hsame; [done|].
      intros (g0 & l & ? & ? & ? & ? & ? & _). congruence. }
  destruct (LANG_HANDLERS J !! lang) as [h|] eqn:Hh.
  2:{ injection Hstep as <-. intros f0 s Hs. apply Hsame; [done|].
      intros (g0 & l & ? & ? & ? & ? & Hl & Hh' & _). congruence. }
  destruct (FS.read_text t f) as [text|] eqn:Htext.
  2:{ injection Hstep as <-. intros f0 s Hs. apply Hsame; [done|].
      intros (g0 & l & ? & ? & ? & ? & Hl & Hh' & Ht & _). congruence. }
  destruct (imports_in h lang text) as [imps|] eqn:Himps; [|done].
  cbn [mbind option_bind] in Hstep.
  assert (forall f0 s, snd g1 !! f0 = Some s ->
            exists s0, snd g !! f0 = Some s0 /\
              forall g0, g0 ∈ s <->
                g0 ∈ s0 \/ (f0 = f /\ exists imp, imp ∈ ([] ++ imps)%list /\
                                       resolve_import h f imp S = Some g0)) as Hinner.
  { apply (ofold_prefix_inv
             (fun seen (g' : graph) =>
                forall f0 s, snd g' !! f0 = Some s ->
                  exists s0, snd g !! f0 = Some s0 /\
                    forall g0, g0 ∈ s <->
                      g0 ∈ s0 \/ (f0 = f /\ exists imp, imp ∈ seen /\
                                             resolve_import h f imp S = Some g0))
             (add_import h S f) imps) with (b := g); [| |done].
    - intros seen imp b b1 Hb Hadd f0 s Hs. unfold add_import in Hadd.
      assert (forall s0 : gset string,
                (forall g0, g0 ∈ s <->
                   g0 ∈ s0 \/ (f0 = f /\ exists imp0, imp0 ∈ seen /\
                                          resolve_import h f imp0 S = Some g0)) ->
                resolve_import h f imp S = None ->
                forall g0, g0 ∈ s <->
                  g0 ∈ s0 \/ (f0 = f /\ exists imp0, imp0 ∈ (seen ++ [imp])%list /\
                                         resolve_import h f imp0 S = Some g0)) as Hskip.
      { intros s0 Hold Hnone g0. rewrite Hold. split.
        - intros [|(-> & imp0 & Hin & Hr)]; [by left|]. right. split; [done|].
          exists imp0. split; [|done]. apply elem_of_app. by left.
        - intros [|(-> & imp0 & Hin & Hr)]; [by left|]. right. split; [done|].
          exists imp0. split; [|done].
          apply elem_of_app in Hin as [|Hin]; [done|].
          apply list_elem_of_singleton in Hin as ->. congruence. }
      destruct (resolve_import h f imp S) as [target|] eqn:Hres.
      2:{ injection Hadd as <-. destruct (Hb f0 s Hs) as (s0 & Hs0 & Hold).
          exists s0. split; [done|]. by apply Hskip. }
      rewrite (resolve_import_truthy _ _ _ _ _ Hres) in Hadd.
      unfold add_edge in Hadd.
      destruct (fst b !! target) as [sr|]; [|done]. cbn [mbind option_bind] in Hadd.
      destruct (snd b !! f) as [sf|] eqn:Hsf; [|done]. cbn [mbind option_bind] in Hadd.
      injection Hadd as <-. cbn [snd] in Hs.
      destruct (decide (f0 = f)) as [->|Hne].
      + rewrite lookup_insert_eq in Hs. injection Hs as <-.
        destruct (Hb f sf Hsf) as (s0 & Hs0 & Hold). exists s0. split; [done|].
        intros g0. rewrite elem_of_union, elem_of_singleton, Hold. split.
        * intros [[|(_ & imp0 & Hin & Hr)]| ->]; [by left|right..]; (split; [done|]).
          -- exists imp0. split; [|done]. apply elem_of_app. by left.
          -- exists imp. split; [|done]. apply elem_of_app. right. left.
        * intros [|(_ & imp0 & Hin & Hr)]; [by left; left|].
          apply elem_of_app in Hin as [Hin|Hin].
          -- left. right. split; [done|]. by exists imp0.
          -- apply list_elem_of_singleton in Hin as ->. right. congruence.
      + rewrite lookup_insert_ne in Hs by done.
        destruct (Hb f0 s Hs) as (s0 & Hs0 & Hold). exists s0. split; [done|].
        intros g0. rewrite Hold. split; (intros [|[? _]]; [by left|done]).
    - intros f0 s Hs. exists s. split; [done|]. intros g0. split; [by left|].
      intros [|(_ & imp & Hin & _)]; [done|]. by apply elem_of_nil in Hin. }
  intros f0 s Hs. destruct (Hinner f0 s Hs) as (s0 & Hs0 & Hiff).
  exists s0. split; [done|]. intros g0. rewrite Hiff. cbn [app]. split.
  - intros [|(-> & imp & Hin & Hr)]; [by left|]. right. split; [done|].
    by exists lang, h, text, imps, imp.
  - intros [|(-> & l & h' & tx & is' & imp & Hl & Hh' & Ht & Hi & Hin & Hr)];
      [by left|]. right. split; [done|].
    rewrite Hlang in Hl. injection Hl as <-. rewrite Hh in Hh'. injection Hh' as <-.
    rewrite Htext in Ht. injection Ht as <-. rewrite Himps in Hi. injection Hi as <-.
    by exists imp.
Qed.

(** X5.  [analyze_project] always returns, and the graph holds exactly the
    edges the resolver gives: [g] is in [imports_of[f]] exactly when [f] is
    a scanned file with a specifier that resolves to [g], and [f] is in
    [referenced_by[g]] in exactly the same case. *)
Theorem analyze_project_edges (root : string) (use_cache : bool) (w : world) :
  exists files referenced_by imports_of,
    fst (analyze_project J root use_cache w)
      = Some (files, (referenced_by, imports_of)) /\
    files = fst (build_file_list root use_cache w) /\
    (forall f g, (exists s, imports_of !! f = Some s /\ g ∈ s) <->
       f ∈ files /\ resolves_to J (fs w) (list_to_set files) f g) /\
    (forall f g, (exists s, referenced_by !! g = Some s /\ f ∈ s) <->
       f ∈ files /\ resolves_to J (fs w) (list_to_set files) f g).
Proof.
  unfold analyze_project. cbn [fst snd]. rewrite build_file_list_fs.
  set (files := fst (build_file_list root use_cache w)).
  set (S := list_to_set files : gset string).
  destruct (build_graph_ok J (fs w) files) as ([rb io] & Hg & Hd1 & Hd2 & Hio & Hrb & Htr).
  rewrite Hg. cbn [fst snd fmap option_fmap option_map] in *.
  exists files, rb, io. split; [done|]. split; [done|].
  assert (forall f s, io !! f = Some s ->
            forall g, g ∈ s <-> f ∈ files /\ resolves_to J (fs w) S f g) as Hedges.
  { set (Pinv := fun (seen : list string) (g' : graph) =>
         forall f0 s0, snd g' !! f0 = Some s0 ->
           forall g0, g0 ∈ s0 <-> f0 ∈ seen /\ resolves_to J (fs w) S f0 g0).
    assert (Pinv ([] ++ files)%list (rb, io)) as Hinv.
    { apply (ofold_prefix_inv Pinv (analyze_file J (fs w) S) files)
        with (b := (empty_adjacency files, empty_adjacency files)); [| |exact Hg].
      - intros seen x b b1 Hb Hstep f0 s1 Hs1 g0.
        destruct (analyze_file_edges _ _ _ _ _ Hstep f0 s1 Hs1) as (s0 & Hs0 & Hiff).
        rewrite Hiff, (Hb f0 s0 Hs0 g0), elem_of_app, list_elem_of_singleton.
        split.
        + intros [[? ?]|[-> ?]]; auto.
        + intros [[?| ->] ?]; auto.
      - intros f0 s0 Hs0 g0. cbn [snd] in Hs0. unfold empty_adjacency in Hs0.
        apply lookup_gset_to_gmap_Some in Hs0 as [_ <-]. split; [set_solver|].
        intros [Hin _]. by apply elem_of_nil in Hin. }
    intros f s Hs g. apply (Hinv f s Hs g). }
  split.
  - intros f g. split.
    + intros (s & Hs & Hg0). by apply (Hedges f s Hs).
    + intros [Hf Hr]. assert (is_Some (io !! f)) as [s Hs].
      { apply elem_of_dom. rewrite Hd2. subst S. set_solver. }
      exists s. split; [done|]. by apply (Hedges f s Hs).
  - intros f g. split.
    + intros (s & Hs & Hf). assert (f ∈ S) as HfS by (specialize (Hrb _ _ Hs); set_solver).
      assert (is_Some (io !! f)) as [sf Hsf] by (apply elem_of_dom; by rewrite Hd2).
      apply (Hedges f sf Hsf). by apply (Htr f g sf s Hsf Hs).
    + intros [Hf Hr]. assert (is_Some (io !! f)) as [sf Hsf].
      { apply elem_of_dom. rewrite Hd2. subst S. set_solver. }
      assert (g ∈ sf) as Hg0 by (by apply (Hedges f sf Hsf)).
      assert (g ∈ S) as HgS by (specialize (Hio _ _ Hsf); set_solver).
      assert (is_Some (rb !! g)) as [s Hs] by (apply elem_of_dom; by rewrite Hd1).
      exists s. split; [done|]. by apply (Htr f g sf s Hsf Hs).
Qed.

End Edges.

(** ** Deleting dead files *)

Section DeadFiles.
Variable J : list Re.regex.
Import FS.

Lemma analyze_project_world (root : string) (use_cache : bool) (w : world) :
  snd (analyze_project J root use_cache w) = snd (build_file_list root use_cache w).
Proof. reflexivity. Qed.

Lemma elem_of_pick_dead (assume_yes : bool) (answers : string -> answer)
    (dead to_delete : list string) (f : string) :
  pick_dead assume_yes answers dead = Some to_delete ->
  f ∈ to_delete <-> f ∈ dead /\ (assume_yes = true \/ answers f = Yes).
Proof.
  unfold pick_dead. destruct assume_yes; cbn [SAFE_MODE negb andb].
  - intros [= <-]. naive_solver.
  - destruct (existsb _ dead); [done|]. intros [= <-].
    rewrite list_elem_of_filter. naive_solver.
Qed.

(** X6.  [detect_and_handle_dead] always returns the list [detect_dead_files]
    computes from the graph.  The files it deletes are among those it
    selected (all of the list with [assume_yes], else the ones answered
    with yes): every other file of the project keeps its text, whatever
    happened to the snapshot.  A dry run, an empty selection and an exit
    word at any prompt leave the tree as it is; and in a project root that
    is a directory no selected file is left after a run. *)
Theorem dead_files_only_selected (dry_run assume_yes : bool)
    (answers : string -> answer) (use_cache : bool) (ts : string) (w : world) :
  exists dead,
    let r := detect_and_handle_dead J dry_run assume_yes answers use_cache ts w in
    fst r = Some dead /\
    (forall files g, fst (analyze_project J PROJECT_ROOT use_cache w) = Some (files, g) ->
       dead = detect_dead_files files (fst g)) /\
    (forall q cs,
       components q = Some (PROJECT_ROOT :: cs) ->
       (forall f, f ∈ dead -> assume_yes = true \/ answers f = Yes ->
                  components f <> components q) ->
       read_text (fs (snd r)) q = read_text (fs w) q) /\
    (dry_run = true -> fs (snd r) = fs w) /\
    (assume_yes = false -> (exists f, f ∈ dead /\ answers f = Quit) ->
     fs (snd r) = fs w) /\
    (assume_yes = false -> (forall f, f ∈ dead -> answers f <> Yes) ->
     fs (snd r) = fs w) /\
    (forall f,
       dry_run = false -> isdir (fs w) PROJECT_ROOT = true -> f ∈ dead ->
       assume_yes = true \/ (answers f = Yes /\ forall g, g ∈ dead -> answers g <> Quit) ->
       read_text (fs (snd r)) f = None).
Proof.
  destruct (analyze_project_total J PROJECT_ROOT use_cache w) as ([rb io] & Ha).
  unfold detect_and_handle_dead. rewrite Ha. cbn [fst snd].
  rewrite analyze_project_world.
  set (w1 := snd (build_file_list PROJECT_ROOT use_cache w)).
  assert (fs w1 = fs w) as Hw1 by apply build_file_list_fs.
  set (dead := detect_dead_files _ rb). exists dead.
  destruct (bool_decide (dead = []) || dry_run) eqn:Hskip.
  { cbn [fst snd]. split; [done|]. split; [by intros files g [= <- <-]|].
    rewrite Hw1. split; [done|]. split; [done|]. split; [done|]. split; [done|].
    intros f Hdry _ Hf _. subst dry_run. rewrite orb_false_r in Hskip.
    apply bool_decide_eq_true in Hskip. rewrite Hskip in Hf. by apply elem_of_nil in Hf. }
  apply orb_false_iff in Hskip as [Hne ->].
  destruct (pick_dead assume_yes answers dead) as [to_delete|] eqn:Hpick.
  2:{ cbn [fst snd]. split; [done|]. split; [by intros files g [= <- <-]|].
      rewrite Hw1. split; [done|]. split; [done|]. split; [done|]. split; [done|].
      intros f _ _ Hf Hsel. exfalso. unfold pick_dead in Hpick.
      destruct assume_yes; cbn [SAFE_MODE negb andb] in Hpick; [done|].
      destruct (existsb _ dead) eqn:Hq; [|done].
      apply existsb_exists in Hq as (g & Hg & Hquit). apply list_elem_of_In in Hg.
      destruct Hsel as [|[_ Hno]]; [done|]. specialize (Hno g Hg).
      by destruct (answers g). }
  pose proof (fun f => elem_of_pick_dead assume_yes answers dead to_delete f Hpick)
    as Hsel.
  assert (forall f, f ∈ dead -> answers f = Quit -> assume_yes = false -> False)
    as Hnoquit.
  { intros f Hf Hquit ->. unfold pick_dead in Hpick.
    cbn [SAFE_MODE negb andb] in Hpick.
    destruct (existsb _ dead) eqn:Hq; [done|].
    assert (existsb (fun f => match answers f with Quit => true | _ => false end) dead
            = true) as Hq'.
    { apply existsb_exists. exists f. split; [by apply list_elem_of_In|].
      by rewrite Hquit. }
    congruence. }
  destruct to_delete as [|f0 to_delete].
  { cbn [fst snd]. split; [done|]. split; [by intros files g [= <- <-]|].
    rewrite Hw1. split; [done|]. split; [done|]. split; [done|]. split; [done|].
    intros f _ _ Hf Hyes. exfalso. apply (elem_of_nil f). apply Hsel.
    split; [done|]. destruct Hyes as [|[? _]]; auto. }
  cbn [fst snd]. split; [done|]. split; [by intros files g [= <- <-]|].
  set (w2 := snd (create_snapshot ts "delete_dead_files" w1)).
  rewrite fs_set_fs.
  assert (forall cs, get (fs w2) (PROJECT_ROOT :: cs) = get (fs w) (PROJECT_ROOT :: cs))
    as Hframe.
  { intros cs. subst w2. by rewrite create_snapshot_frame, Hw1. }
  split; [|split; [done|split; [|split]]].
  - intros q cs Hq Hother. rewrite !(read_text_file_at _ q _ Hq).
    rewrite fold_try_remove_frame.
    + unfold file_at. by rewrite Hframe.
    + intros f Hf Hc. apply Hsel in Hf as [Hf Hyes].
      apply (Hother f Hf Hyes). by rewrite Hq.
  - intros Hay (f & Hf & Hquit). exfalso. by apply (Hnoquit f).
  - intros Hay Hno. exfalso. assert (f0 ∈ f0 :: to_delete) as Hin by left.
    apply Hsel in Hin as [Hf [->|Hyes]]; [done|]. by apply (Hno f0).
  - intros f _ Hroot Hf Hyes. apply fold_try_remove_gone.
    + apply isdir_root_is_dir. unfold isdir, lookup in Hroot |- *.
      rewrite components_root in Hroot |- *. cbn [mbind option_bind] in Hroot |- *.
      by rewrite Hframe.
    + apply Hsel. split; [done|]. destruct Hyes as [|[? _]]; auto.
Qed.

End DeadFiles.

(** ** Removing a folder *)

Section RemoveFolder.
Import FS.



End RemoveFolder.


(** ** Commenting imports *)

Section CommentImports.
Variable J : list Re.regex.
Import FS.

Lemma comment_file_frame (target_folder : string) (now : Z) (t : node)
    (f : string) (q : list string) :
  components f <> Some q ->
  file_at (comment_file J target_folder now t f) q = file_at t q.
Proof.
  intros Hq. unfold comment_file.
  destruct (read_text t f); [|done]. destruct (handler_for J f); [|done].
  destruct (existsb _ _); [|done].
  destruct (write_text _ _ _ _) as [t'|] eqn:Hw; [|done].
  cbn [default from_option]. by eapply write_text_frame.
Qed.

Lemma fold_comment_file_frame (target_folder : string) (now : Z)
    (l : list string) (q : list string) : forall (t : node),
  (forall f, f ∈ l -> components f <> Some q) ->
  file_at (fold_left (comment_file J target_folder now) l t) q = file_at t q.
Proof.
  induction l as [|f l IH]; intros t Hl; [done|]. cbn [fold_left].
  rewrite IH by (intros f' Hf'; apply Hl; by right).
  apply comment_file_frame, Hl. left.
Qed.

(** X8.  For a snapshot path that is relative and without [..]:
    [comment_imports] reports the same files whatever its mode, and
    every reported file is one of the scan with a line on which an import
    pattern of its language matches.  A dry run and a declined run leave
    the tree as it is; a run changes no project file outside the reported
    list, and a file it does not scan keeps its text. *)
Theorem comment_imports_frame (target_folder : string) (dry_run assume_yes : bool)
    (ans : answer) (ts : string) (w : world) :
  in_tree (snapshot_path ts ("comment_imports_" +:+ target_folder)) ->
  let r := comment_imports J target_folder dry_run assume_yes ans ts w in
  (forall dry' yes' ans' ts',
     fst (comment_imports J target_folder dry' yes' ans' ts' w) = fst r) /\
  (forall f, f ∈ fst r ->
     f ∈ fst (build_file_list PROJECT_ROOT true w) /\
     exists lang h text line rx m,
       lang_of f = Some lang /\ LANG_HANDLERS J !! lang = Some h /\
       read_text (fs w) f = Some text /\ line ∈ readlines text /\
       rx ∈ import_regexes h /\ Re.search rx line = Some m /\
       contains (replace_char backslash "/" (comment_imp m)) target_folder = true) /\
  (dry_run = true \/ confirmed assume_yes ans = false -> fs (snd r) = fs w) /\
  (forall q cs,
     components q = Some (PROJECT_ROOT :: cs) ->
     (forall f, f ∈ fst r -> components f <> components q) ->
     read_text (fs (snd r)) q = read_text (fs w) q).
Proof.
  intros _ r. subst r. unfold comment_imports. cbn [fst snd].
  set (w1 := snd (build_file_list PROJECT_ROOT true w)).
  assert (fs w1 = fs w) as Hw1 by apply build_file_list_fs.
  set (preview := filter _ _).
  assert (forall dry yes a s,
    fst (if dry : bool then (preview, w1)
         else if negb (confirmed yes a) then (preview, w1)
         else (preview,
               set_fs (snd (create_snapshot s ("comment_imports_" +:+ target_folder) w1))
                 (fold_left
                    (comment_file J target_folder
                       (clock (snd (create_snapshot s
                                      ("comment_imports_" +:+ target_folder) w1))))
                    preview
                    (fs (snd (create_snapshot s
                                ("comment_imports_" +:+ target_folder) w1))))))
    = preview) as Hfst.
  { intros dry yes a s. destruct dry; [done|]. by destruct (negb (confirmed yes a)). }
  rewrite Hfst. split; [intros; apply Hfst|]. split.
  { intros f Hf. subst preview. apply list_elem_of_filter in Hf as [Hf Hin].
    split; [done|]. unfold comment_preview_file in Hf. rewrite Hw1 in Hf.
    destruct (lang_of f) as [lang|] eqn:Hlang; [|done].
    destruct (LANG_HANDLERS J !! lang) as [h|] eqn:Hh; [|done].
    destruct (read_text (fs w) f) as [text|] eqn:Htext; [|done].
    apply existsb_exists in Hf as (line & Hline & Hf).
    unfold comment_preview_line in Hf.
    apply existsb_exists in Hf as (rx & Hrx & Hf).
    destruct (Re.search rx line) as [m|] eqn:Hm; [|done].
    apply list_elem_of_In in Hline, Hrx.
    by exists lang, h, text, line, rx, m. }
  split.
  { intros [->|Hno]; [exact Hw1|]. rewrite Hno. cbn [negb].
    destruct dry_run; exact Hw1. }
  intros q cs Hq Hother. destruct dry_run; [cbn [snd]; by rewrite Hw1|].
  destruct (negb (confirmed assume_yes ans)); [cbn [snd]; by rewrite Hw1|].
  cbn [snd]. rewrite fs_set_fs, !(read_text_file_at _ q _ Hq).
  rewrite fold_comment_file_frame.
  - unfold file_at. by rewrite create_snapshot_frame, Hw1.
  - intros f Hf Hc. apply (Hother f Hf). by rewrite Hq.
Qed.

End CommentImports.

(** The folder [legacy] in a project of three files: the file that
    imports from it is reported, the file beside it keeps its text. *)
Lemma comment_imports_frame_witness :
  let r := comment_imports [] "legacy" false true Yes "20260101_120000"
             three_file_world in
  fst r = ["src/main.js"] /\
  FS.read_text (fs (snd r)) "src/util.js" = Some "export const u = 1".
Proof.
  intros r.
  assert (fst r = ["src/main.js"]) as Hprev by (by vm_compute).
  split; [exact Hprev|].
  pose proof (proj2 (proj2 (proj2
    (comment_imports_frame [] "legacy" false true Yes "20260101_120000"
       three_file_world ltac:(by eexists)))) "src/util.js" ["util.js"] eq_refl) as H.
  cbv zeta in H. fold r in H. rewrite Hprev in H.
  etrans; [apply H|reflexivity].
  intros f Hf. apply list_elem_of_In in Hf. destruct Hf as [<-|[]]. by vm_compute.
Defined.


(** ** The snapshot store *)

Section SnapshotStore.
Import FS.

(** X9.  [list_snapshots] returns the directories directly inside the backup
    directory, by path, greatest first; entries that are not directories
    are left out, and a missing backup directory gives the empty list. *)
Theorem list_snapshots_sorted_dirs (t : node) :
  Sorted str_ge (list_snapshots t) /\
  (forall p, p ∈ list_snapshots t <->
     isdir t p = true /\
     exists ds d, listdir t BACKUP_DIR = Some ds /\ d ∈ ds /\ p = join BACKUP_DIR d) /\
  (isdir t BACKUP_DIR = false -> list_snapshots t = []).
Proof.
  unfold list_snapshots. split; [|split].
  - destruct (listdir t BACKUP_DIR) as [ds|]; [|constructor].
    apply Sorted_ge_filter, sorted_rev_Sorted.
  - intros p. destruct (listdir t BACKUP_DIR) as [ds|].
    + rewrite list_elem_of_filter, elem_of_sorted_rev, list_elem_of_fmap. split.
      * intros (Hdir & d & -> & Hd). split; [done|]. by exists ds, d.
      * intros (Hdir & ds' & d & [= <-] & Hd & ->). split; [done|]. by exists d.
    + split; [by intros ?%elem_of_nil|]. by intros (_ & ds & d & ? & _).
  - unfold isdir, listdir. by destruct (lookup t BACKUP_DIR) as [[|es]|].
Qed.

Context (top P S : gmap string node).

Lemma trim_entries :
  plain_keys S ->
  trim_snapshots (mk_tree top P S)
  = mk_tree top P (foldr delete S (drop ALLOW_UNDO_COUNT (snapshot_dirs S))).
Proof.
  intros Hpl. unfold trim_snapshots. rewrite list_snapshots_view by done.
  rewrite length_map.
  destruct (length (snapshot_dirs S) <=? ALLOW_UNDO_COUNT)%nat eqn:Hlen.
  { apply Nat.leb_le in Hlen. by rewrite drop_ge. }
  rewrite skipn_map. apply fold_rmtree_view; [done| |].
  - pose proof (snapshot_dirs_NoDup S) as Hnd.
    rewrite <-(take_drop ALLOW_UNDO_COUNT (snapshot_dirs S)) in Hnd.
    by apply NoDup_app in Hnd as (_ & _ & Hnd).
  - intros d Hd. apply elem_of_snapshot_dirs. by apply subseteq_drop in Hd.
Qed.

Lemma snapshot_dir_plain (d : string) :
  plain_keys S -> d ∈ snapshot_dirs S -> plain d = true.
Proof.
  intros Hpl Hd. apply Hpl. apply elem_of_snapshot_dirs in Hd. unfold dir_key in Hd.
  destruct (S !! d); [by eexists|done].
Qed.

Lemma join_backup_elem (d : string) (l : list string) :
  plain d = true -> (forall x, x ∈ l -> plain x = true) ->
  join BACKUP_DIR d ∈ map (join BACKUP_DIR) l -> d ∈ l.
Proof.
  intros Hd Hl Hin. apply list_elem_of_fmap in Hin as (d' & Heq & Hd').
  by rewrite (join_backup_inj d d' Hd (Hl d' Hd') Heq).
Qed.

(** X10.  In a backup directory whose entries have plain names,
    [trim_snapshots] leaves the [ALLOW_UNDO_COUNT] snapshots with the
    greatest names, with their content, and removes the others; the
    project is not touched. *)
Theorem trim_snapshots_keeps_greatest :
  plain_keys S ->
  let t := mk_tree top P S in
  list_snapshots (trim_snapshots t) = take ALLOW_UNDO_COUNT (list_snapshots t) /\
  length (list_snapshots (trim_snapshots t)) <= ALLOW_UNDO_COUNT /\
  (forall d cs, join BACKUP_DIR d ∈ take ALLOW_UNDO_COUNT (list_snapshots t) ->
     plain d = true ->
     get (trim_snapshots t) (BACKUP_DIR :: d :: cs) = get t (BACKUP_DIR :: d :: cs)) /\
  (forall p, p ∈ drop ALLOW_UNDO_COUNT (list_snapshots t) ->
     exists_ (trim_snapshots t) p = false) /\
  (forall cs, get (trim_snapshots t) (PROJECT_ROOT :: cs) = get t (PROJECT_ROOT :: cs)).
Proof.
  intros Hpl t. subst t.
  destruct (trim_view top P S Hpl) as (S' & Htrim & Hpl' & Hdirs & _ & _).
  rewrite !list_snapshots_view by done. rewrite Htrim at 1 2.
  rewrite !list_snapshots_view, Hdirs by done. rewrite trim_entries by done.
  split; [by rewrite firstn_map|]. split; [rewrite length_map, length_take; lia|].
  pose proof (snapshot_dirs_NoDup S) as Hnd.
  rewrite <-(take_drop ALLOW_UNDO_COUNT (snapshot_dirs S)) in Hnd.
  apply NoDup_app in Hnd as (_ & Hdisj & _).
  split; [|split].
  - intros d cs Hin Hd. rewrite !get_backup. cbn [get].
    rewrite lookup_foldr_delete, bool_decide_eq_false_2; [done|].
    apply Hdisj. rewrite firstn_map in Hin.
    apply (join_backup_elem d _ Hd); [|done].
    intros x Hx. apply snapshot_dir_plain; [done|]. by apply subseteq_take in Hx.
  - intros p Hp. rewrite skipn_map in Hp.
    apply list_elem_of_fmap in Hp as (d & -> & Hd).
    assert (plain d = true) as Hdpl.
    { apply snapshot_dir_plain; [done|]. by apply subseteq_drop in Hd. }
    unfold exists_, lookup. rewrite (components_backup_entry d Hdpl).
    cbn [mbind option_bind]. rewrite get_backup. cbn [get].
    rewrite lookup_foldr_delete, (bool_decide_eq_true_2 (d ∈ _)) by done.
    apply bool_decide_eq_false. by intros [? ?].
  - intros cs. by rewrite !get_root.
Qed.

End SnapshotStore.

(** ** Taking and restoring a snapshot *)

Section TakeRestore.
Import FS.

(** X11.  For a snapshot path that is relative and without [..], so that
    it lies in the backup directory: whatever its outcome,
    [create_snapshot] returns the empty string or the path of the
    snapshot, leaves everything at and below the project root as it was,
    and touches nothing but the tree. *)
Theorem create_snapshot_leaves_project (ts label : string) (w : world) :
  in_tree (snapshot_path ts label) ->
  let r := create_snapshot ts label w in
  (fst r = "" \/ fst r = join BACKUP_DIR (snapshot_name ts label)) /\
  (forall q cs, components q = Some (PROJECT_ROOT :: cs) ->
     lookup (fs (snd r)) q = lookup (fs w) q) /\
  cache (snd r) = cache w /\ cache_writable (snd r) = cache_writable w /\
  cwd (snd r) = cwd w /\ clock (snd r) = clock w /\ walks (snd r) = walks w.
Proof.
  intros _ r. split; [|split].
  - subst r. unfold create_snapshot.
    destruct (copytree _ _ _); [|by left].
    destruct (write_text _ _ _ _); [by right|by left].
  - intros q cs Hq. apply (lookup_under_root _ _ q cs Hq), create_snapshot_frame.
  - subst r. unfold create_snapshot.
    destruct (copytree _ _ _); [|done]. by destruct (write_text _ _ _ _).
Qed.

Context (top P S : gmap string node).

(** X12.  With the project root and the backup directory in place, and a
    label and a time stamp of characters that [json.dump] writes as they
    are, [create_snapshot] succeeds exactly when no entry of the backup
    directory has the name of the snapshot and the project has no
    directory called [.snapshot_meta.json].  A snapshot that is listed
    afterwards holds the project as it was, entry by entry, and the
    metadata file with the label and the time stamp. *)
Theorem create_snapshot_copies (ts label : string) (w : world) :
  fs w = mk_tree top P S -> plain_keys S ->
  plain (snapshot_name ts label) = true ->
  json_plain label = true -> json_plain ts = true ->
  let r := create_snapshot ts label w in
  let nm := snapshot_name ts label in
  (fst r <> "" <-> S !! nm = None /\ dir_key P SNAPSHOT_META = false) /\
  (fst r <> "" -> fst r ∈ list_snapshots (fs (snd r)) ->
   (forall k cs, k <> SNAPSHOT_META ->
      get (fs (snd r)) (BACKUP_DIR :: nm :: k :: cs)
      = get (fs w) (PROJECT_ROOT :: k :: cs)) /\
   read_text (fs (snd r)) (join (fst r) SNAPSHOT_META) = Some (json_meta label ts)).
Proof.
  intros Hfs Hpl Hname _ _ r nm.
  assert (fst r <> "" -> S !! nm = None /\ dir_key P SNAPSHOT_META = false) as Hinv.
  { intros Hok. by apply (create_snapshot_ok_inv top P S ts label w). }
  split.
  { split; [done|]. intros [Hfresh Hmeta].
    destruct (create_snapshot_view top P ts label w S Hfs Hpl Hname Hfresh Hmeta)
      as (S1 & Hcreate & _). subst r. rewrite Hcreate. apply join_backup_nonempty. }
  intros Hok Hlisted. destruct (Hinv Hok) as [Hfresh Hmeta].
  destruct (create_snapshot_view top P ts label w S Hfs Hpl Hname Hfresh Hmeta)
    as (S1 & Hcreate & Hpl1 & _ & _ & Hkeep).
  subst r. rewrite Hcreate in Hlisted |- *. cbn [fst snd] in *.
  rewrite fs_set_fs in Hlisted |- *. rewrite list_snapshots_view in Hlisted by done.
  fold nm in Hlisted, Hkeep |- *.
  assert (nm ∈ snapshot_dirs S1) as Hin.
  { apply (join_backup_elem nm _ Hname); [|done].
    intros x Hx. by apply (snapshot_dir_plain S1). }
  specialize (Hkeep nm Hin). rewrite lookup_insert_eq in Hkeep. split.
  - intros k cs Hk. rewrite get_backup, Hfs, get_root. cbn [get].
    rewrite Hkeep. cbn [mbind option_bind]. by rewrite lookup_insert_ne.
  - unfold read_text, lookup.
    rewrite (components_snapshot_entry nm SNAPSHOT_META Hname plain_meta).
    cbn [mbind option_bind]. rewrite get_backup. cbn [get]. rewrite Hkeep.
    cbn [mbind option_bind]. by rewrite lookup_insert_eq.
Qed.

(** X13.  When the first snapshot of the listing is the directory [d] with
    entries [Q], [undo_last] succeeds: the project root then holds the
    entries of the snapshot except the metadata file, and nothing else; a
    file of that name in the project root is not brought back.  The backup
    directory is as before, so the snapshot remains the first of the
    listing and undoing again changes nothing more. *)
Theorem undo_last_restores (w : world) (Q : gmap string node) (d : string) :
  fs w = mk_tree top P S -> plain_keys P -> plain_keys S -> plain_keys Q ->
  plain d = true ->
  head (list_snapshots (fs w)) = Some (join BACKUP_DIR d) ->
  S !! d = Some (Dir Q) ->
  let r := undo_last w in
  fst r = true /\
  (forall k cs, k <> SNAPSHOT_META ->
     get (fs (snd r)) (PROJECT_ROOT :: k :: cs) = get (fs w) (BACKUP_DIR :: d :: k :: cs)) /\
  get (fs (snd r)) [PROJECT_ROOT; SNAPSHOT_META] = None /\
  (forall cs, get (fs (snd r)) (BACKUP_DIR :: cs) = get (fs w) (BACKUP_DIR :: cs)) /\
  list_snapshots (fs (snd r)) = list_snapshots (fs w) /\
  undo_last (snd r) = r.
Proof.
  intros Hfs HplP HplS HplQ Hd Hhead HQ r.
  rewrite Hfs, list_snapshots_view in Hhead by done.
  assert (head (snapshot_dirs S) = Some d) as Hhd.
  { destruct (snapshot_dirs S) as [|d' l] eqn:Hl; [done|].
    cbn [map head] in Hhead |- *. injection Hhead as Hhead. f_equal.
    apply join_backup_inj; [|done..]. apply (snapshot_dir_plain S); [done|].
    rewrite Hl. left. }
  assert (plain_keys (delete SNAPSHOT_META Q)) as HplQ'.
  { intros k [n Hk]. apply lookup_delete_Some in Hk as [_ Hk]. apply HplQ. by eexists. }
  pose proof (undo_last_view top w P S Q d Hfs HplP HplS HplQ Hhd HQ) as Hundo.
  subst r. rewrite Hundo. cbn [fst snd]. rewrite fs_set_fs, Hfs.
  split; [done|]. split; [|split; [|split; [|split]]].
  - intros k cs Hk. rewrite get_root, get_backup. cbn [get]. rewrite HQ.
    cbn [mbind option_bind]. by rewrite lookup_delete_ne.
  - rewrite get_root. cbn [get]. by rewrite lookup_delete_eq.
  - intros cs. by rewrite !get_backup.
  - by rewrite !list_snapshots_view.
  - by rewrite (undo_last_view top _ (delete SNAPSHOT_META Q) S Q d).
Qed.

End TakeRestore.

(** Thirteen snapshots in the backup directory: the twelve with the
    greatest names stay listed, the one with the least name is removed. *)
Lemma trim_snapshots_keeps_greatest_witness :
  let t := mk_tree ∅ {[ "a.js" := FS.File "one" 1 ]} thirteen_snapshots in
  length (list_snapshots t) = 13 /\
  list_snapshots (trim_snapshots t) = take ALLOW_UNDO_COUNT (list_snapshots t) /\
  FS.exists_ (trim_snapshots t) "backup_snapshots/20261101_013000x" = false /\
  FS.exists_ (trim_snapshots t) "backup_snapshots/20261101_013001x" = true.
Proof.
  intros t. split; [by vm_compute|].
  assert (plain_keys thirteen_snapshots) as Hpl.
  { intros k [n Hk]. apply elem_of_list_to_map_2, list_elem_of_In in Hk.
    vm_compute in Hk.
    repeat (destruct Hk as [Hk|Hk]; [by injection Hk as <- _|]). done. }
  destruct (trim_snapshots_keeps_greatest ∅ {[ "a.js" := FS.File "one" 1 ]}
              thirteen_snapshots Hpl) as (Hlist & _ & _ & Hgone & _).
  split; [exact Hlist|]. split; [|by vm_compute].
  apply Hgone. apply list_elem_of_In. vm_compute. by left.
Defined.

(** A snapshot whose name is taken: the project is as it was. *)
Lemma create_snapshot_leaves_project_witness :
  let r := create_snapshot "20260101_120000" "remove_folder_legacy" name_taken_world in
  (fst r = "" \/ fst r = join BACKUP_DIR
                           (snapshot_name "20260101_120000" "remove_folder_legacy")) /\
  (forall q cs, FS.components q = Some (PROJECT_ROOT :: cs) ->
     FS.lookup (fs (snd r)) q = FS.lookup (fs name_taken_world) q) /\
  cache (snd r) = cache name_taken_world /\
  cache_writable (snd r) = cache_writable name_taken_world /\
  cwd (snd r) = cwd name_taken_world /\ clock (snd r) = clock name_taken_world /\
  walks (snd r) = walks name_taken_world.
Proof.
  refine (create_snapshot_leaves_project "20260101_120000" "remove_folder_legacy"
            name_taken_world _).
  by eexists.
Defined.

(** The first snapshot of the small project. *)
Lemma create_snapshot_copies_witness :
  fst (create_snapshot "20260101_120000" "delete_dead_files" small_project) <> "" <->
  (∅ : gmap string FS.node) !! snapshot_name "20260101_120000" "delete_dead_files" = None /\
  dir_key {[ "a.js" := FS.File "one" 1 ]} SNAPSHOT_META = false.
Proof.
  refine (proj1 (create_snapshot_copies ∅ {[ "a.js" := FS.File "one" 1 ]} ∅
                   "20260101_120000" "delete_dead_files" small_project _ _ _ _ _)).
  - reflexivity.
  - intros k [n Hk]. by rewrite lookup_empty in Hk.
  - by vm_compute.
  - by vm_compute.
  - by vm_compute.
Defined.

(** The project whose backup directory holds one snapshot. *)
Lemma undo_last_restores_witness :
  fst (undo_last same_second_world) = true.
Proof.
  refine (proj1 (undo_last_restores ∅ {[ "a.js" := FS.File "new" 2 ]}
                   {[ "20260101_120000remove_imports_legacy" :=
                        FS.Dir {[ "a.js" := FS.File "old" 1;
                                  SNAPSHOT_META := FS.File "{}" 1 ]} ]}
                   same_second_world
                   {[ "a.js" := FS.File "old" 1; SNAPSHOT_META := FS.File "{}" 1 ]}
                   "20260101_120000remove_imports_legacy" _ _ _ _ _ _ _)).
  - reflexivity.
  - intros k [n Hk]. apply lookup_singleton_Some in Hk as [<- _]. reflexivity.
  - intros k [n Hk]. apply lookup_singleton_Some in Hk as [<- _]. reflexivity.
  - intros k [n Hk]. apply lookup_insert_Some in Hk as [[<- _]|[_ Hk]]; [reflexivity|].
    apply lookup_singleton_Some in Hk as [<- _]. reflexivity.
  - reflexivity.
  - by vm_compute.
  - by vm_compute.
Defined.

(** ** Prompts *)

Section Prompts.

Lemma rev_app_snoc (y : string) (a : ascii) : forall (acc : string),
  String.rev_app (y +:+ String a "") acc = String a (String.rev_app y acc).
Proof.
  induction y as [|b y IH]; intros acc; [done|].
  rewrite append_cons. cbn [String.rev_app]. by rewrite IH.
Qed.

Lemma rev_app_last (x : string) : forall (y : string) (a : ascii),
  exists y', String.rev_app x (y +:+ String a "") = y' +:+ String a "".
Proof.
  induction x as [|b x IH]; intros y a; [by exists y|].
  cbn [String.rev_app]. apply (IH (String b y) a).
Qed.

Lemma lstrip_by_last (p : ascii -> bool) (y : string) (a : ascii) :
  p a = false ->
  exists y', lstrip_by p (y +:+ String a "") = y' +:+ String a "".
Proof.
  intros Ha. induction y as [|b y IH].
  - exists "". change ("" +:+ String a "") with (String a "").
    cbn [lstrip_by]. by rewrite Ha.
  - rewrite append_cons. cbn [lstrip_by]. destruct (p b); [done|].
    by exists (String b y).
Qed.

(** Stripping at the end keeps a first character that is not stripped. *)
Lemma rstrip_by_head (p : ascii -> bool) (a : ascii) (x : string) :
  p a = false -> exists z, rstrip_by p (String a x) = String a z.
Proof.
  intros Ha. unfold rstrip_by, String.rev. cbn [String.rev_app].
  destruct (rev_app_last x "" a) as [y Hy].
  change ("" +:+ String a "") with (String a "") in Hy. rewrite Hy.
  destruct (lstrip_by_last p y a Ha) as [y' ->].
  rewrite rev_app_snoc. by eexists.
Qed.

Lemma lstrip_by_head (p : ascii -> bool) (s : string) (a : ascii) (x : string) :
  lstrip_by p s = String a x -> p a = false.
Proof.
  induction s as [|b s IH]; [done|]. cbn [lstrip_by].
  destruct (p b) eqn:Hb; [done|]. by intros [= <- _].
Qed.

Lemma strip_by_head (p : ascii -> bool) (s : string) :
  match lstrip_by p s with
  | "" => strip_by p s = ""
  | String a _ => p a = false /\ exists z, strip_by p s = String a z
  end.
Proof.
  unfold strip_by. destruct (lstrip_by p s) as [|a x] eqn:Hl; [done|].
  pose proof (lstrip_by_head p s a x Hl) as Ha. split; [done|].
  by apply rstrip_by_head.
Qed.

Lemma lower_starts_with_s (a : ascii) (r : string) :
  startswith (String (lower_ascii a) r) "s"
  = bool_decide (a = "s"%char \/ a = "S"%char).
Proof.
  unfold startswith. cbn [String.prefix].
  assert ((if Ascii.ascii_dec "s" (lower_ascii a) then true else false)
          = bool_decide (a = "s"%char \/ a = "S"%char)) as <-.
  { destruct a as [[] [] [] [] [] [] [] []]; reflexivity. }
  destruct (Ascii.ascii_dec _ _); [by destruct r|done].
Qed.

(** X14.  With [assume_yes] the answer is yes and no line is read.  Otherwise
    the end of the input ends the process, and on a line of ASCII
    characters: an exit word, in any case and between blanks, ends the
    process; a blank line gives the default; and any other line is a yes
    exactly when its first character that is not a blank is [s] or [S]. *)
Theorem ask_yes_no_answers (default : bool) :
  (forall line, ask_yes_no default true line = Some true) /\
  ask_yes_no default false None = None /\
  forall s, ascii_text s = true ->
    ask_yes_no default false (Some s)
    = if bool_decide (lower (strip s) ∈ EXIT_WORDS) then None
      else match lstrip_by is_space s with
           | "" => Some default
           | String a _ => Some (bool_decide (a = "s"%char \/ a = "S"%char))
           end.
Proof.
  split; [done|]. split; [done|]. intros s _.
  unfold ask_yes_no, safe_input. cbn [mbind option_bind].
  destruct (bool_decide (lower (strip s) ∈ EXIT_WORDS)); [done|].
  cbn [mbind option_bind]. pose proof (strip_by_head is_space s) as Hs.
  fold (strip s) in Hs. destruct (lstrip_by is_space s) as [|a x].
  { by rewrite Hs. }
  destruct Hs as (Ha & z & ->). rewrite bool_decide_eq_false_2 by done.
  pose proof (strip_by_head is_space (String a z)) as Hz.
  fold (strip (String a z)) in Hz. cbn [lstrip_by] in Hz. rewrite Ha in Hz.
  destruct Hz as (_ & z' & ->). cbn [lower]. by rewrite lower_starts_with_s.
Qed.

(** The commands go on after their prompt exactly when [ask_yes_no]
    returned [True]. *)
Lemma confirmed_answer_of (assume_yes : bool) (line : option string) :
  confirmed assume_yes (answer_of line) = true <->
  assume_yes = true \/ ask_yes_no false false line = Some true.
Proof.
  unfold confirmed, answer_of. destruct assume_yes; cbn [SAFE_MODE negb andb].
  - naive_solver.
  - destruct (ask_yes_no false false line) as [[|]|]; naive_solver.
Qed.

End Prompts.

(** ** Lines *)

Section Lines.
Import FS.

Lemma readlines_partial (s : string) :
  partial_line s -> readlines s = [s].
Proof.
  intros [Hne Hnl]. induction s as [|a s IH]; [done|].
  cbn [no_newline] in Hnl. apply andb_true_iff in Hnl as [Ha Hs].
  apply negb_true_iff in Ha. cbn [readlines]. rewrite Ha.
  destruct s as [|b s]; [done|]. by rewrite IH.
Qed.

Lemma readlines_complete_app (body r : string) :
  no_newline body = true ->
  readlines (body +:+ String newline r) = (body +:+ String newline "") :: readlines r.
Proof.
  intros Hnl. induction body as [|a body IH].
  - change ("" +:+ ?x) with x. cbn [readlines]. by rewrite Ascii.eqb_refl.
  - cbn [no_newline] in Hnl. apply andb_true_iff in Hnl as [Ha Hb].
    apply negb_true_iff in Ha. rewrite !append_cons. cbn [readlines].
    by rewrite Ha, (IH Hb).
Qed.

Lemma readlines_text_lines (s : string) : text_lines (readlines s).
Proof.
  induction s as [|a s IH]; [done|]. cbn [readlines].
  destruct (Ascii.eqb a newline) eqn:Ha.
  - apply Ascii.eqb_eq in Ha as ->. split; [|done]. left. by exists "".
  - destruct (readlines s) as [|l ls]; cbn [text_lines] in *.
    + split; [|done]. right. split; [|done]. split; [done|].
      cbn [no_newline]. by rewrite Ha.
    + destruct IH as [[(body & -> & Hb)|[[Hne Hnl] ->]] Hls]; (split; [|done]).
      * left. exists (String a body). split; [done|]. cbn [no_newline]. by rewrite Ha.
      * right. split; [|done]. split; [done|]. cbn [no_newline]. by rewrite Ha.
Qed.

(** Writing lines and reading them again gives the lines. *)
Lemma readlines_writelines (l : list string) :
  text_lines l -> readlines (writelines l) = l.
Proof.
  unfold writelines. induction l as [|x l IH]; [done|].
  intros [Hx Hl]. destruct Hx as [(body & -> & Hb)|[Hx ->]].
  - assert (String.concat "" ((body +:+ String newline "") :: l)
            = body +:+ String newline (String.concat "" l)) as ->.
    { destruct l as [|y l]; cbn [String.concat]; [done|].
      change ("" +:+ ?x) with x. by rewrite append_assoc. }
    by rewrite readlines_complete_app, IH.
  - by apply readlines_partial.
Qed.

(** Reading a text into lines and writing them gives the text. *)
Lemma writelines_readlines (s : string) : writelines (readlines s) = s.
Proof.
  unfold writelines. induction s as [|a s IH]; [done|]. cbn [readlines].
  destruct (Ascii.eqb a newline) eqn:Ha.
  - destruct (readlines s) as [|l ls] eqn:Hl.
    + cbn [String.concat] in *. by rewrite <-IH.
    + change (String.concat "" (String a "" :: l :: ls))
        with (String a "" +:+ "" +:+ String.concat "" (l :: ls)).
      by rewrite IH.
  - destruct (readlines s) as [|l ls] eqn:Hl.
    + cbn [String.concat] in *. by rewrite <-IH.
    + destruct ls as [|l' ls].
      * cbn [String.concat] in *. by rewrite IH.
      * change (String.concat "" (String a l :: l' :: ls))
          with (String a (l +:+ "" +:+ String.concat "" (l' :: ls))).
        by rewrite <-IH.
Qed.

Lemma text_lines_sublist (l' l : list string) :
  l' `sublist_of` l -> text_lines l -> text_lines l'.
Proof.
  induction 1 as [|x l1 l2 Hsub IH|x l1 l2 Hsub IH]; [done| |].
  - intros [Hx Hl]. split; [|by apply IH].
    destruct Hx as [Hx|[Hx ->]]; [by left|]. right. split; [done|].
    by apply sublist_nil_r in Hsub.
  - intros [_ Hl]. by apply IH.
Qed.

End Lines.

(** ** Removing imports *)

Section RemoveImports.
Variable J : list Re.regex.
Import FS.

Lemma get_put_same (mk : bool) (p : list string) : forall (t t' v : node),
  put mk t p v = Some t' -> get t' p = Some v.
Proof.
  induction p as [|x p IH]; intros t t' v Hput.
  { cbn [put] in Hput. by injection Hput as <-. }
  destruct t as [|es]; [done|]. cbn [put] in Hput.
  destruct (es !! x) as [n|].
  - destruct (put mk n p v) as [n'|] eqn:Hn; [|done]. injection Hput as <-.
    cbn [get]. rewrite lookup_insert_eq. cbn [mbind option_bind]. by apply (IH n).
  - destruct (mk || _); [|done].
    destruct (put mk (Dir ∅) p v) as [n'|] eqn:Hn; [|done]. injection Hput as <-.
    cbn [get]. rewrite lookup_insert_eq. cbn [mbind option_bind]. by apply (IH (Dir ∅)).
Qed.

Lemma write_text_read (t t' : node) (f data : string) (now : Z) (cf : list string) :
  write_text t f data now = Some t' -> components f = Some cf ->
  file_at t' cf = Some data.
Proof.
  unfold write_text. intros Hw Hf. rewrite Hf in Hw. cbn [mbind option_bind] in Hw.
  unfold file_at.
  destruct (get t cf) as [[|]|]; [|done|];
    by rewrite (get_put_same _ _ _ _ _ Hw).
Qed.

(** One step of the rewriting pass keeps a file made of lines of the
    original text, in their order. *)
Lemma remove_file_lines (target_folder : string) (now : Z) (f : string)
    (cq : list string) (L : list string) (t : node) :
  (exists kept, kept `sublist_of` L /\ text_lines L /\
                file_at t cq = Some (writelines kept)) ->
  exists kept, kept `sublist_of` L /\ text_lines L /\
               file_at (remove_file J target_folder now t f) cq = Some (writelines kept).
Proof.
  intros (kept & Hsub & HL & Hfile).
  destruct (decide (components f = Some cq)) as [Hf|Hf].
  2:{ exists kept. by rewrite remove_file_frame. }
  unfold remove_file. rewrite (read_text_file_at t f cq Hf), Hfile.
  destruct (handler_for J f) as [h|]; [|by exists kept].
  destruct (existsb _ _); [|by exists kept].
  destruct (write_text _ _ _ _) as [t'|] eqn:Hw; [|by exists kept].
  cbn [default from_option]. unfold id.
  rewrite readlines_writelines in Hw by (by eapply text_lines_sublist).
  eexists. split; [|split; [done|]].
  2:{ by apply (write_text_read _ _ _ _ _ _ Hw). }
  etrans; [apply sublist_filter|done].
Qed.

(** X15.  [remove_imports] only deletes whole lines.  For a snapshot path
    that is relative and without [..], and a project file of plain text
    (ASCII and without carriage returns, so that it is read as it is
    stored) named by its normalised path: after any run the file is made of lines it had before, each
    as it was and in the same order. *)
Theorem remove_imports_deletes_lines (target_folder : string)
    (dry_run assume_yes : bool) (ans : answer) (ts : string) (w : world)
    (q : string) (cs : list string) (text : string) :
  in_tree (snapshot_path ts ("remove_imports_" +:+ target_folder)) ->
  components q = Some (PROJECT_ROOT :: cs) -> normpath q = q ->
  read_text (fs w) q = Some text -> plain_text text = true ->
  exists kept,
    kept `sublist_of` readlines text /\
    read_text (fs (snd (remove_imports J target_folder dry_run assume_yes ans ts w))) q
    = Some (writelines kept).
Proof.
  intros _ Hq _ Htext _. unfold remove_imports.
  set (w1 := snd (build_file_list PROJECT_ROOT true w)).
  assert (fs w1 = fs w) as Hw1 by apply build_file_list_fs.
  assert (exists kept, kept `sublist_of` readlines text /\
            read_text (fs w1) q = Some (writelines kept)) as Hsame.
  { exists (readlines text). split; [done|]. by rewrite Hw1, writelines_readlines. }
  destruct dry_run; [done|]. destruct (negb (confirmed assume_yes ans)); [done|].
  cbn [snd]. rewrite fs_set_fs. set (w2 := snd (create_snapshot ts _ w1)).
  set (preview := filter _ _). clearbody preview.
  rewrite (read_text_file_at _ q _ Hq).
  assert (exists kept, kept `sublist_of` readlines text /\ text_lines (readlines text) /\
            file_at (fs w2) (PROJECT_ROOT :: cs) = Some (writelines kept)) as Hstart.
  { exists (readlines text). split; [done|]. split; [apply readlines_text_lines|].
    unfold file_at. subst w2. rewrite create_snapshot_frame, Hw1.
    rewrite (read_text_file_at _ q _ Hq) in Htext. unfold file_at in Htext.
    by rewrite Htext, writelines_readlines. }
  generalize (fs w2) Hstart. clear Hstart. generalize (clock w2).
  induction preview as [|f l IH]; intros now t Hstart.
  - destruct Hstart as (kept & Hsub & _ & Hfile). by exists kept.
  - cbn [fold_left]. apply IH. by apply remove_file_lines.
Qed.

End RemoveImports.

(** The file with two imports. *)
Lemma remove_imports_deletes_lines_witness :
  exists kept,
    kept `sublist_of` readlines two_imports /\
    FS.read_text
      (fs (snd (remove_imports [] "legacy" false true Yes "20260101_120000"
                  two_imports_world))) "src/a.js"
    = Some (writelines kept).
Proof.
  refine (remove_imports_deletes_lines [] "legacy" false true Yes "20260101_120000"
            two_imports_world "src/a.js" ["a.js"] two_imports _ _ _ _ _).
  - by eexists.
  - reflexivity.
  - reflexivity.
  - reflexivity.
  - by vm_compute.
Defined.

(** ** Moving *)

Section Moving.
Variable J : list Re.regex.
Import FS.

(** Putting a node at [p] leaves every file that is not at or below [p]. *)
Lemma put_frame (mk : bool) (p : list string) : forall (t t' v : node) (q : list string),
  put mk t p v = Some t' -> ~ p `prefix_of` q -> file_at t' q = file_at t q.
Proof.
  induction p as [|x p IH]; intros t t' v q Hput Hpre.
  { destruct Hpre. apply prefix_nil. }
  destruct t as [|es]; [done|]. cbn [put] in Hput. unfold file_at.
  destruct q as [|y q].
  { destruct (es !! x).
    - destruct (put mk _ p _); [|done]. by injection Hput as <-.
    - destruct (mk || _); [|done]. destruct (put mk _ p _); [|done].
      by injection Hput as <-. }
  cbn [get]. destruct (decide (y = x)) as [->|Hne].
  2:{ destruct (es !! x).
      - destruct (put mk _ p _); [|done]. injection Hput as <-.
        by rewrite lookup_insert_ne.
      - destruct (mk || _); [|done]. destruct (put mk _ p _); [|done].
        injection Hput as <-. by rewrite lookup_insert_ne. }
  assert (~ p `prefix_of` q) as Hpre' by (intros H; apply Hpre; by apply prefix_cons).
  destruct (es !! x) as [n|] eqn:Hx.
  - destruct (put mk n p v) as [n'|] eqn:Hn; [|done]. injection Hput as <-.
    rewrite lookup_insert_eq. cbn [mbind option_bind]. apply (IH n n' v q Hn Hpre').
  - destruct (mk || _); [|done].
    destruct (put mk (Dir ∅) p v) as [n'|] eqn:Hn; [|done]. injection Hput as <-.
    rewrite lookup_insert_eq. cbn [mbind option_bind].
    pose proof (IH (Dir ∅) n' v q Hn Hpre') as Hq. unfold file_at in Hq. rewrite Hq.
    by destruct q.
Qed.

Lemma endswith_slash_inv (a : string) :
  endswith a "/" = true -> exists a', a = a' +:+ "/".
Proof.
  induction a as [|x a IH]; [done|]. cbn [endswith].
  intros [H|H]%orb_true_iff.
  - apply String.eqb_eq in H as ->. by exists "".
  - destruct (IH H) as [a' ->]. by exists (String x a').
Qed.

(** The components of a path joined with a name start with those of the
    path. *)
Lemma components_join_prefix (a b : string) (ca l : list string) :
  no_slash b = true -> components a = Some ca -> components (join a b) = Some l ->
  ca `prefix_of` l.
Proof.
  intros Hb Ha Hj. unfold join in Hj. rewrite (no_slash_startswith b Hb) in Hj.
  assert (forall (x : string) (cx : list string), components x = Some cx ->
            cx = filter (fun c => c <> "" /\ c <> ".") (split_on slash x)) as Hform'.
  { intros x cx. unfold components. destruct (startswith x _ || _); [done|].
    by intros [= <-]. }
  destruct a as [|a0 a].
  { cbn in Ha. injection Ha as <-. apply prefix_nil. }
  cbn [truthy negb orb] in Hj.
  destruct (endswith (String a0 a) "/") eqn:He.
  - destruct (endswith_slash_inv _ He) as [a' Ha'].
    rewrite (Hform' _ _ Ha), (Hform' _ _ Hj), Ha'.
    change (a' +:+ "/") with (a' +:+ String slash "").
    replace ((a' +:+ String slash "") +:+ b) with (a' +:+ String slash b)
      by (by rewrite append_assoc).
    rewrite !split_on_sep_app, !filter_app. cbn [split_on].
    rewrite filter_cons_False by naive_solver. rewrite filter_nil, app_nil_r.
    by apply prefix_app_r.
  - rewrite (Hform' _ _ Ha), (Hform' _ _ Hj).
    change (String a0 a +:+ "/" +:+ b) with (String a0 a +:+ String slash b).
    rewrite split_on_sep_app, filter_app. by apply prefix_app_r.
Qed.

Lemma basename_no_slash (p : string) : no_slash (basename p) = true.
Proof.
  unfold basename. pose proof (split_on_all_no_slash p) as Hall.
  destruct (last (split_on slash p)) as [x|] eqn:Hl; [|done].
  rewrite Forall_forall in Hall. apply Hall. apply last_Some in Hl as [l' ->].
  apply elem_of_app. right. left.
Qed.

(** [shutil.move] leaves every file that is neither at or below the
    source nor at or below the destination. *)
Lemma move_frame (t t' : node) (src dst : string) (q : list string) :
  move t src dst = Some t' ->
  (forall cs, components src = Some cs -> ~ cs `prefix_of` q) ->
  (forall cd, components dst = Some cd -> ~ cd `prefix_of` q) ->
  file_at t' q = file_at t q.
Proof.
  unfold move. intros Hmove Hs Hd.
  destruct (components src) as [s|] eqn:Hsrc; [|done]. cbn [mbind option_bind] in Hmove.
  specialize (Hs s eq_refl).
  destruct (get t s) as [n|] eqn:Hn; [|done]. cbn [mbind option_bind] in Hmove.
  destruct (isdir t dst && bool_decide _); [by injection Hmove as <-|].
  destruct (isdir t dst && exists_ t _); [done|].
  set (real_dst := if isdir t dst then _ else dst) in *.
  destruct (components real_dst) as [d|] eqn:Hreal; [|done].
  cbn [mbind option_bind] in Hmove.
  assert (~ d `prefix_of` q) as Hdq.
  { subst real_dst. destruct (isdir t dst) eqn:Hdir.
    - unfold isdir, lookup in Hdir.
      destruct (components dst) as [cd|] eqn:Hcd; [|done].
      intros Hpre. apply (Hd cd eq_refl). etrans; [|exact Hpre].
      apply (components_join_prefix dst _ cd d (basename_no_slash _) Hcd Hreal).
    - by apply Hd. }
  destruct (bool_decide (s = d)); [by injection Hmove as <-|].
  destruct (bool_decide (s `prefix_of` d)); [done|].
  assert (forall mk, del t s ≫= (fun fs1 => put mk fs1 d n) = Some t' ->
            file_at t' q = file_at t q) as Hgo.
  { intros mk H. destruct (del t s) as [t1|] eqn:Hdel; [|done].
    cbn [mbind option_bind] in H.
    rewrite (put_frame mk d t1 t' n q H Hdq). by apply (del_frame s). }
  destruct (get t d) as [[|]|], n; try done; by eapply Hgo.
Qed.

Lemma fix_file_frame (old_rel new_rel : string) (now : Z) (t : node) (f : string)
    (q : list string) :
  components f <> Some q -> file_at (fix_file old_rel new_rel now t f) q = file_at t q.
Proof.
  intros Hq. unfold fix_file. destruct (read_text t f); [|done].
  destruct (write_text _ _ _ _) as [t'|] eqn:Hw; [|done].
  cbn [default from_option]. by eapply write_text_frame.
Qed.

Lemma fold_fix_file_frame (old_rel new_rel : string) (now : Z) (l : list string)
    (q : list string) : forall (t : node),
  (forall f, f ∈ l -> components f <> Some q) ->
  file_at (fold_left (fix_file old_rel new_rel now) l t) q = file_at t q.
Proof.
  induction l as [|f l IH]; intros t Hl; [done|]. cbn [fold_left].
  rewrite IH by (intros f' Hf'; apply Hl; by right).
  apply fix_file_frame, Hl. left.
Qed.

(** X16.  For a source, a destination and a snapshot path that are relative
    and without [..]: [move_and_fix] does nothing when the source does not
    exist.  Its
    preview is sorted and lists the scanned files with an import that
    resolves to the source or into it.  A dry run and a declined run leave
    the tree as it is; a run changes no project file that is neither in
    the preview, nor at or below the source, nor at or below the
    destination. *)
Theorem move_and_fix_frame (src_rel dest_rel : string) (dry_run assume_yes : bool)
    (ans : answer) (ts : string) (w : world) :
  in_tree (normpath (join PROJECT_ROOT src_rel)) ->
  in_tree (normpath (join PROJECT_ROOT dest_rel)) ->
  in_tree (snapshot_path ts ("move_" +:+ basename src_rel)) ->
  let abs_src := normpath (join PROJECT_ROOT src_rel) in
  let abs_dest := normpath (join PROJECT_ROOT dest_rel) in
  let files := fst (build_file_list PROJECT_ROOT true w) in
  let r := move_and_fix J src_rel dest_rel dry_run assume_yes ans ts w in
  (exists_ (fs w) abs_src = false -> r = ([], w)) /\
  Sorted str_le (fst r) /\
  (forall f, f ∈ fst r <->
     exists_ (fs w) abs_src = true /\ f ∈ files /\
     exists lang h txt imp target,
       lang_of f = Some lang /\ LANG_HANDLERS J !! lang = Some h /\
       read_text (fs w) f = Some txt /\ imp ∈ extract_imports h txt /\
       resolve_import h f imp (list_to_set files) = Some target /\
       (target = abs_src \/ startswith target (abs_src +:+ sep) = true)) /\
  (dry_run = true \/ confirmed assume_yes ans = false -> fs (snd r) = fs w) /\
  (forall q cq,
     components q = Some (PROJECT_ROOT :: cq) ->
     (forall f, f ∈ fst r -> components f <> components q) ->
     (forall cs, components abs_src = Some cs -> ~ cs `prefix_of` PROJECT_ROOT :: cq) ->
     (forall cd, components abs_dest = Some cd -> ~ cd `prefix_of` PROJECT_ROOT :: cq) ->
     read_text (fs (snd r)) q = read_text (fs w) q).
Proof.
  intros _ _ _ abs_src abs_dest files r. subst r. unfold move_and_fix.
  fold abs_src abs_dest.
  destruct (exists_ (fs w) abs_src) eqn:Hex; cbn [negb].
  2:{ split; [done|]. split; [constructor|]. split.
      { intros f. split; [by intros ?%elem_of_nil|]. by intros [? _]. }
      done. }
  set (w1 := snd (build_file_list PROJECT_ROOT true w)).
  assert (fs w1 = fs w) as Hw1 by apply build_file_list_fs.
  fold files. rewrite Hw1.
  set (affected := list_to_set (filter _ files) : gset string).
  set (preview := sorted (elements affected)).
  assert (forall (a b : world) (c : node -> world),
            (if dry_run then (preview, a)
             else if negb (confirmed assume_yes ans) then (preview, a)
             else match move (fs b) abs_src abs_dest with
                  | Some t3 => (preview, c t3)
                  | None => (preview, b)
                  end).1 = preview) as Hfst.
  { intros a b c. destruct dry_run; [done|]. destruct (negb _); [done|].
    by destruct (move _ _ _). }
  split; [done|]. rewrite Hfst.
  split; [apply sorted_Sorted|]. split.
  { intros f. subst preview affected.
    rewrite elem_of_sorted, elem_of_elements, elem_of_list_to_set, list_elem_of_filter.
    unfold move_affected_file. split.
    - intros [Hf Hin]. split; [done|]. split; [done|].
      destruct (lang_of f) as [lang|] eqn:Hlang; [|done].
      destruct (read_text (fs w) f) as [txt|] eqn:Htxt; [|done].
      destruct (LANG_HANDLERS J !! lang) as [h|] eqn:Hh; [|done].
      apply existsb_exists in Hf as (imp & Himp & Hf).
      destruct (resolve_import h f imp _) as [target|] eqn:Hres; [|done].
      apply andb_prop in Hf as [_ Hf]. apply orb_prop in Hf.
      exists lang, h, txt, imp, target. apply list_elem_of_In in Himp.
      split_and!; try done. destruct Hf as [Hf|Hf]; [left|by right].
      by apply bool_decide_eq_true in Hf.
    - intros (_ & Hin & lang & h & txt & imp & target & -> & -> & -> & Himp & Hres & Ht).
      split; [|done]. apply existsb_exists. exists imp.
      split; [by apply list_elem_of_In|]. rewrite Hres.
      rewrite (resolve_import_truthy _ _ _ _ _ Hres). cbn [andb].
      destruct Ht as [->|Ht]; [by rewrite bool_decide_eq_true_2|].
      by rewrite Ht, orb_true_r. }
  split.
  { intros [->|Hno]; [exact Hw1|]. rewrite Hno. cbn [negb].
    destruct dry_run; exact Hw1. }
  intros q cq Hq Hprev Hs Hd.
  destruct dry_run; [cbn [snd]; by rewrite Hw1|].
  destruct (negb (confirmed assume_yes ans)); [cbn [snd]; by rewrite Hw1|].
  set (w2 := snd (create_snapshot ts _ w1)).
  assert (file_at (fs w2) (PROJECT_ROOT :: cq) = file_at (fs w) (PROJECT_ROOT :: cq))
    as Hw2.
  { unfold file_at. subst w2. by rewrite create_snapshot_frame, Hw1. }
  rewrite !(read_text_file_at _ q _ Hq).
  destruct (move (fs w2) abs_src abs_dest) as [t3|] eqn:Hmove; cbn [snd]; [|done].
  rewrite fs_set_fs, fold_fix_file_frame.
  - by rewrite (move_frame _ _ _ _ _ Hmove Hs Hd).
  - intros f Hf Hc. apply (Hprev f Hf). by rewrite Hq.
Qed.

End Moving.

(** The folder [legacy] of a project of three files moved to [old_code]:
    the file that imports from it is reported, the file that does not
    keeps its text. *)
Lemma move_and_fix_frame_witness :
  let r := move_and_fix [] "legacy" "old_code" false true Yes "20260101_120001"
             three_file_world in
  fst r = ["src/main.js"] /\
  FS.read_text (fs (snd r)) "src/util.js" = Some "export const u = 1".
Proof.
  intros r.
  assert (fst r = ["src/main.js"]) as Hprev by (by vm_compute).
  split; [exact Hprev|].
  pose proof (proj2 (proj2 (proj2 (proj2
    (move_and_fix_frame [] "legacy" "old_code" false true Yes "20260101_120001"
       three_file_world ltac:(by eexists) ltac:(by eexists) ltac:(by eexists)))))
    "src/util.js" ["util.js"] eq_refl) as H.
  cbv zeta in H. fold r in H. rewrite Hprev in H.
  etrans; [apply H|reflexivity].
  - intros f Hf. apply list_elem_of_In in Hf. destruct Hf as [<-|[]]. by vm_compute.
  - intros cs Hcs. vm_compute in Hcs. injection Hcs as <-.
    intros [k Hk]. discriminate Hk.
  - intros cd Hcd. vm_compute in Hcd. injection Hcd as <-.
    intros [k Hk]. discriminate Hk.
Defined.


(** ** The resolver *)

Section Resolver.

(** X17.  What [resolve_import] returns is a known file, and never the empty
    string.  A blank specifier resolves to nothing, and so does a bare
    name: a specifier of ASCII characters that, stripped of blanks and
    quotes, neither starts
    with a dot or a slash nor contains a slash, unless it contains a dot
    and the handler is the one of Java or of C#. *)
Theorem resolve_import_sound (h : LanguageHandler) (f imp : string) (S : gset string) :
  (forall g, resolve_import h f imp S = Some g -> g ∈ S /\ g <> "") /\
  (strip imp = "" -> resolve_import h f imp S = None) /\
  (ascii_text imp = true ->
   startswith (strip_quotes (strip imp)) "." = false ->
   startswith (strip_quotes (strip imp)) "/" = false ->
   contains (strip_quotes (strip imp)) "/" = false ->
   contains (strip_quotes (strip imp)) "." = false
   \/ (name h <> "java" /\ name h <> "csharp") ->
   resolve_import h f imp S = None).
Proof.
  split; [|split].
  - intros g Hg. split; [by apply resolve_import_in in Hg|].
    apply resolve_import_truthy in Hg. by destruct g.
  - intros Hs. unfold resolve_import. by rewrite Hs.
  - intros _ Hdot Hslash Hin Hns. unfold resolve_import.
    destruct (negb (truthy (strip imp))); [done|].
    rewrite Hdot, Hslash, Hin. cbn [orb].
    destruct Hns as [->|[Hj Hc]]; [done|].
    rewrite !bool_decide_eq_false_2 by done. by rewrite andb_false_r.
Qed.

End Resolver.

(** ** What the patterns capture *)

Section Captures.
Import Re.

Lemma elem_of_all_ascii (b : ascii) : In b all_ascii.
Proof.
  unfold all_ascii. apply in_map_iff. exists (nat_of_ascii b).
  split; [apply ascii_nat_embedding|]. apply in_seq.
  pose proof (nat_ascii_bounded b). lia.
Qed.

Lemma all_chars_app (cls : ascii -> bool) (s t : string) :
  all_chars cls (s +:+ t) = all_chars cls s && all_chars cls t.
Proof.
  unfold all_chars. induction s as [|a s IH]; [done|].
  rewrite append_cons. cbn [list_ascii_of_string forallb]. by rewrite IH, andb_assoc.
Qed.

Lemma length_app (s t : string) :
  String.length (s +:+ t) = String.length s + String.length t.
Proof. induction s as [|a s IH]; [done|]. rewrite append_cons. cbn. by rewrite IH. Qed.

Lemma app_nil_r_string (s : string) : s +:+ "" = s.
Proof. induction s as [|a s IH]; [done|]. by rewrite append_cons, IH. Qed.

(** The text between two positions of a consistent cursor. *)
Lemma substring_consumed (pre w post : string) :
  String.substring (String.length pre) (String.length w) (pre +:+ w +:+ post) = w.
Proof.
  induction pre as [|a pre IH].
  - change ("" +:+ ?x) with x. cbn [String.length]. induction w as [|b w IHw].
    + by destruct post.
    + rewrite append_cons. cbn [String.length String.substring]. by rewrite IHw.
  - rewrite append_cons. cbn [String.length String.substring]. exact IH.
Qed.

Lemma advance_consistent (whole : string) (c c' : cursor) :
  consistent whole c -> advance c = Some c' ->
  consistent whole c' /\ caps c' = caps c /\ lastgrp c' = lastgrp c /\
  exists b, peek c = Some b /\ rest c = String b (rest c') /\ pos c' = S (pos c).
Proof.
  intros (pre & Hw & Hl). unfold advance, peek. destruct (rest c) as [|b s] eqn:Hr; [done|].
  intros [= <-]. cbn [rest caps lastgrp pos]. split; [|split; [done|split; [done|by exists b]]].
  exists (pre +:+ String b ""). split.
  - by rewrite Hw, append_assoc.
  - rewrite length_app. cbn. lia.
Qed.

End Captures.

Section RunInvariant.
Import Re.
Context (cls : ascii -> bool) (i : nat) (fl : flags) (whole : string).

Lemma run_post_refl (r : re) (c : cursor) :
  consistent whole c -> caps_ok cls i c -> binds i r = false ->
  run_post cls i whole r c c.
Proof.
  intros Hc Hcaps Hb. split; [done|]. split; [done|]. split.
  - rewrite Hb. by intros [|].
  - intros _. exists "". split; [done|]. split; [done|]. cbn. lia.
Qed.

Lemma run_post_char (r : re) (c c' : cursor) (k : cursor -> option cursor)
    (c1 : cursor) (b : ascii) :
  consistent whole c -> caps_ok cls i c -> binds i r = false ->
  peek c = Some b -> (only cls r = true -> cls b = true) ->
  advance c ≫= k = Some c1 ->
  exists c', k c' = Some c1 /\ run_post cls i whole r c c'.
Proof.
  intros Hc Hcaps Hb Hpeek Hcls Hrun.
  destruct (advance c) as [c2|] eqn:Ha; [|done]. cbn [mbind option_bind] in Hrun.
  destruct (advance_consistent whole c c2 Hc Ha)
    as (Hc2 & Hcaps2 & Hlast2 & b' & Hpeek' & Hrest & Hpos).
  rewrite Hpeek in Hpeek'. injection Hpeek' as <-.
  exists c2. split; [done|]. split; [done|]. split.
  { unfold caps_ok. by rewrite Hcaps2. }
  split.
  - rewrite Hb. unfold has_last. rewrite Hlast2. by intros [|].
  - intros Ho. exists (String b ""). split; [by rewrite Hrest|]. split.
    + unfold all_chars. cbn. by rewrite (Hcls Ho).
    + cbn. lia.
Qed.

Lemma run_post_trans (r1 r2 r : re) (c c' c'' : cursor) :
  run_post cls i whole r1 c c' -> run_post cls i whole r2 c' c'' ->
  (binds i r = true -> binds i r1 = true \/ binds i r2 = true) ->
  (only cls r = true -> only cls r1 = true /\ only cls r2 = true) ->
  run_post cls i whole r c c''.
Proof.
  intros (H1c & H1caps & H1last & H1w) (H2c & H2caps & H2last & H2w) Hb Ho.
  split; [done|]. split; [done|]. split.
  - intros [Hl|Hr].
    + apply H2last. left. apply H1last. by left.
    + destruct (Hb Hr) as [Hb1|Hb2].
      * apply H2last. left. apply H1last. by right.
      * apply H2last. by right.
  - intros Hor. destruct (Ho Hor) as [Ho1 Ho2].
    destruct (H1w Ho1) as (w1 & Hr1 & Hw1 & Hp1).
    destruct (H2w Ho2) as (w2 & Hr2 & Hw2 & Hp2).
    exists (w1 +:+ w2). split; [by rewrite Hr1, Hr2, append_assoc|]. split.
    + by rewrite all_chars_app, Hw1, Hw2.
    + rewrite length_app. lia.
Qed.

(** The invariant of the matcher. *)
Lemma run_inv (r : re) :
  guards cls i r = true ->
  forall c k c1, consistent whole c -> caps_ok cls i c ->
  run fl whole r c k = Some c1 ->
  exists c', k c' = Some c1 /\ run_post cls i whole r c c'.
Proof.
  induction r as [| a | neg items | | | | r1 IH1 r2 IH2 | r1 IH1 r2 IH2
                 | greedy r IH | j r IH]; intros Hg c k c1 Hc Hcaps Hrun;
    cbn [run] in Hrun; cbn [guards] in Hg.
  - exists c. split; [done|]. by apply run_post_refl.
  - destruct (peek c) as [b|] eqn:Hp; [|done].
    destruct (Ascii.eqb a b) eqn:Hab; [|done]. apply Ascii.eqb_eq in Hab as <-.
    by apply (run_post_char (Lit a) c c k c1 a).
  - destruct (peek c) as [b|] eqn:Hp; [|done].
    destruct (xorb _ _) eqn:Hx; [|done].
    apply (run_post_char (CSet neg items) c c k c1 b); try done.
    cbn [only]. intros Ho. rewrite forallb_forall in Ho.
    specialize (Ho b (elem_of_all_ascii b)). by rewrite Hx in Ho.
  - destruct (peek c) as [b|] eqn:Hp; [|done].
    destruct (_ || _); [|done].
    apply (run_post_char AnyChar c c k c1 b); try done.
    cbn [only]. intros Ho. rewrite forallb_forall in Ho.
    apply Ho, elem_of_all_ascii.
  - destruct (at_bol fl c); [|done]. exists c. split; [done|]. by apply run_post_refl.
  - destruct (at_wordb c); [|done]. exists c. split; [done|]. by apply run_post_refl.
  - apply andb_prop in Hg as [Hg1 Hg2].
    apply (IH1 Hg1 c _ c1 Hc Hcaps) in Hrun as (c' & Hrun & Hp1).
    pose proof Hp1 as (Hc' & Hcaps' & _).
    apply (IH2 Hg2 c' k c1 Hc' Hcaps') in Hrun as (c'' & Hk & Hp2).
    exists c''. split; [done|]. apply (run_post_trans r1 r2 _ c c' c'' Hp1 Hp2).
    + cbn [binds]. by intros ?%orb_prop.
    + cbn [only]. by intros ?%andb_prop.
  - apply andb_prop in Hg as [Hg1 Hg2].
    destruct (run fl whole r1 c k) as [c2|] eqn:H1.
    + injection Hrun as ->.
      apply (IH1 Hg1 c k c1 Hc Hcaps) in H1 as (c' & Hk & Hc' & Hcaps' & Hl & Hw).
      exists c'. split; [done|]. split; [done|]. split; [done|]. split.
      * cbn [binds]. intros [?|[? _]%andb_prop]; apply Hl; auto.
      * cbn [only]. intros [? _]%andb_prop. by apply Hw.
    + apply (IH2 Hg2 c k c1 Hc Hcaps) in Hrun as (c' & Hk & Hc' & Hcaps' & Hl & Hw).
      exists c'. split; [done|]. split; [done|]. split; [done|]. split.
      * cbn [binds]. intros [?|[_ ?]%andb_prop]; apply Hl; auto.
      * cbn [only]. intros [_ ?]%andb_prop. by apply Hw.
  - revert Hrun. generalize (String.length (rest c)). intros n. revert c c1 Hc Hcaps.
    induction n as [|n IHn]; intros c c1 Hc Hcaps Hrun; cbn [star_loop] in Hrun.
    { exists c. split; [done|]. by apply run_post_refl. }
    assert (forall c2, run fl whole r c
              (fun c' => if (pos c <? pos c')%nat
                         then star_loop (run fl whole r) greedy k n c' else None)
              = Some c2 ->
            exists c', k c' = Some c2 /\ run_post cls i whole (Star greedy r) c c')
      as Hmore.
    { intros c2 H. apply (IH Hg c _ c2 Hc Hcaps) in H as (c' & H & Hp1).
      destruct (pos c <? pos c')%nat; [|done].
      pose proof Hp1 as (Hc' & Hcaps' & _).
      apply (IHn c' c2 Hc' Hcaps') in H as (c'' & Hk & Hp2).
      exists c''. split; [done|].
      apply (run_post_trans r (Star greedy r) _ c c' c'' Hp1 Hp2); [done|].
      cbn [only]. by intros ->. }
    destruct greedy.
    + destruct (run fl whole r c _) eqn:Hm.
      * injection Hrun as ->. by apply Hmore.
      * exists c. split; [done|]. by apply run_post_refl.
    + destruct (k c) eqn:Hk.
      * injection Hrun as ->. exists c. split; [done|]. by apply run_post_refl.
      * by apply Hmore.
  - apply andb_prop in Hg as [[Hj Hgi]%andb_prop Hg]. apply Nat.leb_le in Hj.
    apply (IH Hg c _ c1 Hc Hcaps) in Hrun as (c' & Hk & Hc' & Hcaps' & Hl & Hw).
    eexists. split; [exact Hk|]. split; [|split; [|split]].
    + destruct Hc' as (pre & Hpre & Hlen). by exists pre.
    + intros v Hv. cbn [caps] in Hv. apply elem_of_cons in Hv as [[= Hij ->]|Hv].
      2:{ by apply Hcaps'. }
      subst j. rewrite Nat.eqb_refl in Hgi.
      destruct (Hw Hgi) as (w & Hrest & Hcls & Hpos).
      destruct Hc as (pre & Hpre & Hlen).
      replace (pos c' - pos c) with (String.length w) by lia.
      rewrite <-Hlen, Hpre, Hrest. by rewrite substring_consumed.
    + intros _. unfold has_last. cbn [lastgrp]. destruct j; [lia|done].
    + cbn [only rest pos]. exact Hw.
Qed.

End RunInvariant.

Section MatchInvariant.
Import Re.
Context (cls : ascii -> bool) (i : nat) (fl : flags) (whole : string) (r : re).
Hypothesis Hguards : guards cls i r = true.
Hypothesis Hbinds : binds i r = true.

Lemma scan_inv (n : nat) : forall c c0 c1,
  consistent whole c -> scan fl whole r n c = Some (c0, c1) ->
  consistent whole c1 /\ caps_ok cls i c1 /\ has_last c1.
Proof.
  assert (forall c c1, consistent whole c ->
            run fl whole r (Cursor (pos c) (prev c) (rest c) [] None) Some = Some c1 ->
            consistent whole c1 /\ caps_ok cls i c1 /\ has_last c1) as Hrun.
  { intros c c1 (pre & Hpre & Hlen) H.
    apply (run_inv cls i fl whole r Hguards) in H
      as (c' & [= ->] & Hc & Hcaps & Hlast & _).
    - split; [done|]. split; [done|]. apply Hlast. by right.
    - by exists pre.
    - intros v Hv. by apply elem_of_nil in Hv. }
  induction n as [|n IH]; intros c c0 c1 Hc; cbn [scan].
  - destruct (run _ _ _ _ _) eqn:H; [|done]. intros [= <- <-]. by apply (Hrun c).
  - destruct (run _ _ _ _ _) eqn:H.
    + intros [= <- <-]. by apply (Hrun c).
    + destruct (advance c) as [c2|] eqn:Ha; [|done]. cbn [mbind option_bind].
      apply IH. by apply (advance_consistent whole c c2).
Qed.

Lemma lookup_map {A B : Type} (f : A -> B) (l : list A) (j : nat) :
  map f l !! j = f <$> l !! j.
Proof. revert j. induction l as [|x l IH]; intros [|j]; cbn; auto. Qed.

Lemma cap_lookup_elem (cs : list (nat * string)) (j : nat) (v : string) :
  cap_lookup cs j = Some v -> (j, v) ∈ cs.
Proof.
  unfold cap_lookup. destruct (list_find _ cs) as [[n [j' v']]|] eqn:Hf; [|done].
  cbn. intros [= <-]. apply list_find_Some in Hf as (Hl & Hj & _). cbn in Hj.
  subst j'. by apply list_elem_of_lookup_2 in Hl.
Qed.

(** A match built at the end of a run. *)
Lemma to_match_inv (ngroups : nat) (c0 c1 : cursor) :
  caps_ok cls i c1 -> has_last c1 ->
  let m := to_match ngroups whole c0 c1 in
  has_lastindex m = true /\
  (forall v, group m i = Some v -> 1 <= i -> all_chars cls v = true) /\
  (forall j v, group m (S j) = Some v -> j < ngroups).
Proof.
  intros Hcaps Hlast m. subst m. split; [|split].
  - unfold has_lastindex, to_match. cbn [lastindex]. unfold has_last in Hlast.
    by destruct (lastgrp c1) as [[|]|].
  - intros v Hv Hi. destruct i as [|j]; [lia|].
    unfold group, to_match in Hv. cbn [groups] in Hv. rewrite lookup_map in Hv.
    destruct (seq 0 ngroups !! j) as [j'|] eqn:Hj; [|done].
    apply lookup_seq in Hj as [-> _]. cbn in Hv.
    by apply Hcaps, cap_lookup_elem.
  - intros j v Hv. unfold group, to_match in Hv. cbn [groups] in Hv.
    rewrite lookup_map in Hv.
    destruct (seq 0 ngroups !! j) as [j'|] eqn:Hj; [|done].
    by apply lookup_seq in Hj as [_ ?].
Qed.

(** Every match of the compiled pattern closed a group, has group [i]
    in the class, and has no more groups than the pattern. *)
Lemma finditer_inv (ngroups : nat) (text : string) :
  whole = text -> 1 <= i ->
  Forall (fun m => has_lastindex m = true /\
                   (forall v, group m i = Some v -> all_chars cls v = true) /\
                   (forall j v, group m (S j) = Some v -> j < ngroups))
         (finditer (compile fl ngroups r) text).
Proof.
  intros <- Hi. unfold compile, finditer.
  assert (consistent whole (Cursor 0 None whole [] None)) as Hc0 by (by exists "").
  revert Hc0. generalize (Cursor 0 None whole [] None).
  generalize (S (String.length whole)). intros fuel.
  induction fuel as [|fuel IH]; intros c Hc; cbn [matches_from]; [constructor|].
  destruct (scan _ _ _ _ _) as [[c0 c1]|] eqn:Hscan; [|constructor].
  destruct (scan_inv _ _ _ _ Hc Hscan) as (Hc1 & Hcaps & Hlast).
  constructor.
  - destruct (to_match_inv ngroups c0 c1 Hcaps Hlast) as (H1 & H2 & H3).
    split; [done|]. split; [|done]. intros v Hv. by apply H2.
  - destruct (pos c0 <? pos c1)%nat; [by apply IH|].
    destruct (advance c1) as [c2|] eqn:Ha; cbn; [|constructor].
    apply IH. by apply (advance_consistent whole c1 c2).
Qed.

End MatchInvariant.

(** ** Python imports *)

Section PythonImports.
Import Re.

Lemma all_chars_impl (p q : ascii -> bool) (s : string) :
  (forall a, p a = true -> q a = true) ->
  all_chars p s = true -> all_chars q s = true.
Proof.
  intros Hpq. unfold all_chars. induction s as [|a s IH]; [done|].
  cbn [list_ascii_of_string forallb]. intros [Ha Hs]%andb_prop.
  by rewrite (Hpq a Ha), (IH Hs).
Qed.

Lemma all_chars_rev_app (p : ascii -> bool) (s : string) : forall (acc : string),
  all_chars p (String.rev_app s acc) = all_chars p s && all_chars p acc.
Proof.
  induction s as [|a s IH]; intros acc; [done|]. cbn [String.rev_app].
  rewrite IH. unfold all_chars. cbn [list_ascii_of_string forallb].
  by destruct (p a), (forallb p (list_ascii_of_string s)).
Qed.

Lemma rev_app_rev_app (s : string) : forall (a b : string),
  String.rev_app (String.rev_app s a) b = String.rev_app a (s +:+ b).
Proof.
  induction s as [|x s IH]; intros a b; [done|]. cbn [String.rev_app].
  by rewrite IH.
Qed.

Lemma rev_involutive (s : string) : String.rev (String.rev s) = s.
Proof.
  unfold String.rev. rewrite rev_app_rev_app. cbn [String.rev_app].
  apply app_nil_r_string.
Qed.

Lemma lstrip_by_id (p : ascii -> bool) (s : string) :
  all_chars (fun a => negb (p a)) s = true -> lstrip_by p s = s.
Proof.
  destruct s as [|a s]; [done|]. unfold all_chars.
  cbn [list_ascii_of_string forallb lstrip_by]. intros [Ha _]%andb_prop.
  apply negb_true_iff in Ha. by rewrite Ha.
Qed.

(** Stripping changes nothing where no character is to be stripped. *)
Lemma strip_by_id (p : ascii -> bool) (s : string) :
  all_chars (fun a => negb (p a)) s = true -> strip_by p s = s.
Proof.
  intros Hs. unfold strip_by, rstrip_by. rewrite (lstrip_by_id p s Hs).
  rewrite lstrip_by_id; [apply rev_involutive|].
  unfold String.rev. by rewrite all_chars_rev_app, Hs.
Qed.

Lemma contains_char_false (c : ascii) (s : string) :
  all_chars (fun a => negb (Ascii.eqb a c)) s = true ->
  contains s (String c "") = false.
Proof.
  unfold all_chars. induction s as [|a s IH]; [done|].
  cbn [list_ascii_of_string forallb contains String.prefix].
  intros [Ha Hs]%andb_prop. apply negb_true_iff in Ha.
  rewrite (IH Hs), orb_false_r.
  destruct (Ascii.ascii_dec c a) as [->|]; [|done]. by rewrite Ascii.eqb_refl in Ha.
Qed.

Lemma dotted_char_plain (a : ascii) :
  dotted_char a = true ->
  negb (is_space a) = true /\
  negb (Ascii.eqb a dquote || Ascii.eqb a squote) = true /\
  negb (Ascii.eqb a slash) = true.
Proof.
  assert (implb (dotted_char a)
            (negb (is_space a) && negb (Ascii.eqb a dquote || Ascii.eqb a squote)
             && negb (Ascii.eqb a slash)) = true) as H.
  { destruct a as [[] [] [] [] [] [] [] []]; reflexivity. }
  intros Hd. rewrite Hd in H. cbn [implb] in H.
  by apply andb_prop in H as [[? ?]%andb_prop ?].
Qed.

Lemma head_omap_elem {A B : Type} (f : A -> option B) (l : list A) (y : B) :
  head (omap f l) = Some y -> exists x, x ∈ l /\ f x = Some y.
Proof.
  intros H. apply head_Some_elem_of in H. by apply list_elem_of_omap in H.
Qed.

(** The specifier of a match that closed a group is one of its groups. *)
Lemma match_specifier_group (m : rmatch) (v : string) :
  has_lastindex m = true -> match_specifier m = Some v ->
  v <> "" /\ exists j, group m (S j) = Some v.
Proof.
  unfold match_specifier. intros ->.
  destruct (head _) as [v'|] eqn:Hh; [|done].
  destruct (truthy v') eqn:Ht; [|done]. intros [= <-]. split; [by destruct v'|].
  apply head_omap_elem in Hh as (j & Hj & Hg).
  apply elem_of_seq in Hj as [Hj _]. destruct j as [|j]; [lia|].
  exists j. destruct (group m (S j)) as [v0|]; [|done].
  destruct (truthy v0); [|done]. by injection Hg as ->.
Qed.

Lemma python_handler (J : list regex) :
  LANG_HANDLERS J !! "python" = Some PY_HANDLER.
Proof.
  unfold LANG_HANDLERS. do 5 (rewrite lookup_insert_ne; [|done]).
  apply lookup_insert_eq.
Qed.

(** X18.  What [extract_imports] takes from a Python file of ASCII text is a
    non-empty module path of letters, digits, underscores and dots; and
    unless it starts
    with a dot, the resolver maps it to nothing, whatever the files of the
    project: an absolute import never gives an edge of the graph. *)
Theorem python_absolute_imports_unresolved (J : list regex)
    (h : LanguageHandler) (text imp : string) :
  LANG_HANDLERS J !! "python" = Some h ->
  ascii_text text = true ->
  imp ∈ extract_imports h text ->
  imp <> "" /\ all_chars dotted_char imp = true /\
  (startswith imp "." = false ->
   forall f S, resolve_import h f imp S = None).
Proof.
  rewrite python_handler. intros [= <-] _.
  intros Hin. unfold extract_imports in Hin. apply list_elem_of_In in Hin.
  apply in_flat_map in Hin as (rx & Hrx & Hin). apply list_elem_of_In in Hin.
  apply list_elem_of_omap in Hin as (m & Hm & Hspec).
  assert (has_lastindex m = true /\
          (forall v, group m 1 = Some v -> all_chars dotted_char v = true) /\
          (forall j v, group m (S j) = Some v -> j < 1)) as (Hlast & Hcls & Hng).
  { clear Hspec. cbn [PY_HANDLER import_regexes PY_IMPORTS In] in Hrx.
    destruct Hrx as [<-|[<-|[]]].
    - revert m Hm. apply Forall_forall.
      apply (finditer_inv dotted_char 1 flag_M text); [reflexivity..|lia].
    - revert m Hm. apply Forall_forall.
      apply (finditer_inv dotted_char 1 flag_M text); [reflexivity..|lia]. }
  destruct (match_specifier_group m imp Hlast Hspec) as (Hne & j & Hg).
  assert (j = 0) as -> by (specialize (Hng j imp Hg); lia).
  pose proof (Hcls imp Hg) as Hdot.
  split; [done|]. split; [done|]. intros Hrel f S.
  assert (strip imp = imp) as Hstrip.
  { apply strip_by_id. eapply all_chars_impl; [|exact Hdot].
    intros a Ha. by apply dotted_char_plain in Ha as (? & _). }
  assert (strip_quotes imp = imp) as Hquotes.
  { apply strip_by_id. eapply all_chars_impl; [|exact Hdot].
    intros a Ha. by apply dotted_char_plain in Ha as (_ & ? & _). }
  assert (contains imp "/" = false) as Hslash.
  { apply (contains_char_false slash). eapply all_chars_impl; [|exact Hdot].
    intros a Ha. by apply dotted_char_plain in Ha as (_ & _ & ?). }
  assert (startswith imp "/" = false) as Hroot.
  { destruct imp as [|a s]; [done|]. unfold startswith. cbn [String.prefix].
    destruct (Ascii.ascii_dec "/" a) as [<-|]; [|done].
    unfold all_chars in Hdot. cbn [list_ascii_of_string forallb] in Hdot.
    by apply andb_prop in Hdot as [? _]. }
  unfold resolve_import. rewrite Hstrip, Hquotes, Hrel, Hroot, Hslash.
  destruct (negb (truthy imp)); [done|]. cbn [orb PY_HANDLER name].
  by rewrite andb_false_r.
Qed.

End PythonImports.

(** An absolute import of a Python file. *)
Lemma python_absolute_imports_unresolved_witness :
  resolve_import PY_HANDLER "src/app/main.py" "app.utils"
    {[ "src/app/utils.py"; "src/app/main.py" ]} = None.
Proof.
  refine (proj2 (proj2 (python_absolute_imports_unresolved [] PY_HANDLER
                          ("import app.utils" +:+ String newline "") "app.utils" _ _ _))
            _ "src/app/main.py" {[ "src/app/utils.py"; "src/app/main.py" ]}).
  - apply python_handler.
  - by vm_compute.
  - apply list_elem_of_In. vm_compute. by left.
  - reflexivity.
Defined.

(** ** The rewriting passes, file by file *)

Section Passes.
Variable J : list Re.regex.
Import FS.





Lemma named_once_elem (f : string) (l : list string) : named_once f l -> f ∈ l.
Proof. intros (l1 & l2 & -> & _). apply elem_of_app. right. left. Qed.



End Passes.

Section PassEffects.
Variable J : list Re.regex.
Import FS.




End PassEffects.

Section MoveEffect.
Variable J : list Re.regex.
Import FS.







End MoveEffect.

Section Deletions.
Variable J : list Re.regex.
Import FS.



End Deletions.

Section NoStop.
Variable J : list Re.regex.
Import FS.


End NoStop.

